(** * ETFTrueHoldings: cache, profile fetcher and aggregation engine

    A shallow embedding of the three core pieces of the repository:

    - [services/alphaVantage.ts]: [getCache], [setCache], [fetchEtfProfile];
    - [App.tsx]: the two memoised computations [stats] and [aggregatedData];
    - [types.ts]: the records they exchange.

    JavaScript numbers are IEEE 754 binary64 values: they are modelled by
    Rocq's primitive [float], whose operations the kernel evaluates in
    binary64 and whose specification is [SpecFloat].  Nothing is idealised
    to real or rational arithmetic: [NaN], signed zeros, infinities and
    rounding are those of the running program.

    Presence tests that the source writes as JavaScript truthiness tests
    ([if (x)], [!x], [a || b]) are modelled as such: [null], [undefined],
    the empty string, [0], [-0] and [NaN] are falsy. *)

From Stdlib Require Import ZArith List String Ascii Bool Lia Floats.
From Stdlib Require Import Permutation Sorted DecimalString.
From stdpp Require Import gmap strings.
Import ListNotations.

Local Open Scope string_scope.
Local Open Scope Z_scope.

(** ** JavaScript numbers *)

Module JSNumber.

Definition number := float.

(** [ToBoolean] on a number: [0], [-0] and [NaN] are falsy. *)
Definition truthy (x : number) : bool :=
  negb (PrimFloat.is_nan x || PrimFloat.is_zero x).

(** [x || d] on numbers. *)
Definition or_else (x d : number) : number :=
  if truthy x then x else d.

(** *** [parseFloat]

    The built-in skips leading white space, takes the longest prefix that
    is a [StrDecimalLiteral] (sign, [Infinity], digits, fraction and
    exponent) and returns the nearest binary64 value, or [NaN] when no
    prefix qualifies.  Strings are byte strings here, so only the ASCII
    white-space characters are skipped. *)

Definition is_white_space (c : ascii) : bool :=
  let n := nat_of_ascii c in
  (Nat.eqb n 9 || Nat.eqb n 10 || Nat.eqb n 11 || Nat.eqb n 12
   || Nat.eqb n 13 || Nat.eqb n 32)%bool.

Fixpoint trim_start (s : string) : string :=
  match s with
  | String c r => if is_white_space c then trim_start r else s
  | EmptyString => s
  end.

Definition digit_of (c : ascii) : option Z :=
  let n := Z.of_nat (nat_of_ascii c) in
  if (Z.leb 48 n && Z.leb n 57)%bool then Some (n - 48) else None.

(** Reads the longest run of decimal digits: its value on top of [acc],
    how many digits were read, and the rest of the string. *)
Fixpoint read_digits (s : string) (acc : Z) (count : Z) : Z * Z * string :=
  match s with
  | String c r =>
      match digit_of c with
      | Some d => read_digits r (10 * acc + d) (count + 1)
      | None => (acc, count, s)
      end
  | EmptyString => (acc, count, s)
  end.

(** The optional [ExponentPart]; an [e] that no digit follows is not part
    of the literal. *)
Definition read_exponent (s : string) : Z :=
  match s with
  | String c r =>
      if (Ascii.eqb c "e"%char || Ascii.eqb c "E"%char)%bool then
        let '(neg, r') :=
          match r with
          | String "+"%char r' => (false, r')
          | String "-"%char r' => (true, r')
          | _ => (false, r)
          end in
        let '(e, n, _) := read_digits r' 0 0 in
        if Z.eqb n 0 then 0 else if neg then - e else e
      else 0
  | EmptyString => 0
  end.

(** The binary64 value nearest to [m * 10^e], for [m > 0]. *)
Definition decimal_to_SF (m : positive) (e : Z) : spec_float :=
  match e with
  | Zneg k =>
      SFdiv prec emax (S754_finite false m 0)
            (S754_finite false (Pos.pow 10 k) 0)
  | _ => binary_normalize prec emax (Zpos m * 10 ^ e) 0 false
  end.

Definition decimal_to_number (neg : bool) (m e : Z) : number :=
  let x :=
    match m with
    | Zpos p => SF2Prim (decimal_to_SF p e)
    | _ => PrimFloat.zero
    end in
  if neg then PrimFloat.opp x else x.

Definition parse_unsigned (neg : bool) (s : string) : number :=
  if String.prefix "Infinity" s then
    if neg then PrimFloat.neg_infinity else PrimFloat.infinity
  else
    let '(ip, ni, r1) := read_digits s 0 0 in
    let '(m, nf, r2) :=
      match r1 with
      | String "."%char r => read_digits r ip 0
      | _ => (ip, 0, r1)
      end in
    if (Z.eqb ni 0 && Z.eqb nf 0)%bool then PrimFloat.nan
    else decimal_to_number neg m (read_exponent r2 - nf).

Definition parseFloat (s : string) : number :=
  match trim_start s with
  | String "+"%char r => parse_unsigned false r
  | String "-"%char r => parse_unsigned true r
  | t => parse_unsigned false t
  end.

End JSNumber.

Import JSNumber.

(** ** Reading binary64 values

    The vocabulary in which the properties of numbers are stated:
    [SpecFloat]'s view of a number, whether it is strictly positive, and
    its position on the number line as an integer multiple of the smallest
    subnormal 2^-1074 (the infinities sit beyond every finite value). *)
Module Binary64.

Definition SFpositive (x : spec_float) : bool :=
  match x with
  | S754_finite false _ _ | S754_infinity false => true
  | _ => false
  end.

Definition SFis_nan (x : spec_float) : bool :=
  match x with
  | S754_nan => true
  | _ => false
  end.

Definition SFval (x : spec_float) : Z :=
  match x with
  | S754_zero _ | S754_nan => 0
  | S754_infinity s => cond_Zopp s (2 ^ 2100)
  | S754_finite s m e => cond_Zopp s (Zpos m * 2 ^ (e + 1074))
  end.

Definition val (x : number) : Z := SFval (Prim2SF x).

End Binary64.

(** ** Strings, and the insertion-ordered [Map] *)

Module JSString.

(** [ToBoolean] on a string: only the empty string is falsy. *)
Definition truthy (s : string) : bool := negb (String.eqb s "").

(** [a || b] on strings. *)
Definition or_else (a b : string) : string := if truthy a then a else b.

(** [ToBoolean] on a value of type [string | null]. *)
Definition truthy_opt (o : option string) : bool :=
  match o with
  | Some s => truthy s
  | None => false
  end.

End JSString.

(** A JavaScript [Map] keyed by strings iterates in the order in which its
    keys were first inserted; [set] on a key that is present replaces the
    value and keeps the key's position. *)
Module JSMap.

Section WithValue.
Context {V : Type}.

Definition t := list (string * V).

Definition empty : t := [].

Fixpoint get (k : string) (m : t) : option V :=
  match m with
  | [] => None
  | (k', v) :: r => if String.eqb k k' then Some v else get k r
  end.

Fixpoint set (k : string) (v : V) (m : t) : t :=
  match m with
  | [] => [(k, v)]
  | (k', v') :: r =>
      if String.eqb k k' then (k', v) :: r else (k', v') :: set k v r
  end.

(** [Array.from(m.entries())]. *)
Definition entries (m : t) : list (string * V) := m.

Definition keys (m : t) : list string := List.map fst m.

End WithValue.

Arguments t : clear implicits.

End JSMap.

(** [Array.prototype.sort] with a comparison function.  The sort is stable
    (ECMAScript 2019); a result [v] of the comparison moves [a] after [b]
    exactly when [v > 0], and a [NaN] result counts as [+0].  For a
    consistent comparison function every stable sort returns the list that
    this insertion sort returns. *)
Module JSArray.

Section Sort.
Context {A : Type}.
Variable comparefn : A -> A -> number.

Fixpoint insert (a : A) (l : list A) : list A :=
  match l with
  | [] => [a]
  | b :: r =>
      if (0 <? comparefn a b)%float
      then b :: insert a r
      else a :: l
  end.

Definition sort (l : list A) : list A := List.fold_right insert [] l.

(** [pos] places every element on the integer line; the comparison
    function agrees with it on a list when [comparefn a b > 0] holds
    exactly for [pos a < pos b], that is when it asks for descending
    order of [pos]. *)
Definition agrees (pos : A -> Z) (l : list A) : Prop :=
  forall a b, In a l -> In b l ->
    (0 <? comparefn a b)%float = (pos a <? pos b)%Z.

End Sort.

End JSArray.

(** ** [types.ts] *)

Module AVHolding.
(** [symbol] is declared a string, but the provider sends [null] for cash
    positions and [aggregatedData] tests for it. *)
Record t := {
  symbol : option string;
  description : string;
  weight : string;
  assets : string
}.
End AVHolding.

Module AVSector.
Record t := {
  sector : string;
  weight : string
}.
End AVSector.

Module EtfProfileData.
(** [holdings] and [sectors] are declared arrays; [aggregatedData] guards
    both against being absent, so both are optional here. *)
Record t := {
  symbol : string;
  name : option string;
  net_assets : string;
  portfolio_turnover : string;
  net_expense_ratio : string;
  dividend_yield : string;
  holdings : option (list AVHolding.t);
  sectors : option (list AVSector.t)
}.
End EtfProfileData.

Module PortfolioItem.
Record t := {
  id : string;
  ticker : string;
  equity : number;
  data : option EtfProfileData.t;
  isLoading : bool;
  error : option string
}.
End PortfolioItem.

Module AggregatedHolding.
Record t := {
  ticker : string;
  name : string;
  assetClass : string;
  totalValue : number;
  percentageOfPortfolio : number
}.
End AggregatedHolding.

Module AggregatedSector.
Record t := {
  name : string;
  value : number;
  percentage : number
}.
End AggregatedSector.

(** ** [App.tsx]: the derived state *)

Module App.

Local Open Scope float_scope.

(** The four accumulators of the [stats] loop.  [validItemsCount] only
    counts array elements, so it is a natural number. *)
Record StatsAcc := {
  acc_totalEquity : number;
  acc_weightedExpense : number;
  acc_weightedYield : number;
  acc_validItemsCount : N
}.

Definition stats_init : StatsAcc :=
  {| acc_totalEquity := 0; acc_weightedExpense := 0;
     acc_weightedYield := 0; acc_validItemsCount := 0%N |}.

(** [item.data && !item.error]. *)
Definition counts_in_stats (item : PortfolioItem.t) : bool :=
  match PortfolioItem.data item with
  | Some _ => negb (JSString.truthy_opt (PortfolioItem.error item))
  | None => false
  end.

(** The body of [portfolio.forEach] in [stats]. *)
Definition stats_step (a : StatsAcc) (item : PortfolioItem.t) : StatsAcc :=
  match PortfolioItem.data item with
  | Some d =>
      if negb (JSString.truthy_opt (PortfolioItem.error item)) then
        let equity := PortfolioItem.equity item in
        let expenseRatio :=
          JSNumber.or_else (parseFloat (EtfProfileData.net_expense_ratio d)) 0 in
        let divYield :=
          JSNumber.or_else (parseFloat (EtfProfileData.dividend_yield d)) 0 in
        {| acc_totalEquity := acc_totalEquity a + equity;
           acc_weightedExpense := acc_weightedExpense a + expenseRatio * equity;
           acc_weightedYield := acc_weightedYield a + divYield * equity;
           acc_validItemsCount := N.succ (acc_validItemsCount a) |}
      else a
  | None => a
  end.

Record Stats := {
  totalEquity : number;
  avgExpenseRatio : number;
  avgDividendYield : number;
  totalAnnualExpense : number;
  totalAnnualDividend : number;
  hasData : bool
}.

(** What [holdingMap] stores for a key. *)
Record HoldingEntry := {
  value : number;
  name : string;
  assetClass : string
}.

(** Normalisation of the key: [N/A], [-], the empty string and [null]
    become [CASH]. *)
Definition canonical (h : AVHolding.t) : string * string :=
  match AVHolding.symbol h with
  | Some s =>
      if (negb (JSString.truthy s) || String.eqb s "N/A" || String.eqb s "-")%bool
      then ("CASH"%string, "Cash / Other Assets"%string)
      else (s, AVHolding.description h)
  | None => ("CASH"%string, "Cash / Other Assets"%string)
  end.

(** The body of [item.data.holdings.forEach]. *)
Definition holding_step (equity : number) (holdingMap : JSMap.t HoldingEntry)
    (holding : AVHolding.t) : JSMap.t HoldingEntry :=
  let '(symbol, description) := canonical holding in
  let weight := parseFloat (AVHolding.weight holding) in
  let holdingValue := equity * weight in
  let current :=
    match JSMap.get symbol holdingMap with
    | Some c => c
    | None => {| value := 0; name := description;
                 assetClass := AVHolding.assets holding |}
    end in
  JSMap.set symbol
    {| value := value current + holdingValue;
       name := JSString.or_else description (name current);
       assetClass := JSString.or_else (AVHolding.assets holding) (assetClass current) |}
    holdingMap.

(** The body of [item.data.sectors.forEach]. *)
Definition sector_step (equity : number) (sectorMap : JSMap.t number)
    (sector : AVSector.t) : JSMap.t number :=
  let weight := parseFloat (AVSector.weight sector) in
  let sectorValue := equity * weight in
  let currentVal :=
    match JSMap.get (AVSector.sector sector) sectorMap with
    | Some v => JSNumber.or_else v 0
    | None => 0
    end in
  JSMap.set (AVSector.sector sector) (currentVal + sectorValue) sectorMap.

(** The body of [portfolio.forEach] in [aggregatedData]; the sectors of an
    item are read only inside the test on its holdings. *)
Definition aggregate_step (maps : JSMap.t HoldingEntry * JSMap.t number)
    (item : PortfolioItem.t) : JSMap.t HoldingEntry * JSMap.t number :=
  let '(holdingMap, sectorMap) := maps in
  match PortfolioItem.data item with
  | Some d =>
      match EtfProfileData.holdings d with
      | Some hs =>
          if negb (JSString.truthy_opt (PortfolioItem.error item)) then
            let equity := PortfolioItem.equity item in
            let holdingMap' := List.fold_left (holding_step equity) hs holdingMap in
            let sectorMap' :=
              match EtfProfileData.sectors d with
              | Some ss => List.fold_left (sector_step equity) ss sectorMap
              | None => sectorMap
              end in
            (holdingMap', sectorMap')
          else maps
      | None => maps
      end
  | None => maps
  end.

Definition aggregate_maps (portfolio : list PortfolioItem.t)
    : JSMap.t HoldingEntry * JSMap.t number :=
  List.fold_left aggregate_step portfolio (JSMap.empty, JSMap.empty).

(** The comparison functions handed to [sort]. *)
Definition by_totalValue (a b : AggregatedHolding.t) : number :=
  AggregatedHolding.totalValue b - AggregatedHolding.totalValue a.

Definition by_value (a b : AggregatedSector.t) : number :=
  AggregatedSector.value b - AggregatedSector.value a.

(** The source divides with [/].  The division is a parameter of the
    definitions below so that a theorem can say that no result depends
    on what a division by zero returns; [stats] and [aggregatedData]
    are the instances at binary64 division. *)
Section WithDivision.
Variable div : number -> number -> number.

Definition stats_with (portfolio : list PortfolioItem.t) : Stats :=
  let a := List.fold_left stats_step portfolio stats_init in
  let totalEquity := acc_totalEquity a in
  let weightedExpense := acc_weightedExpense a in
  let weightedYield := acc_weightedYield a in
  {| totalEquity := totalEquity;
     avgExpenseRatio :=
       if 0 <? totalEquity then div weightedExpense totalEquity else 0;
     avgDividendYield :=
       if 0 <? totalEquity then div weightedYield totalEquity else 0;
     totalAnnualExpense := weightedExpense;
     totalAnnualDividend := weightedYield;
     hasData := (0 <? acc_validItemsCount a)%N |}.

Definition to_holding (totalEquity : number) (e : string * HoldingEntry)
    : AggregatedHolding.t :=
  let '(ticker, data) := e in
  {| AggregatedHolding.ticker := ticker;
     AggregatedHolding.name := name data;
     AggregatedHolding.assetClass := assetClass data;
     AggregatedHolding.totalValue := value data;
     AggregatedHolding.percentageOfPortfolio :=
       if 0 <? totalEquity then div (value data) totalEquity * 100 else 0 |}.

Definition to_sector (totalEquity : number) (e : string * number)
    : AggregatedSector.t :=
  let '(name, value) := e in
  {| AggregatedSector.name := name;
     AggregatedSector.value := value;
     AggregatedSector.percentage :=
       if 0 <? totalEquity then div value totalEquity * 100 else 0 |}.

(** The two arrays before [sort]: [Array.from(map.entries()).map(...)]. *)
Definition holding_rows_with (portfolio : list PortfolioItem.t)
    : list AggregatedHolding.t :=
  List.map (to_holding (totalEquity (stats_with portfolio)))
    (JSMap.entries (fst (aggregate_maps portfolio))).

Definition sector_rows_with (portfolio : list PortfolioItem.t)
    : list AggregatedSector.t :=
  List.map (to_sector (totalEquity (stats_with portfolio)))
    (JSMap.entries (snd (aggregate_maps portfolio))).

Definition aggregatedData_with (portfolio : list PortfolioItem.t)
    : list AggregatedHolding.t * list AggregatedSector.t :=
  let holdings := JSArray.sort by_totalValue (holding_rows_with portfolio) in
  let sectors := JSArray.sort by_value (sector_rows_with portfolio) in
  (holdings, sectors).

End WithDivision.

Definition stats : list PortfolioItem.t -> Stats :=
  stats_with PrimFloat.div.

Definition holding_rows : list PortfolioItem.t -> list AggregatedHolding.t :=
  holding_rows_with PrimFloat.div.

Definition sector_rows : list PortfolioItem.t -> list AggregatedSector.t :=
  sector_rows_with PrimFloat.div.

Definition aggregatedData
    : list PortfolioItem.t -> list AggregatedHolding.t * list AggregatedSector.t :=
  aggregatedData_with PrimFloat.div.

(** The two halves of [aggregatedData], under the names of the
    specification. *)
Definition aggregateHoldings (portfolio : list PortfolioItem.t)
    : list AggregatedHolding.t := fst (aggregatedData portfolio).

Definition aggregateSectors (portfolio : list PortfolioItem.t)
    : list AggregatedSector.t := snd (aggregatedData portfolio).

End App.

(** ** The vocabulary of the aggregation properties *)

Module AppSpec.

Local Open Scope float_scope.

(** The binary64 sum that a [+=] loop started at [0] computes, left to
    right. *)
Definition sum (l : list number) : number := List.fold_left PrimFloat.add l 0.

(** The holdings that [aggregatedData] visits, in visiting order, each
    with the equity of its position. *)
Definition visited_of (item : PortfolioItem.t) : list (number * AVHolding.t) :=
  match PortfolioItem.data item with
  | Some d =>
      match EtfProfileData.holdings d with
      | Some hs =>
          if negb (JSString.truthy_opt (PortfolioItem.error item))
          then List.map (pair (PortfolioItem.equity item)) hs
          else []
      | None => []
      end
  | None => []
  end.

Definition visited (portfolio : list PortfolioItem.t)
    : list (number * AVHolding.t) :=
  List.flat_map visited_of portfolio.

(** The key under which a holding is merged, and what it adds there. *)
Definition key (h : AVHolding.t) : string := fst (App.canonical h).

Definition contribution (eh : number * AVHolding.t) : number :=
  fst eh * parseFloat (AVHolding.weight (snd eh)).

(** One visited holding merged into the map, and the value that the map
    holds for a key ([0] before the key is inserted). *)
Definition merge (m : JSMap.t App.HoldingEntry) (eh : number * AVHolding.t)
    : JSMap.t App.HoldingEntry :=
  App.holding_step (fst eh) m (snd eh).

Definition value_at (k : string) (m : JSMap.t App.HoldingEntry) : number :=
  match JSMap.get k m with
  | Some c => App.value c
  | None => 0
  end.

(** The visited holdings that are merged under [k]. *)
Definition bucket (k : string) (l : list (number * AVHolding.t))
    : list (number * AVHolding.t) :=
  List.filter (fun eh => String.eqb (key (snd eh)) k) l.

(** The symbols that stand for no symbol: [null], the empty string,
    [N/A] and [-]. *)
Definition placeholder (symbol : option string) : bool :=
  match symbol with
  | None => true
  | Some s => (String.eqb s "" || String.eqb s "N/A" || String.eqb s "-")%bool
  end.

(** The distinct elements of a list, in the order of their first
    occurrences. *)
Fixpoint first_seen (l : list string) : list string :=
  match l with
  | [] => []
  | k :: r => k :: List.filter (fun k' => negb (String.eqb k' k)) (first_seen r)
  end.

Definition mem (k : string) (l : list string) : bool :=
  List.existsb (String.eqb k) l.

(** [a] may stand before [b] in a list sorted by [totalValue], descending. *)
Definition descending (a b : AggregatedHolding.t) : Prop :=
  (AggregatedHolding.totalValue b <=? AggregatedHolding.totalValue a) = true.

(** The rows whose [totalValue] equals [v]. *)
Definition tied (v : number) (l : list AggregatedHolding.t)
    : list AggregatedHolding.t :=
  List.filter (fun r => AggregatedHolding.totalValue r =? v) l.

(** Two divisions that agree wherever the divisor is not a zero. *)
Definition same_off_zero (div div' : number -> number -> number) : Prop :=
  forall x y, PrimFloat.is_zero y = false -> div' x y = div x y.

(** Two positions that [stats] and [aggregatedData] cannot tell apart. *)
Definition same_inputs (a b : PortfolioItem.t) : Prop :=
  PortfolioItem.equity a = PortfolioItem.equity b
  /\ PortfolioItem.data a = PortfolioItem.data b
  /\ PortfolioItem.error a = PortfolioItem.error b.

End AppSpec.

(** ** [localStorage] *)

(** The backing store of the cache: a string-to-string map with a size
    limit.  [setItem] throws [QuotaExceededError] when the map would grow
    past the limit; [None] stands for that exception. *)
Module LocalStorage.

Record t := {
  items : gmap string string;
  quota : nat
}.

Definition used (m : gmap string string) : nat :=
  map_fold (fun k v n => (String.length k + String.length v + n)%nat) 0%nat m.

Definition getItem (key : string) (st : t) : option string :=
  items st !! key.

Definition setItem (key value : string) (st : t) : option t :=
  let m := <[key := value]> (items st) in
  if (used m <=? quota st)%nat
  then Some {| items := m; quota := quota st |}
  else None.

Definition removeItem (key : string) (st : t) : t :=
  {| items := delete key (items st); quota := quota st |}.

End LocalStorage.

(** ** [services/alphaVantage.ts]: the cache *)

Module Cache.

(** [Date.now()] is a whole number of milliseconds far below 2^53, on
    which binary64 subtraction and comparison are exact: instants are
    integers here. *)
Definition CACHE_DURATION : Z := 24 * 60 * 60 * 1000.

Record CacheEntry (Data : Type) := {
  data : Data;
  timestamp : Z
}.
Arguments data {Data} _.
Arguments timestamp {Data} _.
Arguments Build_CacheEntry {Data} _ _.

(** [String.prototype.toUpperCase], on the ASCII letters. *)
Definition upper (c : ascii) : ascii :=
  let n := nat_of_ascii c in
  if ((97 <=? n) && (n <=? 122))%nat then ascii_of_nat (n - 32) else c.

Fixpoint toUpperCase (s : string) : string :=
  match s with
  | EmptyString => EmptyString
  | String c r => String (upper c) (toUpperCase r)
  end.

Definition cache_key (ticker : string) : string :=
  "av_etf_v4_" ++ toUpperCase ticker.

(** [JSON.stringify] and [JSON.parse] belong to the platform; they are
    parameters.  [JSON_parse] returns [None] where [JSON.parse] throws. *)
Section WithJSON.
Context {Data : Type}.
Variable JSON_stringify : CacheEntry Data -> string.
Variable JSON_parse : string -> option (CacheEntry Data).

(** [now] is the reading of [Date.now()] inside the call.  The result
    is the returned value ([None] for [null]) and the store the call
    leaves behind. *)
Definition getCache (now : Z) (ticker : string) (st : LocalStorage.t)
    : option Data * LocalStorage.t :=
  let key := cache_key ticker in
  match LocalStorage.getItem key st with
  | None => (None, st)
  | Some stored =>
      if negb (JSString.truthy stored) then (None, st)
      else
        match JSON_parse stored with
        | Some entry =>
            if now - timestamp entry <? CACHE_DURATION
            then (Some (data entry), st)
            else (None, LocalStorage.removeItem key st)
        | None => (None, LocalStorage.removeItem key st)
        end
  end.

Definition setCache (now : Z) (ticker : string) (d : Data)
    (st : LocalStorage.t) : LocalStorage.t :=
  let key := cache_key ticker in
  let entry := {| data := d; timestamp := now |} in
  match LocalStorage.setItem key (JSON_stringify entry) st with
  | Some st' => st'
  | None => st
  end.

End WithJSON.

End Cache.

(** ** Untyped values

    The bodies that [response.json()] returns have type [any]; the fetcher
    reads them with property accesses and truthiness tests. *)
Module JSValue.

#[local] Set Warnings "-register-all".

Inductive t :=
| Undefined
| Null
| Bool (b : bool)
| Number (x : number)
| Str (s : string)
| Array (elements : list t)
| Object (properties : list (string * t)).

(** [ToBoolean]. *)
Definition truthy (v : t) : bool :=
  match v with
  | Undefined | Null => false
  | Bool b => b
  | Number x => JSNumber.truthy x
  | Str s => JSString.truthy s
  | Array _ | Object _ => true
  end.

Definition isArray (v : t) : bool :=
  match v with
  | Array _ => true
  | _ => false
  end.

(** [v[key]] for the property names the fetcher reads, none of which a
    boolean, a number, a string or an array carries.  [None] stands for
    the [TypeError] that reading a property of [null] or [undefined]
    throws. *)
Definition get (key : string) (v : t) : option t :=
  match v with
  | Undefined | Null => None
  | Object ps =>
      Some match JSMap.get key ps with
           | Some x => x
           | None => Undefined
           end
  | _ => Some Undefined
  end.

(** [v === s] for a string [s]. *)
Definition is_string (s : string) (v : t) : bool :=
  match v with
  | Str s' => String.eqb s' s
  | _ => false
  end.

(** The elements that [find] walks through. *)
Definition elements (v : t) : list t :=
  match v with
  | Array l => l
  | _ => []
  end.

(** The own properties that an object spread copies. *)
Definition own_properties (v : t) : list (string * t) :=
  match v with
  | Object ps => ps
  | _ => []
  end.

End JSValue.

(** ** [services/alphaVantage.ts]: [fetchEtfProfile] *)

Module Fetch.

(** What the function can throw. *)
Inductive exn :=
| Error (message : string)   (* [throw new Error(message)] *)
| NetworkFailure             (* [fetch] rejects *)
| SyntaxError                (* [response.json()] rejects *)
| TypeError.                 (* a property of [null] or [undefined] is read *)

Definition M (A : Type) : Type := exn + A.

Definition ret {A} (a : A) : M A := inr a.
Definition throw {A} (e : exn) : M A := inl e.
Definition bind {A B} (c : M A) (k : A -> M B) : M B :=
  match c with
  | inl e => inl e
  | inr a => k a
  end.

Notation "x <- c ;; k" := (bind c (fun x => k))
  (at level 100, c at next level, right associativity).
Notation "'check' b 'else_throw' e ;; k" :=
  (if b then k else throw e)
  (at level 100, b at next level, e at next level, right associativity).

(** A delivered HTTP response; [json = None] when the body is not JSON. *)
Record Response := {
  ok : bool;
  status : Z;
  json : option JSValue.t
}.

(** The network answers a URL with a response, or not at all. *)
Definition Network := string -> option Response.

Definition BASE_URL : string := "https://www.alphavantage.co/query".

Definition profileUrl (ticker apiKey : string) : string :=
  BASE_URL ++ "?function=ETF_PROFILE&symbol=" ++ ticker ++ "&apikey=" ++ apiKey.

Definition searchUrl (ticker apiKey : string) : string :=
  BASE_URL ++ "?function=SYMBOL_SEARCH&keywords=" ++ ticker ++ "&apikey=" ++ apiKey.

Definition fetch (net : Network) (url : string) : M Response :=
  match net url with
  | Some r => ret r
  | None => throw NetworkFailure
  end.

Definition response_json (r : Response) : M JSValue.t :=
  match json r with
  | Some v => ret v
  | None => throw SyntaxError
  end.

Definition prop (key : string) (v : JSValue.t) : M JSValue.t :=
  match JSValue.get key v with
  | Some x => ret x
  | None => throw TypeError
  end.

Definition http_error (r : Response) : exn :=
  Error ("HTTP error! status: " ++ NilZero.string_of_int (Z.to_int (status r))).

(** Steps 2 and 3: the profile query and the provider's error signals. *)
Definition fetch_profile (net : Network) (ticker apiKey : string) : M JSValue.t :=
  response <- fetch net (profileUrl ticker apiKey) ;;
  check (ok response) else_throw (http_error response) ;;
  data <- response_json response ;;
  errorMessage <- prop "Error Message" data ;;
  check (negb (JSValue.truthy errorMessage))
    else_throw (Error "Ticker not found or invalid") ;;
  note <- prop "Note" data ;;
  check (negb (JSValue.truthy note))
    else_throw (Error "API Limit Reached (25/day)") ;;
  information <- prop "Information" data ;;
  check (negb (JSValue.truthy information))
    else_throw (Error "Daily Limit Exceeded") ;;
  holdings <- prop "holdings" data ;;
  check (JSValue.truthy holdings && JSValue.isArray holdings)%bool
    else_throw (Error "No holding data available") ;;
  ret data.

(** [bestMatches.find(m => m['1. symbol'] === ticker)]. *)
Fixpoint find_match (ticker : string) (bestMatches : list JSValue.t)
    : M (option JSValue.t) :=
  match bestMatches with
  | [] => ret None
  | m :: rest =>
      symbol <- prop "1. symbol" m ;;
      if JSValue.is_string ticker symbol then ret (Some m)
      else find_match ticker rest
  end.

(** Step 4, the body of the [try] block: the value it leaves in
    [etfName], or the exception it throws.  The search response is
    decoded whatever its status. *)
Definition search_name (net : Network) (ticker apiKey : string) : M JSValue.t :=
  searchRes <- fetch net (searchUrl ticker apiKey) ;;
  searchData <- response_json searchRes ;;
  bestMatches <- prop "bestMatches" searchData ;;
  if (JSValue.truthy bestMatches && JSValue.isArray bestMatches)%bool then
    found <- find_match ticker (JSValue.elements bestMatches) ;;
    match found with
    | Some m =>
        if JSValue.truthy m then prop "2. name" m
        else ret (JSValue.Str ticker)
    | None => ret (JSValue.Str ticker)
    end
  else ret (JSValue.Str ticker).

(** [etfName] after the [try]/[catch]. *)
Definition etf_name (net : Network) (ticker apiKey : string) : JSValue.t :=
  match search_name net ticker apiKey with
  | inr name => name
  | inl _ => JSValue.Str ticker
  end.

(** [{ ...data, name: etfName }]. *)
Definition with_name (data etfName : JSValue.t) : JSValue.t :=
  JSValue.Object (JSMap.set "name" etfName (JSValue.own_properties data)).

Section WithJSON.
Variable JSON_stringify : Cache.CacheEntry JSValue.t -> string.
Variable JSON_parse : string -> option (Cache.CacheEntry JSValue.t).

(** [t_get] and [t_set] are the readings of [Date.now()] in [getCache]
    and in [setCache]. *)
Definition fetchEtfProfile (net : Network) (t_get t_set : Z)
    (ticker apiKey : string) (st : LocalStorage.t)
    : M JSValue.t * LocalStorage.t :=
  let '(cachedData, st1) := Cache.getCache JSON_parse t_get ticker st in
  let miss :=
    match fetch_profile net ticker apiKey with
    | inl e => (throw e, st1)
    | inr data =>
        let finalData := with_name data (etf_name net ticker apiKey) in
        (ret finalData, Cache.setCache JSON_stringify t_set ticker finalData st1)
    end in
  match cachedData with
  | Some d => if JSValue.truthy d then (ret d, st1) else miss
  | None => miss
  end.

End WithJSON.

(** The names that the specification gives to the failures. *)
Inductive ErrorKind :=
| NotFound
| RateLimited
| DailyLimitExceeded
| NoHoldingData
| Transport.

Definition kind_of (e : exn) : option ErrorKind :=
  match e with
  | Error m =>
      if String.eqb m "Ticker not found or invalid" then Some NotFound
      else if String.eqb m "API Limit Reached (25/day)" then Some RateLimited
      else if String.eqb m "Daily Limit Exceeded" then Some DailyLimitExceeded
      else if String.eqb m "No holding data available" then Some NoHoldingData
      else if String.prefix "HTTP error! status: " m then Some Transport
      else None
  | NetworkFailure => Some Transport
  | SyntaxError | TypeError => None
  end.

End Fetch.

(** ** The vocabulary of the fetcher's properties *)

Module FetchSpec.

Import Fetch.

(** [getCache] returns nothing that [fetchEtfProfile] takes for a hit. *)
Definition cache_miss (cached : option JSValue.t) : Prop :=
  match cached with
  | Some d => JSValue.truthy d = false
  | None => True
  end.

(** A decoded body whose properties can be read. *)
Definition readable (data : JSValue.t) : bool :=
  match data with
  | JSValue.Undefined | JSValue.Null => false
  | _ => true
  end.

(** The body carries a truthy value under [field]. *)
Definition signals (field : string) (data : JSValue.t) : bool :=
  match JSValue.get field data with
  | Some v => JSValue.truthy v
  | None => false
  end.

(** The body carries an array under [holdings]. *)
Definition has_holdings (data : JSValue.t) : bool :=
  match JSValue.get "holdings" data with
  | Some v => JSValue.isArray v
  | None => false
  end.

(** How a fetch ends: with one of the five failures of the
    specification, with another exception, or with a profile. *)
Inductive verdict :=
| Fails (kind : ErrorKind)
| FailsUnclassified
| Succeeds.

Definition verdict_of (r : M JSValue.t) : verdict :=
  match r with
  | inr _ => Succeeds
  | inl e =>
      match kind_of e with
      | Some kind => Fails kind
      | None => FailsUnclassified
      end
  end.

(** The classification, in the order of the specification, of what the
    network answers to the profile query. *)
Definition classify (answer : option Response) : verdict :=
  match answer with
  | None => Fails Transport
  | Some response =>
      if negb (ok response) then Fails Transport
      else
        match json response with
        | None => FailsUnclassified
        | Some data =>
            if negb (readable data) then FailsUnclassified
            else if signals "Error Message" data then Fails NotFound
            else if signals "Note" data then Fails RateLimited
            else if signals "Information" data then Fails DailyLimitExceeded
            else if negb (has_holdings data) then Fails NoHoldingData
            else Succeeds
        end
  end.

(** An entry of [bestMatches] that carries the ticker as its symbol. *)
Definition matches (ticker : string) (m : JSValue.t) : bool :=
  match JSValue.get "1. symbol" m with
  | Some v => JSValue.is_string ticker v
  | None => false
  end.

(** The entries of [bestMatches] that [find] can look at: those ahead of
    the first entry that is [null]. *)
Fixpoint readable_prefix (ms : list JSValue.t) : list JSValue.t :=
  match ms with
  | [] => []
  | m :: rest => if readable m then m :: readable_prefix rest else []
  end.

(** The search body lists no entry for the ticker. *)
Definition no_match (ticker : string) (searchData : JSValue.t) : Prop :=
  exists ms,
    JSValue.get "bestMatches" searchData = Some (JSValue.Array ms)
    /\ List.find (matches ticker) (readable_prefix ms) = None.

(** The search body lists [m] as its first entry for the ticker. *)
Definition first_match (ticker : string) (searchData m : JSValue.t) : Prop :=
  exists ms,
    JSValue.get "bestMatches" searchData = Some (JSValue.Array ms)
    /\ List.find (matches ticker) (readable_prefix ms) = Some m.

(** The search body is not of the expected shape: it is [null], or has
    no array under [bestMatches]. *)
Definition malformed (searchData : JSValue.t) : Prop :=
  match JSValue.get "bestMatches" searchData with
  | Some (JSValue.Array _) => False
  | _ => True
  end.

(** [m[key]], [undefined] when [m] has no such property. *)
Definition property (key : string) (m : JSValue.t) : JSValue.t :=
  match JSValue.get key m with
  | Some v => v
  | None => JSValue.Undefined
  end.

End FetchSpec.

(** ** Sample inputs *)

Module Samples.

Definition holding (symbol : option string) (weight : string) : AVHolding.t :=
  {| AVHolding.symbol := symbol;
     AVHolding.description := "";
     AVHolding.weight := weight;
     AVHolding.assets := "" |}.

Definition sector (name weight : string) : AVSector.t :=
  {| AVSector.sector := name; AVSector.weight := weight |}.

Definition profile (symbol : string) (holdings : list AVHolding.t)
    (sectors : list AVSector.t) : EtfProfileData.t :=
  {| EtfProfileData.symbol := symbol;
     EtfProfileData.name := None;
     EtfProfileData.net_assets := "";
     EtfProfileData.portfolio_turnover := "";
     EtfProfileData.net_expense_ratio := "0.002";
     EtfProfileData.dividend_yield := "0.0043";
     EtfProfileData.holdings := Some holdings;
     EtfProfileData.sectors := Some sectors |}.

(** A position whose fetch succeeded; the equity is what the form's
    [parseFloat(newEquity)] returns. *)
Definition position (ticker equity : string) (holdings : list AVHolding.t)
    (sectors : list AVSector.t) : PortfolioItem.t :=
  {| PortfolioItem.id := ticker;
     PortfolioItem.ticker := ticker;
     PortfolioItem.equity := parseFloat equity;
     PortfolioItem.data := Some (profile ticker holdings sectors);
     PortfolioItem.isLoading := false;
     PortfolioItem.error := None |}.

(** A position whose fetch failed. *)
Definition failed (ticker equity message : string) : PortfolioItem.t :=
  {| PortfolioItem.id := ticker;
     PortfolioItem.ticker := ticker;
     PortfolioItem.equity := parseFloat equity;
     PortfolioItem.data := None;
     PortfolioItem.isLoading := false;
     PortfolioItem.error := Some message |}.

(** The scenario of the specification: SPY and QQQ both hold AAPL. *)
Definition spy_qqq : list PortfolioItem.t :=
  [ position "SPY" "10000" [holding (Some "AAPL") "0.07"] [];
    position "QQQ" "5000" [holding (Some "AAPL") "0.10"] [] ].

(** One fund in which a holding and a sector record carry a weight that is
    not a number, and the same fund with that weight read as zero. *)
Definition fund_with_weight (w : string) : list PortfolioItem.t :=
  [ position "VTI" "100"
      [ holding (Some "AAPL") "0.5"; holding (Some "AAPL") w;
        holding (Some "MSFT") "0.2" ]
      [ sector "Tech" "0.5"; sector "Tech" w; sector "Tech" "0.25" ] ].

(** Three positions of 0.1, 0.2 and 0.3 dollars, in two orders. *)
Definition dimes : list PortfolioItem.t :=
  [ position "A" "0.1" [] []; position "B" "0.2" [] [];
    position "C" "0.3" [] [] ].

Definition dimes_reversed : list PortfolioItem.t :=
  [ position "C" "0.3" [] []; position "B" "0.2" [] [];
    position "A" "0.1" [] [] ].

(** A fund that lists a holding under the symbol CASH beside a holding
    without symbol. *)
Definition fund_with_cash_symbol : list PortfolioItem.t :=
  [ position "BIL" "100"
      [ holding (Some "CASH") "0.5"; holding None "0.25" ] [] ].

(** Two funds with placeholder symbols only. *)
Definition funds_with_placeholders : list PortfolioItem.t :=
  [ position "SPY" "1000" [ holding (Some "N/A") "0.25"; holding (Some "AAPL") "0.5" ] [];
    failed "XXX" "500" "Ticker not found or invalid";
    position "QQQ" "2000" [ holding None "0.125"; holding (Some "-") "0.5" ] [] ].

(** A fund whose middle holding has a weight that is not a number. *)
Definition fund_with_nan_bucket : list PortfolioItem.t :=
  [ position "VTI" "100"
      [ holding (Some "A") "0.1"; holding (Some "B") "oops";
        holding (Some "C") "0.5" ] [] ].

(** A fund with two tied holdings below a larger one. *)
Definition fund_with_ties : list PortfolioItem.t :=
  [ position "VTI" "100"
      [ holding (Some "A") "0.25"; holding (Some "B") "0.5";
        holding (Some "C") "0.25"; holding (Some "A") "0" ] [] ].

(** A position that holds nothing and is worth nothing. *)
Definition worthless : list PortfolioItem.t :=
  [ position "ZERO" "0" [ holding (Some "AAPL") "0.5" ] [ sector "Tech" "1" ] ].

(** *** A cache of texts

    A codec for entries whose data is a text without quotes: the entry is
    written as a JSON object with the two properties [data] and
    [timestamp], and read back from exactly that shape. *)

Definition quote : string := String (ascii_of_nat 34) "".

Fixpoint strip_prefix (p s : string) : option string :=
  match p, s with
  | EmptyString, _ => Some s
  | String a p', String b s' => if Ascii.eqb a b then strip_prefix p' s' else None
  | String _ _, EmptyString => None
  end.

(** The text up to the next quote, and the text after that quote. *)
Fixpoint until_quote (s : string) : option (string * string) :=
  match s with
  | EmptyString => None
  | String c r =>
      if Ascii.eqb c (ascii_of_nat 34) then Some (EmptyString, r)
      else
        match until_quote r with
        | Some (a, b) => Some (String c a, b)
        | None => None
        end
  end.

Definition text_stringify (e : Cache.CacheEntry string) : string :=
  "{" ++ quote ++ "data" ++ quote ++ ":" ++ quote ++ Cache.data e ++ quote
  ++ "," ++ quote ++ "timestamp" ++ quote ++ ":"
  ++ NilZero.string_of_int (Z.to_int (Cache.timestamp e)) ++ "}".

Definition text_parse (s : string) : option (Cache.CacheEntry string) :=
  match strip_prefix ("{" ++ quote ++ "data" ++ quote ++ ":" ++ quote) s with
  | Some r1 =>
      match until_quote r1 with
      | Some (d, r2) =>
          match strip_prefix ("," ++ quote ++ "timestamp" ++ quote ++ ":") r2 with
          | Some r3 =>
              match JSNumber.read_digits r3 0 0 with
              | (t, n, "}") =>
                  if Z.eqb n 0 then None
                  else Some {| Cache.data := d; Cache.timestamp := t |}
              | _ => None
              end
          | None => None
          end
      | None => None
      end
  | None => None
  end.

Definition empty_store (quota : nat) : LocalStorage.t :=
  {| LocalStorage.items := ∅; LocalStorage.quota := quota |}.

(** A store that holds the empty string under the key of SPY. *)
Definition store_with_empty_entry : LocalStorage.t :=
  {| LocalStorage.items := {[ Cache.cache_key "SPY" := "" ]};
     LocalStorage.quota := 1000 |}.

(** A store that holds a text that is not an entry under the key of SPY. *)
Definition store_with_garbage : LocalStorage.t :=
  {| LocalStorage.items := {[ Cache.cache_key "SPY" := "<html>" ]};
     LocalStorage.quota := 1000 |}.

(** *** Networks *)

(** A codec that writes nothing useful and reads nothing: with it the
    cache never hits. *)
Definition deaf_stringify (e : Cache.CacheEntry JSValue.t) : string := "{}".
Definition deaf_parse (s : string) : option (Cache.CacheEntry JSValue.t) := None.

Definition profile_body : JSValue.t :=
  JSValue.Object
    [ ("net_expense_ratio", JSValue.Str "0.0009");
      ("holdings",
       JSValue.Array
         [ JSValue.Object
             [ ("symbol", JSValue.Str "AAPL");
               ("description", JSValue.Str "APPLE INC");
               ("weight", JSValue.Str "0.07") ] ]) ].

Definition search_body : JSValue.t :=
  JSValue.Object
    [ ("bestMatches",
       JSValue.Array
         [ JSValue.Object
             [ ("1. symbol", JSValue.Str "SPYD");
               ("2. name", JSValue.Str "SPDR Portfolio S&P 500 High Dividend ETF") ];
           JSValue.Object
             [ ("1. symbol", JSValue.Str "SPY");
               ("2. name", JSValue.Str "SPDR S&P 500 ETF Trust") ] ]) ].

(** A search result that carries the ticker but no name. *)
Definition search_body_without_name : JSValue.t :=
  JSValue.Object
    [ ("bestMatches",
       JSValue.Array [ JSValue.Object [ ("1. symbol", JSValue.Str "SPY") ] ]) ].

(** The provider's answer to a key that has used up its quota. *)
Definition note_body : JSValue.t :=
  JSValue.Object
    [ ("Note", JSValue.Str "Thank you for using Alpha Vantage!") ].

Definition success (body : JSValue.t) : Fetch.Response :=
  {| Fetch.ok := true; Fetch.status := 200; Fetch.json := Some body |}.

(** The network that answers the profile query for SPY with [profile]
    and the search query with [search]. *)
Definition network (profile search : option Fetch.Response) : Fetch.Network :=
  fun url =>
    if String.eqb url (Fetch.profileUrl "SPY" "demo") then profile
    else if String.eqb url (Fetch.searchUrl "SPY" "demo") then search
    else None.

(** A success response whose body is not JSON, such as an empty body. *)
Definition empty_body : Fetch.Response :=
  {| Fetch.ok := true; Fetch.status := 200; Fetch.json := None |}.

End Samples.

(** * The rest of the application

    What surrounds the cache, the fetcher and the derived state: the
    handlers of [App.tsx] that save the API key and build the portfolio,
    and the table logic of [components/AnalysisCharts.tsx]. *)

From Stdlib Require DecimalPos.

(** ** [App.tsx]: the API key *)

Module ApiKey.

Definition STORAGE_KEY : string := "av_api_key".

(** The initial state [localStorage.getItem('av_api_key') || '']. *)
Definition initial (st : LocalStorage.t) : string :=
  match LocalStorage.getItem STORAGE_KEY st with
  | Some s => JSString.or_else s ""
  | None => ""
  end.

(** [handleSaveKey]: the state is set first; [setItem] is not guarded, so
    the store is [None] when it throws. *)
Definition handleSaveKey (key : string) (st : LocalStorage.t)
    : string * option LocalStorage.t :=
  (key, LocalStorage.setItem STORAGE_KEY key st).

End ApiKey.

(** ** [App.tsx]: the portfolio *)

Module Portfolio.

(** [Date.now().toString()]: the decimal digits of an integer. *)
Definition toString (n : Z) : string := NilZero.string_of_int (Z.to_int n).

(** How a submission of the form ends before the fetch. *)
Inductive Submit :=
| Returned                              (* [if (!newTicker || !newEquity) return] *)
| Alerted                               (* [alert("Maximum 50 ETFs allowed.")] *)
| Fetching (newItem : PortfolioItem.t).

(** [handleAddEtf] up to the fetch.  [portfolio] is the state that the
    handler closes over and [now] the reading of [Date.now()]. *)
Definition handleAddEtf (newTicker newEquity : string)
    (portfolio : list PortfolioItem.t) (now : Z) : Submit :=
  if (negb (JSString.truthy newTicker) || negb (JSString.truthy newEquity))%bool
  then Returned
  else if (50 <=? List.length portfolio)%nat then Alerted
  else
    Fetching
      {| PortfolioItem.id := toString now;
         PortfolioItem.ticker := Cache.toUpperCase newTicker;
         PortfolioItem.equity := parseFloat newEquity;
         PortfolioItem.data := None;
         PortfolioItem.isLoading := true;
         PortfolioItem.error := None |}.

(** The state updates of [handleAddEtf], as functions of the previous
    state: [prev => [...prev, newItem]], and the two [prev.map]s that
    follow the fetch. *)
Definition append (newItem : PortfolioItem.t) (prev : list PortfolioItem.t)
    : list PortfolioItem.t :=
  (prev ++ [newItem])%list.

Definition fulfilled (id : string) (data : EtfProfileData.t)
    (prev : list PortfolioItem.t) : list PortfolioItem.t :=
  List.map
    (fun item =>
       if String.eqb (PortfolioItem.id item) id then
         {| PortfolioItem.id := PortfolioItem.id item;
            PortfolioItem.ticker := PortfolioItem.ticker item;
            PortfolioItem.equity := PortfolioItem.equity item;
            PortfolioItem.data := Some data;
            PortfolioItem.isLoading := false;
            PortfolioItem.error := PortfolioItem.error item |}
       else item)
    prev.

(** [message] is [err.message], [None] when the thrown value has none. *)
Definition rejected (id : string) (message : option string)
    (prev : list PortfolioItem.t) : list PortfolioItem.t :=
  List.map
    (fun item =>
       if String.eqb (PortfolioItem.id item) id then
         {| PortfolioItem.id := PortfolioItem.id item;
            PortfolioItem.ticker := PortfolioItem.ticker item;
            PortfolioItem.equity := PortfolioItem.equity item;
            PortfolioItem.data := PortfolioItem.data item;
            PortfolioItem.isLoading := false;
            PortfolioItem.error :=
              Some match message with
                   | Some m => JSString.or_else m "Failed to fetch"
                   | None => "Failed to fetch"%string
                   end |}
       else item)
    prev.

(** [removeEtf]. *)
Definition removeEtf (id : string) (prev : list PortfolioItem.t)
    : list PortfolioItem.t :=
  List.filter (fun item => negb (String.eqb (PortfolioItem.id item) id)) prev.

(** What happens to the portfolio: a submission of the form, the end of a
    fetch, a click on a remove button.  A submission reads the portfolio
    of the latest render, which is the current state once the previous
    event has been handled. *)
Inductive Event :=
| Submitted (newTicker newEquity : string) (now : Z)
| Fulfilled (id : string) (data : EtfProfileData.t)
| Rejected (id : string) (message : option string)
| Removed (id : string).

Definition step (portfolio : list PortfolioItem.t) (e : Event)
    : list PortfolioItem.t :=
  match e with
  | Submitted newTicker newEquity now =>
      match handleAddEtf newTicker newEquity portfolio now with
      | Fetching newItem => append newItem portfolio
      | _ => portfolio
      end
  | Fulfilled id data => fulfilled id data portfolio
  | Rejected id message => rejected id message portfolio
  | Removed id => removeEtf id portfolio
  end.

(** The portfolio after a sequence of events, from the empty initial
    state. *)
Definition run (events : list Event) : list PortfolioItem.t :=
  List.fold_left step events [].

(** The three badges of a row of the portfolio list:
    [item.isLoading &&], [item.error &&], [item.data && !item.error &&]. *)
Definition shows_fetching (item : PortfolioItem.t) : bool :=
  PortfolioItem.isLoading item.

Definition shows_error (item : PortfolioItem.t) : bool :=
  JSString.truthy_opt (PortfolioItem.error item).

Definition shows_ready (item : PortfolioItem.t) : bool :=
  match PortfolioItem.data item with
  | Some _ => negb (JSString.truthy_opt (PortfolioItem.error item))
  | None => false
  end.

Definition badges (item : PortfolioItem.t) : list bool :=
  [shows_fetching item; shows_error item; shows_ready item].

End Portfolio.

Module PortfolioSpec.

(** What the handlers keep true of every position: while it is loading it
    has neither data nor error, and once it is not it has an error that
    shows or data. *)
Definition settled (item : PortfolioItem.t) : Prop :=
  if PortfolioItem.isLoading item
  then PortfolioItem.data item = None /\ PortfolioItem.error item = None
  else JSString.truthy_opt (PortfolioItem.error item) = true
       \/ PortfolioItem.data item <> None.

(** No position of [p] has the identifier [id]. *)
Definition unused (id : string) (p : list PortfolioItem.t) : Prop :=
  forall item, In item p -> PortfolioItem.id item <> id.

End PortfolioSpec.

(** ** [components/AnalysisCharts.tsx]: the table of holdings *)

Module AnalysisCharts.

(** [Array.prototype.slice(start, end)]: a negative index counts from the
    end, and both are clamped to the array. *)
Definition slice {A} (start final : Z) (l : list A) : list A :=
  let len := Z.of_nat (List.length l) in
  let k := if start <? 0 then Z.max (len + start) 0 else Z.min start len in
  let e := if final <? 0 then Z.max (len + final) 0 else Z.min final len in
  List.firstn (Z.to_nat (e - k)) (List.skipn (Z.to_nat k) l).

Definition ITEMS_PER_PAGE : Z := 10.







(** [Math.ceil(filteredHoldings.length / ITEMS_PER_PAGE)].  An array
    length is an integer below 2^32, on which the binary64 quotient by
    ten followed by [Math.ceil] is the ceiling of the exact quotient:
    lengths and page numbers are integers here. *)
Definition totalPages (filtered : list AggregatedHolding.t) : Z :=
  (Z.of_nat (List.length filtered) + ITEMS_PER_PAGE - 1) / ITEMS_PER_PAGE.

Definition displayedHoldings (page : Z) (filtered : list AggregatedHolding.t)
    : list AggregatedHolding.t :=
  slice ((page - 1) * ITEMS_PER_PAGE) (page * ITEMS_PER_PAGE) filtered.

(** [handlePageChange]: the page after a request for [newPage]. *)
Definition handlePageChange (newPage page : Z)
    (filtered : list AggregatedHolding.t) : Z :=
  if ((1 <=? newPage) && (newPage <=? totalPages filtered))%bool
  then newPage else page.

End AnalysisCharts.

Module ChartSpec.

(** The pages of the table, numbered from one. *)
Definition pages (filtered : list AggregatedHolding.t)
    : list (list AggregatedHolding.t) :=
  List.map (fun page => AnalysisCharts.displayedHoldings (Z.of_nat page) filtered)
    (List.seq 1 (Z.to_nat (AnalysisCharts.totalPages filtered))).

(** A string of ASCII characters, on which the two case conversions of
    JavaScript change the twenty-six letters and nothing else. *)
Fixpoint ascii_only (s : string) : bool :=
  match s with
  | EmptyString => true
  | String c r => ((nat_of_ascii c <? 128)%nat && ascii_only r)%bool
  end.

End ChartSpec.

(** ** The vocabulary of the further properties *)

Module SectorSpec.

Local Open Scope float_scope.

(** The sector records that [aggregatedData] visits, in visiting order,
    each with the equity of its position: those of the positions whose
    holdings are visited. *)
Definition visited_of (item : PortfolioItem.t) : list (number * AVSector.t) :=
  match PortfolioItem.data item with
  | Some d =>
      match EtfProfileData.holdings d, EtfProfileData.sectors d with
      | Some _, Some ss =>
          if negb (JSString.truthy_opt (PortfolioItem.error item))
          then List.map (pair (PortfolioItem.equity item)) ss
          else []
      | _, _ => []
      end
  | None => []
  end.

Definition visited (portfolio : list PortfolioItem.t)
    : list (number * AVSector.t) :=
  List.flat_map visited_of portfolio.

Definition contribution (es : number * AVSector.t) : number :=
  fst es * parseFloat (AVSector.weight (snd es)).

(** The contributions to the sector [k], in visiting order. *)
Definition contributions (k : string) (l : list (number * AVSector.t))
    : list number :=
  List.map contribution
    (List.filter (fun es => String.eqb (AVSector.sector (snd es)) k) l).

(** One visited sector record merged into the map. *)
Definition merge (m : JSMap.t number) (es : number * AVSector.t)
    : JSMap.t number :=
  App.sector_step (fst es) m (snd es).

(** What [sectorMap.get(k) || 0] followed by [+] computes from the
    value [a] and the contributions [cs], left to right. *)
Definition accumulate (a : number) (cs : list number) : number :=
  List.fold_left (fun acc c => JSNumber.or_else acc 0 + c) cs a.

(** [a] may stand before [b] in a list sorted by [value], descending. *)
Definition descending (a b : AggregatedSector.t) : Prop :=
  (AggregatedSector.value b <=? AggregatedSector.value a) = true.

(** The rows whose [value] equals [v]. *)
Definition tied (v : number) (l : list AggregatedSector.t)
    : list AggregatedSector.t :=
  List.filter (fun r => AggregatedSector.value r =? v) l.

End SectorSpec.

Module HoldingSpec.

(** The last non-empty string of a list, the empty string when there is
    none. *)
Fixpoint last_non_empty (l : list string) : string :=
  match l with
  | [] => ""
  | s :: r =>
      let t := last_non_empty r in
      if JSString.truthy t then t else s
  end.

(** One step of [text || current.text], from the text of the entry
    ([None] before the key is inserted) and the text of the holding. *)
Definition settle (acc : option string) (d : string) : option string :=
  Some (JSString.or_else d match acc with Some n => n | None => d end).

(** The descriptions and the asset classes under which the visited
    holdings of the key [k] arrive, after the normalisation of the key. *)
Definition descriptions (k : string) (l : list (number * AVHolding.t))
    : list string :=
  List.map (fun eh => snd (App.canonical (snd eh))) (AppSpec.bucket k l).

Definition asset_classes (k : string) (l : list (number * AVHolding.t))
    : list string :=
  List.map (fun eh => AVHolding.assets (snd eh)) (AppSpec.bucket k l).

End HoldingSpec.

Module ParseSpec.


End ParseSpec.

Module StatsSpec.





End StatsSpec.

(** ** Further sample inputs *)

Module Fixtures.

(** A codec that writes every entry as the same text and reads that text
    as [known]: it round-trips on [known] alone. *)
Definition slot_stringify (e : Cache.CacheEntry JSValue.t) : string := "{entry}".

Definition slot_parse (known : Cache.CacheEntry JSValue.t) (s : string)
    : option (Cache.CacheEntry JSValue.t) :=
  if String.eqb s "{entry}" then Some known else None.

(** The profile that the fetch of SPY returns when the search does not
    answer, and its cache entry. *)
Definition spy_profile : JSValue.t :=
  Fetch.with_name Samples.profile_body (JSValue.Str "SPY").

Definition spy_entry : Cache.CacheEntry JSValue.t :=
  {| Cache.data := spy_profile; Cache.timestamp := 1700000000300 |}.

(** A store that holds the entry of SPY, written by [slot_stringify]. *)
Definition store_with_spy : LocalStorage.t :=
  {| LocalStorage.items := {[ Cache.cache_key "SPY" := "{entry}" ]};
     LocalStorage.quota := 1000 |}.

(** The same store once the API key demo is saved. *)
Definition store_with_key : LocalStorage.t :=
  {| LocalStorage.items :=
       <[ ApiKey.STORAGE_KEY := "demo" ]> (LocalStorage.items store_with_spy);
     LocalStorage.quota := 1000 |}.

(** A profile of VTI with one holding. *)
Definition vti_profile : EtfProfileData.t :=
  Samples.profile "VTI" [Samples.holding (Some "MSFT") "0.06"] [].

(** What the form yields for VTI and 2500 dollars at the instant
    1700000000000. *)
Definition vti_pending : PortfolioItem.t :=
  {| PortfolioItem.id := "1700000000000";
     PortfolioItem.ticker := "VTI";
     PortfolioItem.equity := parseFloat "2500";
     PortfolioItem.data := None;
     PortfolioItem.isLoading := true;
     PortfolioItem.error := None |}.



(** Twenty-three rows, worth 23 down to 1. *)
Definition row (n : nat) : AggregatedHolding.t :=
  {| AggregatedHolding.ticker := "T" ++ NilZero.string_of_uint (Nat.to_uint n);
     AggregatedHolding.name := "Fund";
     AggregatedHolding.assetClass := "Equity";
     AggregatedHolding.totalValue := PrimFloat.of_uint63 (Uint63.of_Z (Z.of_nat n));
     AggregatedHolding.percentageOfPortfolio := 0%float |}.

Definition rows : list AggregatedHolding.t :=
  List.map row (List.rev (List.seq 1 23)).

End Fixtures.

(** * Properties *)

(** ** Binary64 arithmetic *)

Module FloatFacts.

Import Binary64.
Local Open Scope float_scope.

Lemma Prim2SF_nan : Prim2SF nan = S754_nan.
Proof. reflexivity. Qed.

Lemma Prim2SF_zero : Prim2SF 0 = S754_zero false.
Proof. reflexivity. Qed.

Lemma add_nan_r (x : float) : x + nan = nan.
Proof.
  apply Prim2SF_inj. rewrite add_spec, Prim2SF_nan.
  now destruct (Prim2SF x).
Qed.

Lemma add_nan_l (x : float) : nan + x = nan.
Proof.
  apply Prim2SF_inj. rewrite add_spec, Prim2SF_nan.
  now destruct (Prim2SF x).
Qed.

Lemma mul_nan_r (x : float) : x * nan = nan.
Proof.
  apply Prim2SF_inj. rewrite mul_spec, Prim2SF_nan.
  now destruct (Prim2SF x).
Qed.

Lemma is_nan_spec (x : float) : is_nan x = SFis_nan (Prim2SF x).
Proof.
  unfold is_nan. rewrite FloatAxioms.eqb_spec. unfold SFeqb.
  destruct (Prim2SF x) as [s|s| |s m e]; simpl; try reflexivity;
    try now destruct s.
  rewrite Z.compare_refl, Pos.compare_cont_refl. now destruct s.
Qed.

Lemma is_nan_true (x : float) : is_nan x = true -> x = nan.
Proof.
  rewrite is_nan_spec. intros H. apply Prim2SF_inj. rewrite Prim2SF_nan.
  now destruct (Prim2SF x).
Qed.

Lemma ltb_zero_spec (x : float) : (0 <? x) = SFpositive (Prim2SF x).
Proof.
  rewrite FloatAxioms.ltb_spec, Prim2SF_zero. unfold SFltb.
  now destruct (Prim2SF x) as [s|s| |s m e]; simpl; try destruct s.
Qed.

Lemma is_zero_spec (x : float) :
  is_zero x = match Prim2SF x with S754_zero _ => true | _ => false end.
Proof.
  unfold is_zero. rewrite FloatAxioms.eqb_spec. change (Prim2SF zero) with (S754_zero false).
  unfold SFeqb.
  now destruct (Prim2SF x) as [s|s| |s m e]; simpl; try destruct s.
Qed.

(** A number that passes the test [x > 0] is not a zero. *)
Lemma positive_not_zero (x : float) : (0 <? x) = true -> is_zero x = false.
Proof.
  rewrite ltb_zero_spec, is_zero_spec. now destruct (Prim2SF x).
Qed.

(** A zero of either sign fails the test [x > 0]. *)
Lemma zero_not_positive (x : float) : is_zero x = true -> (0 <? x) = false.
Proof.
  rewrite ltb_zero_spec, is_zero_spec. now destruct (Prim2SF x).
Qed.

(** *** The order of valid numbers *)

Local Open Scope Z_scope.

Section SF.
Abbreviation fexp := (SpecFloat.fexp prec emax).
Abbreviation bounded := (SpecFloat.bounded prec emax).

Lemma fexp_unfold (k : Z) : fexp k = Z.max (k - 53) (-1074).
Proof. reflexivity. Qed.

Lemma digits2_size (m : positive) : digits2_pos m = Pos.size m.
Proof. induction m; simpl; congruence. Qed.

Lemma digits_upper (m : positive) : Zpos m < 2 ^ Zpos (digits2_pos m).
Proof.
  rewrite digits2_size. pose proof (Pos.size_gt m) as H.
  apply Pos2Z.pos_lt_pos in H. now rewrite Pos2Z.inj_pow in H.
Qed.

Lemma digits_lower (m : positive) : 2 ^ (Zpos (digits2_pos m) - 1) <= Zpos m.
Proof.
  rewrite digits2_size. pose proof (Pos.size_le m) as H.
  apply Pos2Z.pos_le_pos in H. rewrite Pos2Z.inj_pow in H.
  change (Z.pos m~0) with (2 * Z.pos m) in H.
  replace (Zpos (Pos.size m)) with (Z.succ (Zpos (Pos.size m) - 1)) in H by lia.
  rewrite Z.pow_succ_r in H by lia. lia.
Qed.

Lemma bounded_inv (m : positive) (e : Z) :
  bounded m e = true ->
  -1074 <= e <= 971 /\ Zpos (digits2_pos m) <= 53
  /\ (-1074 < e -> Zpos (digits2_pos m) = 53).
Proof.
  unfold SpecFloat.bounded, canonical_mantissa. rewrite fexp_unfold.
  intros H. apply andb_prop in H as [H1 H2].
  apply Z.eqb_eq in H1. apply Z.leb_le in H2.
  change (emax - prec) with 971 in H2. lia.
Qed.

(** The magnitude of a finite value, in units of 2^-1074. *)
Lemma mag_bounds (m : positive) (e : Z) :
  bounded m e = true ->
  0 < Zpos m * 2 ^ (e + 1074) < 2 ^ 2100.
Proof.
  intros H. apply bounded_inv in H as (He & Hd & _).
  pose proof (digits_upper m) as Hu.
  assert (0 < 2 ^ (e + 1074)) by (apply Z.pow_pos_nonneg; lia).
  split; [apply Z.mul_pos_pos; lia|].
  apply Z.lt_le_trans with (2 ^ 53 * 2 ^ (e + 1074)).
  - apply Z.mul_lt_mono_pos_r; [lia|].
    apply Z.lt_le_trans with (1 := Hu). apply Z.pow_le_mono_r; lia.
  - rewrite <- Z.pow_add_r by lia. apply Z.pow_le_mono_r; lia.
Qed.

Lemma mag_compare (m1 m2 : positive) (e1 e2 : Z) :
  bounded m1 e1 = true -> bounded m2 e2 = true ->
  (Zpos m1 * 2 ^ (e1 + 1074) ?= Zpos m2 * 2 ^ (e2 + 1074)) =
  match e1 ?= e2 with
  | Lt => Lt
  | Gt => Gt
  | Eq => Pos.compare_cont Eq m1 m2
  end.
Proof.
  intros H1 H2.
  apply bounded_inv in H1 as (He1 & Hd1 & Hn1).
  apply bounded_inv in H2 as (He2 & Hd2 & Hn2).
  pose proof (digits_upper m1) as Hu1. pose proof (digits_lower m1) as Hl1.
  pose proof (digits_upper m2) as Hu2. pose proof (digits_lower m2) as Hl2.
  assert (Hstep : forall ma mb ea eb,
    ea < eb -> -1074 <= ea ->
    Zpos ma < 2 ^ 53 -> 2 ^ 52 <= Zpos mb ->
    Zpos ma * 2 ^ (ea + 1074) < Zpos mb * 2 ^ (eb + 1074)).
  { intros ma mb ea eb Hlt Hea Ha Hb.
    replace (eb + 1074) with ((ea + 1074) + (eb - ea)) by lia.
    rewrite (Z.pow_add_r 2 (ea + 1074) (eb - ea)) by lia.
    assert (0 < 2 ^ (ea + 1074)) by (apply Z.pow_pos_nonneg; lia).
    assert (2 ^ 1 <= 2 ^ (eb - ea)) by (apply Z.pow_le_mono_r; lia).
    change (2 ^ 1) with 2 in *.
    apply Z.lt_le_trans with (2 ^ 53 * 2 ^ (ea + 1074)).
    - apply Z.mul_lt_mono_pos_r; lia.
    - rewrite (Z.mul_comm (2 ^ (ea + 1074))), Z.mul_assoc.
      apply Z.mul_le_mono_nonneg_r; [lia|].
      change (2 ^ 53) with (2 ^ 52 * 2).
      apply Z.mul_le_mono_nonneg; lia. }
  assert (Hm : forall m, Zpos (digits2_pos m) <= 53 -> Zpos m < 2 ^ 53).
  { intros m Hd. apply Z.lt_le_trans with (1 := digits_upper m).
    apply Z.pow_le_mono_r; lia. }
  destruct (Z.compare_spec e1 e2) as [Heq | Hlt | Hgt].
  - subst e2. rewrite <- Zmult_compare_compat_r; [reflexivity|].
    apply Z.lt_gt, Z.pow_pos_nonneg; lia.
  - apply Z.compare_lt_iff. apply Hstep; auto; try lia.
    rewrite Hn2 in Hl2 by lia. exact Hl2.
  - apply Z.compare_gt_iff. apply Hstep; auto; try lia.
    rewrite Hn1 in Hl1 by lia. exact Hl1.
Qed.

Abbreviation valid := (SpecFloat.valid_binary prec emax).

Lemma SFval_finite_bounds (s : bool) (m : positive) (e : Z) :
  bounded m e = true ->
  - 2 ^ 2100 < SFval (S754_finite s m e) < 2 ^ 2100
  /\ (if s then SFval (S754_finite s m e) < 0 else 0 < SFval (S754_finite s m e)).
Proof.
  intros H. apply mag_bounds in H. unfold SFval, cond_Zopp.
  destruct s; lia.
Qed.

Ltac cmp_solve :=
  f_equal; symmetry;
  first [ apply Z.compare_eq_iff; lia
        | apply Z.compare_lt_iff; lia
        | apply Z.compare_gt_iff; lia ].

(** On valid numbers other than [NaN], comparison is comparison of
    positions on the number line. *)
Lemma SFcompare_val (x y : spec_float) :
  valid x = true -> valid y = true ->
  SFis_nan x = false -> SFis_nan y = false ->
  SFcompare x y = Some (SFval x ?= SFval y).
Proof.
  assert (Hpow : 0 < 2 ^ 2100) by (apply Z.pow_pos_nonneg; lia).
  intros Vx Vy Nx Ny.
  destruct x as [sx|sx| |sx mx ex], y as [sy|sy| |sy my ey];
    try discriminate; simpl in Vx, Vy;
    try pose proof (SFval_finite_bounds sx mx ex Vx) as [Hx1 Hx2];
    try pose proof (SFval_finite_bounds sy my ey Vy) as [Hy1 Hy2].
  9: { pose proof (mag_bounds mx ex Vx) as Hx.
       pose proof (mag_bounds my ey Vy) as Hy.
       pose proof (mag_compare mx my ex ey Vx Vy) as Hc.
       unfold SFcompare, SFval, cond_Zopp. f_equal.
       destruct sx, sy.
       + rewrite Z.compare_opp.
         rewrite (Z.compare_antisym (Zpos mx * 2 ^ (ex + 1074))), Hc.
         now destruct (ex ?= ey).
       + symmetry. apply Z.compare_lt_iff. lia.
       + symmetry. apply Z.compare_gt_iff. lia.
       + rewrite Hc. reflexivity. }
  all: try remember (SFval (S754_finite sx mx ex)) as vx.
  all: try remember (SFval (S754_finite sy my ey)) as vy.
  all: cbn [SFcompare SFval]; unfold cond_Zopp.
  all: try destruct sx; try destruct sy; cmp_solve.
Qed.

(** *** Rounding never loses the sign of a non-zero result *)

Lemma shr_1_m (mrs : shr_record) :
  0 <= shr_m mrs -> shr_m (shr_1 mrs) = shr_m mrs / 2.
Proof.
  destruct mrs as [m r s]. simpl. intros Hm.
  rewrite <- Z.div2_div.
  destruct m as [|[p|p|]|p]; try reflexivity; lia.
Qed.

Lemma iter_pos_shr_m (p : positive) (mrs : shr_record) :
  0 <= shr_m mrs ->
  shr_m (SpecFloat.iter_pos shr_1 p mrs) = shr_m mrs / 2 ^ Zpos p.
Proof.
  revert mrs.
  induction p as [p IH | p IH |]; intros mrs Hm; simpl SpecFloat.iter_pos.
  - assert (Hp : 0 < 2 ^ Zpos p) by (apply Z.pow_pos_nonneg; lia).
    assert (H1 : 0 <= shr_m (shr_1 mrs))
      by (rewrite shr_1_m by assumption; apply Z.div_pos; lia).
    assert (H2 : 0 <= shr_m (SpecFloat.iter_pos shr_1 p (shr_1 mrs)))
      by (rewrite IH by assumption; apply Z.div_pos; lia).
    rewrite IH, IH, shr_1_m by assumption.
    rewrite !Z.div_div by lia.
    f_equal. rewrite Pos2Z.inj_xI.
    rewrite Z.add_comm, Z.pow_add_r, Z.pow_1_r by lia.
    replace (2 * Zpos p) with (Zpos p + Zpos p) by lia.
    rewrite Z.pow_add_r by lia. ring.
  - assert (Hp : 0 < 2 ^ Zpos p) by (apply Z.pow_pos_nonneg; lia).
    assert (H2 : 0 <= shr_m (SpecFloat.iter_pos shr_1 p mrs))
      by (rewrite IH by assumption; apply Z.div_pos; lia).
    rewrite IH, IH by assumption.
    rewrite Z.div_div by lia.
    f_equal. rewrite (Pos2Z.inj_xO p).
    replace (2 * Zpos p) with (Zpos p + Zpos p) by lia.
    rewrite Z.pow_add_r by lia. ring.
  - rewrite shr_1_m by assumption. reflexivity.
Qed.

Lemma shr_spec (mrs : shr_record) (e n : Z) :
  0 <= shr_m mrs ->
  shr_m (fst (shr mrs e n)) = shr_m mrs / 2 ^ Z.max 0 n
  /\ snd (shr mrs e n) = e + Z.max 0 n.
Proof.
  intros Hm. destruct n as [|p|p]; simpl.
  - rewrite Z.div_1_r. split; [reflexivity | lia].
  - rewrite iter_pos_shr_m by assumption. split; reflexivity.
  - rewrite Z.div_1_r. split; [reflexivity | lia].
Qed.

Lemma round_nearest_even_ge (m : Z) (l : location) :
  m <= round_nearest_even m l.
Proof.
  unfold round_nearest_even.
  destruct l as [|[]]; try destruct (Z.even m); lia.
Qed.

(** Shifting right by [n] keeps a positive mantissa positive when [n]
    is below its number of digits. *)
Lemma shifted_positive (m : positive) (n : Z) :
  n <= Zpos (digits2_pos m) - 1 -> 0 < Zpos m / 2 ^ Z.max 0 n.
Proof.
  intros Hn. pose proof (digits_lower m) as Hl.
  apply Z.div_str_pos. split; [apply Z.pow_pos_nonneg; lia|].
  apply Z.le_trans with (2 := Hl). apply Z.pow_le_mono_r; lia.
Qed.

Lemma binary_round_aux_sign (sx : bool) (mz : positive) (ez : Z) :
  -1074 <= ez -> ez <= fexp (Zpos (digits2_pos mz) + ez) ->
  match binary_round_aux prec emax sx (Zpos mz) ez loc_Exact with
  | S754_finite s _ _ | S754_infinity s => s = sx
  | _ => False
  end.
Proof.
  intros He Hf. unfold binary_round_aux, shr_fexp.
  change (Zdigits2 (Zpos mz)) with (Zpos (digits2_pos mz)).
  set (n1 := fexp (Zpos (digits2_pos mz) + ez) - ez).
  change (shr_record_of_loc (Zpos mz) loc_Exact)
    with {| shr_m := Zpos mz; shr_r := false; shr_s := false |}.
  pose proof (shr_spec {| shr_m := Zpos mz; shr_r := false; shr_s := false |}
                ez n1 ltac:(simpl; lia)) as [Hm1 He1].
  destruct (shr _ ez n1) as [mrs1 e1]. simpl in Hm1, He1.
  assert (Hpos1 : 0 < shr_m mrs1).
  { rewrite Hm1. apply shifted_positive. unfold n1.
    rewrite fexp_unfold. pose proof (Pos2Z.is_pos (digits2_pos mz)). lia. }
  pose proof (round_nearest_even_ge (shr_m mrs1) (loc_of_shr_record mrs1)) as Hr.
  destruct (round_nearest_even (shr_m mrs1) (loc_of_shr_record mrs1))
    as [|m2|m2] eqn:E2; try lia.
  change (Zdigits2 (Zpos m2)) with (Zpos (digits2_pos m2)).
  set (n2 := fexp (Zpos (digits2_pos m2) + e1) - e1).
  change (shr_record_of_loc (Zpos m2) loc_Exact)
    with {| shr_m := Zpos m2; shr_r := false; shr_s := false |}.
  pose proof (shr_spec {| shr_m := Zpos m2; shr_r := false; shr_s := false |}
                e1 n2 ltac:(simpl; lia)) as [Hm2 He2].
  destruct (shr _ e1 n2) as [mrs2 e2]. simpl in Hm2, He2.
  assert (Hpos2 : 0 < shr_m mrs2).
  { rewrite Hm2. apply shifted_positive. unfold n2.
    rewrite fexp_unfold. pose proof (Pos2Z.is_pos (digits2_pos m2)).
    unfold n1 in He1. rewrite fexp_unfold in He1. lia. }
  destruct (shr_m mrs2); try lia.
  now destruct (Z.leb _ _).
Qed.

Lemma iter_xO_spec (m d : positive) :
  Zpos (Pos.iter xO m d) = Zpos m * 2 ^ Zpos d
  /\ Zpos (digits2_pos (Pos.iter xO m d)) = Zpos (digits2_pos m) + Zpos d.
Proof.
  induction d as [|d [IH1 IH2]] using Pos.peano_ind.
  - simpl. split; lia.
  - rewrite Pos.iter_succ. cbn [digits2_pos].
    rewrite (Pos2Z.inj_xO (Pos.iter xO m d)), IH1.
    rewrite (Pos2Z.inj_succ (digits2_pos _)), IH2.
    rewrite (Pos2Z.inj_succ d), Z.pow_succ_r by lia. split; lia.
Qed.

Lemma shl_align_spec (mx : positive) (ex ex' : Z) :
  snd (shl_align mx ex ex') = Z.min ex ex'
  /\ Zpos (fst (shl_align mx ex ex')) = Zpos mx * 2 ^ (ex - Z.min ex ex')
  /\ Zpos (digits2_pos (fst (shl_align mx ex ex')))
     = Zpos (digits2_pos mx) + (ex - Z.min ex ex').
Proof.
  unfold shl_align. destruct (ex' - ex) as [|d|d] eqn:E; cbn [fst snd].
  - replace (Z.min ex ex') with ex by lia.
    rewrite Z.sub_diag, Z.pow_0_r. lia.
  - replace (Z.min ex ex') with ex by lia.
    rewrite Z.sub_diag, Z.pow_0_r. lia.
  - replace (Z.min ex ex') with ex' by lia.
    replace (ex - ex') with (Zpos d) by lia.
    pose proof (iter_xO_spec mx d). lia.
Qed.

Lemma binary_round_sign (sx : bool) (mx : positive) (ex : Z) :
  -1074 <= ex ->
  match binary_round prec emax sx mx ex with
  | S754_finite s _ _ | S754_infinity s => s = sx
  | _ => False
  end.
Proof.
  intros He. unfold binary_round.
  pose proof (shl_align_spec mx ex (fexp (Zpos (digits2_pos mx) + ex)))
    as (H1 & _ & H3).
  destruct (shl_align mx ex _) as [mz ez]. cbn [fst snd] in H1, H3.
  rewrite fexp_unfold in H1, H3.
  apply binary_round_aux_sign; [lia|].
  rewrite H3, !fexp_unfold. lia.
Qed.

Lemma binary_round_positive (sx : bool) (mx : positive) (ex : Z) :
  -1074 <= ex ->
  SFpositive (binary_round prec emax sx mx ex) = negb sx.
Proof.
  intros He. pose proof (binary_round_sign sx mx ex He) as H.
  destruct (binary_round prec emax sx mx ex) as [s|s| |s m e];
    try contradiction; subst s; now destruct sx.
Qed.

(** The test [a - b > 0] on valid numbers other than [NaN] holds exactly
    when [b] lies strictly below [a]: a difference of distinct numbers
    never rounds to zero, and the difference of two equal infinities,
    which is [NaN], is not positive. *)
Lemma SFsub_positive (a b : spec_float) :
  valid a = true -> valid b = true ->
  SFis_nan a = false -> SFis_nan b = false ->
  SFpositive (SF64sub a b) = (SFval b <? SFval a).
Proof.
  assert (Hpow : 0 < 2 ^ 2100) by (apply Z.pow_pos_nonneg; lia).
  intros Va Vb Na Nb.
  destruct a as [sa|sa| |sa ma ea], b as [sb|sb| |sb mb eb];
    try discriminate; simpl in Va, Vb;
    try pose proof (SFval_finite_bounds sa ma ea Va) as [Ha1 Ha2];
    try pose proof (SFval_finite_bounds sb mb eb Vb) as [Hb1 Hb2].
  9: { unfold SF64sub, SFsub. set (ez := Z.min ea eb).
       pose proof (bounded_inv ma ea Va) as (Hea & _).
       pose proof (bounded_inv mb eb Vb) as (Heb & _).
       pose proof (shl_align_spec ma ea ez) as (_ & Ha & _).
       pose proof (shl_align_spec mb eb ez) as (_ & Hb & _).
       replace (Z.min ea ez) with ez in Ha by lia.
       replace (Z.min eb ez) with ez in Hb by lia.
       set (a' := Zpos (fst (shl_align ma ea ez))) in *.
       set (b' := Zpos (fst (shl_align mb eb ez))) in *.
       assert (Hu : 0 < 2 ^ (ez + 1074)) by (apply Z.pow_pos_nonneg; lia).
       assert (Hd : SFval (S754_finite sa ma ea) - SFval (S754_finite sb mb eb)
                    = (cond_Zopp sa a' - cond_Zopp sb b') * 2 ^ (ez + 1074)).
       { unfold SFval.
         replace (ea + 1074) with ((ea - ez) + (ez + 1074)) by lia.
         replace (eb + 1074) with ((eb - ez) + (ez + 1074)) by lia.
         rewrite (Z.pow_add_r 2 (ea - ez)), (Z.pow_add_r 2 (eb - ez)) by lia.
         rewrite !Z.mul_assoc, <- Ha, <- Hb.
         unfold cond_Zopp. destruct sa, sb; ring. }
       remember (SFval (S754_finite sa ma ea)) as va.
       remember (SFval (S754_finite sb mb eb)) as vb.
       destruct (cond_Zopp sa a' - cond_Zopp sb b') as [|d|d] eqn:ED;
         unfold binary_normalize.
       - symmetry. apply Z.ltb_ge. lia.
       - rewrite binary_round_positive by lia. symmetry. apply Z.ltb_lt.
         pose proof (Pos2Z.is_pos d). nia.
       - rewrite binary_round_positive by lia. symmetry. apply Z.ltb_ge.
         pose proof (Pos2Z.neg_is_neg d). nia. }
  all: try remember (SFval (S754_finite sa ma ea)) as va.
  all: try remember (SFval (S754_finite sb mb eb)) as vb.
  all: unfold SF64sub; cbn [SFsub SFval SFpositive]; unfold cond_Zopp.
  all: try destruct sa; try destruct sb; cbn [negb SFpositive]; symmetry.
  all: first [apply Z.ltb_lt; lia | apply Z.ltb_ge; lia].
Qed.
End SF.

(** *** The same facts on numbers *)

Local Open Scope float_scope.

Lemma Prim2SF_not_nan (x : float) :
  is_nan x = false -> SFis_nan (Prim2SF x) = false.
Proof. now rewrite is_nan_spec. Qed.

(** [a - b > 0] holds exactly when [b] lies strictly below [a]. *)
Lemma sub_positive (a b : float) :
  is_nan a = false -> is_nan b = false ->
  (0 <? a - b) = (val b <? val a)%Z.
Proof.
  intros Ha Hb. rewrite ltb_zero_spec, FloatAxioms.sub_spec.
  apply SFsub_positive; auto using Prim2SF_valid, Prim2SF_not_nan.
Qed.

Lemma compare_val (a b : float) :
  is_nan a = false -> is_nan b = false ->
  SFcompare (Prim2SF a) (Prim2SF b) = Some (val a ?= val b)%Z.
Proof.
  intros Ha Hb.
  apply SFcompare_val; auto using Prim2SF_valid, Prim2SF_not_nan.
Qed.

Lemma ltb_val (a b : float) :
  is_nan a = false -> is_nan b = false -> (a <? b) = (val a <? val b)%Z.
Proof.
  intros Ha Hb. rewrite FloatAxioms.ltb_spec. unfold SFltb, Z.ltb.
  now rewrite compare_val.
Qed.

Lemma leb_val (a b : float) :
  is_nan a = false -> is_nan b = false -> (a <=? b) = (val a <=? val b)%Z.
Proof.
  intros Ha Hb. rewrite FloatAxioms.leb_spec. unfold SFleb, Z.leb.
  rewrite compare_val by assumption. now destruct (val a ?= val b)%Z.
Qed.

Lemma eqb_val (a b : float) :
  is_nan a = false -> is_nan b = false -> (a =? b) = (val a =? val b)%Z.
Proof.
  intros Ha Hb. rewrite FloatAxioms.eqb_spec, Z.eqb_compare. unfold SFeqb.
  now rewrite compare_val.
Qed.

End FloatFacts.

(** ** The insertion-ordered map *)

Module JSMapFacts.

Section WithValue.
Context {V : Type}.
Implicit Types (m : JSMap.t V) (k : string) (v : V).

Lemma get_set_eq k v m : JSMap.get k (JSMap.set k v m) = Some v.
Proof.
  induction m as [|[k' v'] r IH]; simpl.
  - now rewrite String.eqb_refl.
  - destruct (String.eqb_spec k k') as [->|Hne]; simpl.
    + now rewrite String.eqb_refl.
    + destruct (String.eqb_spec k k'); [contradiction | exact IH].
Qed.

Lemma get_set_ne k k' v m :
  k <> k' -> JSMap.get k (JSMap.set k' v m) = JSMap.get k m.
Proof.
  intros Hne. induction m as [|[k0 v0] r IH]; simpl.
  - destruct (String.eqb_spec k k'); [contradiction | reflexivity].
  - destruct (String.eqb_spec k' k0) as [->|Hne0]; simpl.
    + destruct (String.eqb_spec k k0); [contradiction | reflexivity].
    + destruct (String.eqb_spec k k0); [reflexivity | exact IH].
Qed.

Lemma get_None k m : JSMap.get k m = None <-> ~ In k (JSMap.keys m).
Proof.
  induction m as [|[k' v'] r IH]; simpl.
  - tauto.
  - destruct (String.eqb_spec k k') as [->|Hne].
    + split; [discriminate | tauto].
    + rewrite IH. split; [intros H [E|I]; congruence | tauto].
Qed.

Lemma get_Some_In k v m : JSMap.get k m = Some v -> In (k, v) m.
Proof.
  induction m as [|[k' v'] r IH]; simpl; [discriminate|].
  destruct (String.eqb_spec k k') as [->|Hne].
  - intros [= ->]. now left.
  - intros H. right. now apply IH.
Qed.

Lemma In_get k v m :
  List.NoDup (JSMap.keys m) -> In (k, v) m -> JSMap.get k m = Some v.
Proof.
  induction m as [|[k' v'] r IH]; simpl; [tauto|].
  intros Hnd [[= -> ->]|Hin].
  - now rewrite String.eqb_refl.
  - inversion Hnd as [|? ? Hni Hnd']; subst.
    destruct (String.eqb_spec k k') as [->|Hne].
    + exfalso. apply Hni. change k' with (fst (k', v)). now apply in_map.
    + now apply IH.
Qed.

(** [set] keeps the order of the keys and puts a new key last. *)
Lemma keys_set k v m :
  JSMap.keys (JSMap.set k v m) =
  match JSMap.get k m with
  | Some _ => JSMap.keys m
  | None => (JSMap.keys m ++ [k])%list
  end.
Proof.
  induction m as [|[k' v'] r IH]; simpl; [reflexivity|].
  destruct (String.eqb_spec k k') as [->|Hne]; simpl; [reflexivity|].
  rewrite IH. now destruct (JSMap.get k r).
Qed.

Lemma NoDup_keys_set k v m :
  List.NoDup (JSMap.keys m) -> List.NoDup (JSMap.keys (JSMap.set k v m)).
Proof.
  intros Hnd. rewrite keys_set.
  destruct (JSMap.get k m) eqn:E; [exact Hnd|].
  apply get_None in E.
  apply List.NoDup_app; [exact Hnd | repeat constructor; simpl; tauto |].
  intros x Hx [<-|[]]. contradiction.
Qed.

End WithValue.

End JSMapFacts.

(** ** Sorting with a comparison function *)

Module SortFacts.

Local Open Scope float_scope.

Section Sorting.
Context {A : Type}.
Variable comparefn : A -> A -> number.

Lemma insert_perm (a : A) (l : list A) :
  Permutation (JSArray.insert comparefn a l) (a :: l).
Proof.
  induction l as [|b r IH]; simpl; [reflexivity|].
  destruct (0 <? comparefn a b); [|reflexivity].
  rewrite IH. apply perm_swap.
Qed.

Lemma sort_perm (l : list A) : Permutation (JSArray.sort comparefn l) l.
Proof.
  induction l as [|a r IH]; simpl; [reflexivity|].
  rewrite insert_perm. now constructor.
Qed.

Lemma sort_In (a : A) (l : list A) : In a (JSArray.sort comparefn l) <-> In a l.
Proof.
  split; apply Permutation_in; [|symmetry]; apply sort_perm.
Qed.

Lemma sort_Forall (P : A -> Prop) (l : list A) :
  Forall P l -> Forall P (JSArray.sort comparefn l).
Proof.
  apply Permutation_Forall. symmetry. apply sort_perm.
Qed.

(** *** When the comparison function follows a position on a line *)

Variable pos : A -> Z.

Abbreviation agrees := (JSArray.agrees comparefn pos).

Lemma agrees_perm (l l' : list A) : Permutation l l' -> agrees l -> agrees l'.
Proof.
  intros Hp H a b Ha Hb.
  apply H; eapply Permutation_in; try eassumption; now symmetry.
Qed.

Lemma agrees_tail (a : A) (l : list A) : agrees (a :: l) -> agrees l.
Proof. intros H x y Hx Hy. apply H; now right. Qed.

Lemma insert_sorted (a : A) (l : list A) :
  agrees (a :: l) ->
  StronglySorted (fun x y => (pos y <= pos x)%Z) l ->
  StronglySorted (fun x y => (pos y <= pos x)%Z) (JSArray.insert comparefn a l).
Proof.
  intros Hag Hs. induction Hs as [|b r Hs IH Hb]; simpl.
  - repeat constructor.
  - rewrite (Hag a b) by (simpl; auto).
    destruct (Z.ltb_spec (pos a) (pos b)) as [Hlt|Hge].
    + constructor.
      * apply IH. intros x y Hx Hy. apply Hag; simpl in *; tauto.
      * eapply Permutation_Forall; [symmetry; apply insert_perm|].
        constructor; [lia | exact Hb].
    + constructor; [now constructor|].
      constructor; [exact Hge|].
      eapply List.Forall_impl; [|exact Hb]. simpl. intros x Hx. lia.
Qed.

Lemma sort_sorted (l : list A) :
  agrees l ->
  StronglySorted (fun x y => (pos y <= pos x)%Z) (JSArray.sort comparefn l).
Proof.
  induction l as [|a r IH]; intros Hag; simpl; [constructor|].
  apply insert_sorted.
  - eapply agrees_perm; [|exact Hag]. constructor. symmetry. apply sort_perm.
  - apply IH. eapply agrees_tail, Hag.
Qed.

(** Stability: among the elements at one position the order of the input
    is kept. *)
Lemma insert_stable (v : Z) (a : A) (l : list A) :
  agrees (a :: l) ->
  List.filter (fun x => pos x =? v)%Z (JSArray.insert comparefn a l) =
  List.filter (fun x => pos x =? v)%Z (a :: l).
Proof.
  intros Hag. induction l as [|b r IH]; simpl; [reflexivity|].
  rewrite (Hag a b) by (simpl; auto).
  assert (Hag' : agrees (a :: r))
    by (intros x y Hx Hy; apply Hag; simpl in *; tauto).
  specialize (IH Hag'). simpl in IH.
  destruct (Z.ltb_spec (pos a) (pos b)) as [Hlt|Hge]; [|reflexivity].
  simpl. rewrite IH.
  destruct (Z.eqb_spec (pos a) v), (Z.eqb_spec (pos b) v);
    try reflexivity; lia.
Qed.

Lemma sort_stable (v : Z) (l : list A) :
  agrees l ->
  List.filter (fun x => pos x =? v)%Z (JSArray.sort comparefn l) =
  List.filter (fun x => pos x =? v)%Z l.
Proof.
  induction l as [|a r IH]; intros Hag; simpl; [reflexivity|].
  rewrite insert_stable.
  - simpl. rewrite IH by (eapply agrees_tail, Hag). reflexivity.
  - eapply agrees_perm; [|exact Hag]. constructor. symmetry. apply sort_perm.
Qed.

End Sorting.

End SortFacts.

(** ** [stats] *)

Module StatsFacts.

Import App.
Local Open Scope float_scope.

Lemma stats_step_skip (a : StatsAcc) (item : PortfolioItem.t) :
  counts_in_stats item = false -> stats_step a item = a.
Proof.
  unfold counts_in_stats, stats_step.
  destruct (PortfolioItem.data item); [|reflexivity].
  now intros ->.
Qed.

Lemma stats_step_counts (a : StatsAcc) (item : PortfolioItem.t) :
  counts_in_stats item = true ->
  acc_totalEquity (stats_step a item)
    = acc_totalEquity a + PortfolioItem.equity item
  /\ acc_validItemsCount (stats_step a item) = N.succ (acc_validItemsCount a).
Proof.
  unfold counts_in_stats, stats_step.
  destruct (PortfolioItem.data item); [|discriminate].
  intros ->. split; reflexivity.
Qed.

(** The loop only sees the positions that pass its test. *)
Lemma stats_fold_filter (p : list PortfolioItem.t) (a : StatsAcc) :
  List.fold_left stats_step p a
  = List.fold_left stats_step (List.filter counts_in_stats p) a.
Proof.
  revert a. induction p as [|item r IH]; intros a; simpl; [reflexivity|].
  destruct (counts_in_stats item) eqn:E; simpl.
  - apply IH.
  - rewrite stats_step_skip by assumption. apply IH.
Qed.

Lemma totalEquity_fold (p : list PortfolioItem.t) (a : StatsAcc) :
  acc_totalEquity (List.fold_left stats_step p a)
  = List.fold_left PrimFloat.add
      (List.map PortfolioItem.equity (List.filter counts_in_stats p))
      (acc_totalEquity a).
Proof.
  revert a. induction p as [|item r IH]; intros a; simpl; [reflexivity|].
  destruct (counts_in_stats item) eqn:E; simpl.
  - rewrite IH. now destruct (stats_step_counts a item E) as [-> _].
  - rewrite stats_step_skip by assumption. apply IH.
Qed.

Lemma count_fold (p : list PortfolioItem.t) (a : StatsAcc) :
  acc_validItemsCount (List.fold_left stats_step p a)
  = (acc_validItemsCount a
     + N.of_nat (List.length (List.filter counts_in_stats p)))%N.
Proof.
  revert a. induction p as [|item r IH]; intros a; simpl; [lia|].
  destruct (counts_in_stats item) eqn:E; simpl.
  - rewrite IH. destruct (stats_step_counts a item E) as [_ ->]. lia.
  - rewrite stats_step_skip by assumption. apply IH.
Qed.

Lemma stats_with_filter (div : number -> number -> number)
    (p : list PortfolioItem.t) :
  stats_with div p = stats_with div (List.filter counts_in_stats p).
Proof.
  unfold stats_with. rewrite stats_fold_filter.
  replace (List.filter counts_in_stats (List.filter counts_in_stats p))
    with (List.filter counts_in_stats p); [reflexivity|].
  induction p as [|item r IH]; simpl; [reflexivity|].
  destruct (counts_in_stats item) eqn:E; simpl; [|exact IH].
  rewrite E. now f_equal.
Qed.

(** C4, as amended.  For every position set, [totalEquity] is the sum,
    taken left to right in insertion order and rounded to binary64 at each
    step, of the equities of exactly the positions that have a profile and
    no error message; a position that does not contribute can be inserted,
    removed or moved without changing any statistic; and [hasData] holds
    exactly when some position contributes. *)
Theorem totalEquity_sums_contributing (p : list PortfolioItem.t) :
  totalEquity (stats p)
    = AppSpec.sum (List.map PortfolioItem.equity (List.filter counts_in_stats p))
  /\ (forall q, List.filter counts_in_stats q = List.filter counts_in_stats p ->
        stats q = stats p)
  /\ (hasData (stats p) = true <->
        exists item, In item p /\ counts_in_stats item = true).
Proof.
  split; [|split].
  - unfold stats, stats_with, AppSpec.sum. cbn [totalEquity].
    now rewrite totalEquity_fold.
  - intros q Hq. unfold stats.
    now rewrite (stats_with_filter _ q), (stats_with_filter _ p), Hq.
  - unfold stats, stats_with. cbn [hasData]. rewrite count_fold. simpl.
    rewrite N.ltb_lt. split.
    + intros H. destruct (List.filter counts_in_stats p) as [|item r] eqn:E;
        [simpl in H; lia|].
      assert (Hin : In item (List.filter counts_in_stats p))
        by (rewrite E; now left).
      apply filter_In in Hin. now exists item.
    + intros (item & Hin & Hc).
      assert (Hf : In item (List.filter counts_in_stats p))
        by (apply filter_In; auto).
      destruct (List.filter counts_in_stats p); [contradiction|simpl; lia].
Qed.

(** C4 at work: two funds worth 1000 and 2000 around a position whose
    fetch failed. *)
Lemma totalEquity_sums_contributing_witness :
  totalEquity (stats Samples.funds_with_placeholders) = 3000
  /\ hasData (stats Samples.funds_with_placeholders) = true.
Proof.
  destruct (totalEquity_sums_contributing Samples.funds_with_placeholders)
    as (Hsum & _ & Hdata).
  split; [rewrite Hsum; reflexivity|].
  apply Hdata. eexists. split; [left; reflexivity | reflexivity].
Defined.

(** C4, as stated, fails: the same three positions inserted in two orders
    have two different [totalEquity]. *)
Lemma totalEquity_depends_on_order :
  Permutation Samples.dimes Samples.dimes_reversed
  /\ totalEquity (stats Samples.dimes)
     <> totalEquity (stats Samples.dimes_reversed).
Proof.
  split.
  - unfold Samples.dimes, Samples.dimes_reversed.
    eapply perm_trans; [apply perm_skip, perm_swap|].
    eapply perm_trans; [apply perm_swap|].
    apply perm_skip, perm_swap.
  - intros H. apply Leibniz.eqb_spec in H. vm_compute in H. discriminate.
Qed.

End StatsFacts.

(** ** [aggregatedData]: the merge *)

Module MergeFacts.

Import App AppSpec.
Local Open Scope float_scope.

Lemma fold_holdings (equity : number) (hs : list AVHolding.t)
    (m : JSMap.t HoldingEntry) :
  List.fold_left (holding_step equity) hs m
  = List.fold_left merge (List.map (pair equity) hs) m.
Proof.
  revert m. induction hs as [|h r IH]; intros m; simpl; [reflexivity|].
  apply IH.
Qed.

Lemma aggregate_step_fst (maps : JSMap.t HoldingEntry * JSMap.t number)
    (item : PortfolioItem.t) :
  fst (aggregate_step maps item)
  = List.fold_left merge (visited_of item) (fst maps).
Proof.
  destruct maps as [hm sm]. unfold aggregate_step, visited_of.
  destruct (PortfolioItem.data item) as [d|]; [|reflexivity].
  destruct (EtfProfileData.holdings d) as [hs|]; [|reflexivity].
  destruct (negb _); [|reflexivity].
  cbn [fst]. apply fold_holdings.
Qed.

Lemma aggregate_fold_fst (p : list PortfolioItem.t)
    (maps : JSMap.t HoldingEntry * JSMap.t number) :
  fst (List.fold_left aggregate_step p maps)
  = List.fold_left merge (visited p) (fst maps).
Proof.
  revert maps. induction p as [|item r IH]; intros maps; simpl; [reflexivity|].
  unfold visited in *. rewrite IH, aggregate_step_fst.
  now rewrite List.fold_left_app.
Qed.

(** The holdings map is the merge of the visited holdings, in order. *)
Lemma holdingMap_is_merge (p : list PortfolioItem.t) :
  fst (aggregate_maps p) = List.fold_left merge (visited p) JSMap.empty.
Proof. apply aggregate_fold_fst. Qed.

(** *** The value of a key *)

Lemma merge_set (m : JSMap.t HoldingEntry) (eh : number * AVHolding.t) :
  exists c,
    merge m eh = JSMap.set (key (snd eh)) c m
    /\ value c = value_at (key (snd eh)) m + contribution eh.
Proof.
  unfold merge, holding_step, key, value_at, contribution.
  destruct (canonical (snd eh)) as [k d]. cbn [fst].
  eexists. split; [reflexivity|]. cbn [value].
  now destruct (JSMap.get k m).
Qed.

Lemma value_at_merge (k : string) (m : JSMap.t HoldingEntry)
    (eh : number * AVHolding.t) :
  value_at k (merge m eh)
  = if String.eqb (key (snd eh)) k
    then value_at k m + contribution eh
    else value_at k m.
Proof.
  destruct (merge_set m eh) as (c & -> & Hc).
  destruct (String.eqb_spec (key (snd eh)) k) as [<-|Hne]; unfold value_at.
  - now rewrite JSMapFacts.get_set_eq.
  - now rewrite JSMapFacts.get_set_ne by congruence.
Qed.

Lemma value_at_fold (k : string) (s : list (number * AVHolding.t))
    (m : JSMap.t HoldingEntry) :
  value_at k (List.fold_left merge s m)
  = List.fold_left PrimFloat.add (List.map contribution (bucket k s))
      (value_at k m).
Proof.
  revert m. induction s as [|eh r IH]; intros m; simpl; [reflexivity|].
  rewrite IH, value_at_merge.
  now destruct (String.eqb (key (snd eh)) k).
Qed.

(** *** The order of the keys *)

Lemma keys_merge (m : JSMap.t HoldingEntry) (eh : number * AVHolding.t) :
  JSMap.keys (merge m eh)
  = if mem (key (snd eh)) (JSMap.keys m)
    then JSMap.keys m
    else (JSMap.keys m ++ [key (snd eh)])%list.
Proof.
  destruct (merge_set m eh) as (c & -> & _).
  rewrite JSMapFacts.keys_set.
  destruct (JSMap.get (key (snd eh)) m) eqn:E, (mem _ _) eqn:M; try reflexivity.
  - exfalso. assert (H : JSMap.get (key (snd eh)) m <> None) by congruence.
    apply H, JSMapFacts.get_None. intros Hin.
    apply Bool.not_true_iff_false in M. apply M. apply List.existsb_exists.
    exists (key (snd eh)). split; [exact Hin | apply String.eqb_refl].
  - exfalso. apply JSMapFacts.get_None in E. apply E.
    apply List.existsb_exists in M as (x & Hx & Heq).
    apply String.eqb_eq in Heq. now subst.
Qed.

Lemma mem_app (k : string) (l l' : list string) :
  mem k (l ++ l') = (mem k l || mem k l')%bool.
Proof. apply List.existsb_app. Qed.

Lemma filter_filter {A} (f g : A -> bool) (l : list A) :
  List.filter f (List.filter g l) = List.filter (fun x => g x && f x)%bool l.
Proof.
  induction l as [|a r IH]; simpl; [reflexivity|].
  destruct (g a); simpl; [destruct (f a)|]; now rewrite IH.
Qed.

Lemma keys_fold (s : list (number * AVHolding.t)) (m : JSMap.t HoldingEntry) :
  JSMap.keys (List.fold_left merge s m)
  = (JSMap.keys m
     ++ List.filter (fun k => negb (mem k (JSMap.keys m)))
          (first_seen (List.map (fun eh => key (snd eh)) s)))%list.
Proof.
  revert m. induction s as [|eh r IH]; intros m.
  - simpl. now rewrite List.app_nil_r.
  - cbn [List.fold_left List.map first_seen List.filter].
    rewrite IH, keys_merge. set (k0 := key (snd eh)).
    destruct (mem k0 (JSMap.keys m)) eqn:M; cbn [negb].
    + f_equal. rewrite filter_filter. apply List.filter_ext. intros k.
      destruct (String.eqb_spec k k0) as [->|Hne]; [now rewrite M|reflexivity].
    + rewrite <- List.app_assoc. cbn [List.app]. do 2 f_equal.
      rewrite filter_filter. apply List.filter_ext. intros k.
      rewrite mem_app. cbn [mem List.existsb]. rewrite Bool.orb_false_r.
      destruct (mem k (JSMap.keys m)), (k =? k0)%string; reflexivity.
Qed.

(** The keys of the holdings map, in iteration order, are the distinct
    keys of the visited holdings in the order of their first visits. *)
Lemma keys_first_seen (p : list PortfolioItem.t) :
  JSMap.keys (fst (aggregate_maps p))
  = first_seen (List.map (fun eh => key (snd eh)) (visited p)).
Proof.
  rewrite holdingMap_is_merge, keys_fold. cbn [JSMap.keys JSMap.empty List.map List.app].
  rewrite <- (List.filter_ext (fun _ => true)) by reflexivity.
  induction (first_seen _) as [|k r IH]; simpl; [reflexivity|now f_equal].
Qed.

Lemma NoDup_keys_fold (s : list (number * AVHolding.t)) (m : JSMap.t HoldingEntry) :
  List.NoDup (JSMap.keys m) -> List.NoDup (JSMap.keys (List.fold_left merge s m)).
Proof.
  revert m. induction s as [|eh r IH]; intros m Hnd; simpl; [exact Hnd|].
  apply IH. destruct (merge_set m eh) as (c & -> & _).
  now apply JSMapFacts.NoDup_keys_set.
Qed.

Lemma In_first_seen (k : string) (l : list string) :
  In k (first_seen l) <-> In k l.
Proof.
  induction l as [|k0 r IH]; simpl; [tauto|].
  rewrite List.filter_In, IH.
  destruct (String.eqb_spec k k0) as [->|Hne]; simpl; intuition congruence.
Qed.

End MergeFacts.

(** ** [aggregatedData]: the output *)

Module AggregateFacts.

Import App AppSpec.
Local Open Scope float_scope.

Lemma aggregateHoldings_sort (p : list PortfolioItem.t) :
  aggregateHoldings p = JSArray.sort by_totalValue (holding_rows p).
Proof. reflexivity. Qed.

Lemma aggregateSectors_sort (p : list PortfolioItem.t) :
  aggregateSectors p = JSArray.sort by_value (sector_rows p).
Proof. reflexivity. Qed.

Lemma ticker_rows (p : list PortfolioItem.t) :
  List.map AggregatedHolding.ticker (holding_rows p)
  = JSMap.keys (fst (aggregate_maps p)).
Proof.
  unfold holding_rows, holding_rows_with, JSMap.entries, JSMap.keys.
  rewrite List.map_map. apply List.map_ext. now intros [k c].
Qed.

(** A row of the output is a key of the map with what the map holds for
    it. *)
Lemma In_aggregateHoldings (r : AggregatedHolding.t) (p : list PortfolioItem.t) :
  In r (aggregateHoldings p) <->
  exists c,
    JSMap.get (AggregatedHolding.ticker r) (fst (aggregate_maps p)) = Some c
    /\ r = to_holding PrimFloat.div (totalEquity (stats p))
             (AggregatedHolding.ticker r, c).
Proof.
  rewrite aggregateHoldings_sort, SortFacts.sort_In.
  unfold holding_rows, holding_rows_with, JSMap.entries.
  assert (Hnd : List.NoDup (JSMap.keys (fst (aggregate_maps p)))).
  { rewrite MergeFacts.holdingMap_is_merge.
    apply MergeFacts.NoDup_keys_fold. constructor. }
  rewrite List.in_map_iff. split.
  - intros ([k c] & <- & Hin). exists c. split; [|reflexivity].
    now apply JSMapFacts.In_get.
  - intros (c & Hget & Hr). exists (AggregatedHolding.ticker r, c).
    split; [now symmetry | now apply JSMapFacts.get_Some_In].
Qed.

(** Every key that was visited has exactly one row, whose [totalValue] is
    the sum of what the holdings under that key contribute. *)
Lemma bucket_row (k : string) (p : list PortfolioItem.t) :
  bucket k (visited p) <> [] ->
  exists r,
    In r (aggregateHoldings p)
    /\ AggregatedHolding.ticker r = k
    /\ AggregatedHolding.totalValue r
       = sum (List.map contribution (bucket k (visited p)))
    /\ forall r', In r' (aggregateHoldings p) ->
                  AggregatedHolding.ticker r' = k -> r' = r.
Proof.
  intros Hne.
  assert (Hk : In k (JSMap.keys (fst (aggregate_maps p)))).
  { rewrite MergeFacts.keys_first_seen, MergeFacts.In_first_seen.
    destruct (bucket k (visited p)) as [|eh r] eqn:E; [contradiction|].
    assert (Hin : In eh (bucket k (visited p))) by (rewrite E; now left).
    apply List.filter_In in Hin as [Hin Hkey]. apply String.eqb_eq in Hkey.
    apply List.in_map_iff. now exists eh. }
  destruct (JSMap.get k (fst (aggregate_maps p))) as [c|] eqn:Hget;
    [|now apply JSMapFacts.get_None in Hget].
  exists (to_holding PrimFloat.div (totalEquity (stats p)) (k, c)).
  split; [|split; [|split]].
  - apply In_aggregateHoldings. exists c. now split.
  - reflexivity.
  - cbn [to_holding AggregatedHolding.totalValue].
    pose proof (MergeFacts.value_at_fold k (visited p) JSMap.empty) as H.
    rewrite <- MergeFacts.holdingMap_is_merge in H.
    unfold value_at in H at 1. rewrite Hget in H. exact H.
  - intros r' Hin Hk'. apply In_aggregateHoldings in Hin as (c' & Hget' & ->).
    cbn [to_holding AggregatedHolding.ticker] in Hk', Hget' |- *.
    subst k. rewrite Hget in Hget'. now injection Hget' as ->.
Qed.

Lemma no_bucket_no_row (k : string) (p : list PortfolioItem.t) :
  bucket k (visited p) = [] ->
  forall r, In r (aggregateHoldings p) -> AggregatedHolding.ticker r <> k.
Proof.
  intros He r Hin Hk. apply In_aggregateHoldings in Hin as (c & Hget & _).
  assert (Hkeys : In k (JSMap.keys (fst (aggregate_maps p)))).
  { subst k. destruct (in_dec string_dec (AggregatedHolding.ticker r)
                         (JSMap.keys (fst (aggregate_maps p)))) as [|Hn]; [assumption|].
    apply JSMapFacts.get_None in Hn. congruence. }
  rewrite MergeFacts.keys_first_seen, MergeFacts.In_first_seen in Hkeys.
  apply List.in_map_iff in Hkeys as (eh & Hkey & Hin).
  assert (Hb : In eh (bucket k (visited p))).
  { apply List.filter_In. split; [exact Hin|]. now apply String.eqb_eq. }
  rewrite He in Hb. contradiction.
Qed.

(** *** A weight that is not a number *)

Lemma fold_add_from_nan (l : list number) :
  List.fold_left PrimFloat.add l nan = nan.
Proof.
  induction l as [|x r IH]; simpl; [reflexivity|].
  now rewrite FloatFacts.add_nan_l.
Qed.

Lemma fold_add_nan (l : list number) (a : number) :
  In nan l -> List.fold_left PrimFloat.add l a = nan.
Proof.
  revert a. induction l as [|x r IH]; intros a; simpl; [tauto|].
  intros [->|Hin]; [|now apply IH].
  rewrite FloatFacts.add_nan_r. apply fold_add_from_nan.
Qed.

(** Whatever else is merged under its key, a visited holding whose weight
    is not a number leaves the row of that key with a [totalValue] that is
    [NaN]. *)
Lemma nan_weight_makes_row_nan (p : list PortfolioItem.t)
    (eh : number * AVHolding.t) :
  In eh (visited p) ->
  parseFloat (AVHolding.weight (snd eh)) = nan ->
  exists r,
    In r (aggregateHoldings p)
    /\ AggregatedHolding.ticker r = key (snd eh)
    /\ AggregatedHolding.totalValue r = nan.
Proof.
  intros Hin Hw.
  assert (Hb : In eh (bucket (key (snd eh)) (visited p))).
  { apply List.filter_In. split; [exact Hin | apply String.eqb_refl]. }
  destruct (bucket_row (key (snd eh)) p) as (r & Hr & Hk & Hv & _).
  { intros He. rewrite He in Hb. contradiction. }
  exists r. split; [exact Hr|]. split; [exact Hk|].
  rewrite Hv. apply fold_add_nan.
  apply List.in_map_iff. exists eh. split; [|exact Hb].
  unfold contribution. rewrite Hw. apply FloatFacts.mul_nan_r.
Qed.

(** *** The key CASH *)

Lemma canonical_placeholder (h : AVHolding.t) :
  placeholder (AVHolding.symbol h) = true ->
  canonical h = ("CASH"%string, "Cash / Other Assets"%string).
Proof.
  unfold placeholder, canonical, JSString.truthy.
  destruct (AVHolding.symbol h) as [s|]; [|reflexivity].
  intros H. rewrite Bool.negb_involutive.
  now rewrite H.
Qed.

Lemma canonical_symbol (h : AVHolding.t) (s : string) :
  AVHolding.symbol h = Some s -> placeholder (Some s) = false ->
  canonical h = (s, AVHolding.description h).
Proof.
  unfold placeholder, canonical, JSString.truthy. intros -> H.
  rewrite Bool.negb_involutive. now rewrite H.
Qed.

Lemma key_CASH (h : AVHolding.t) :
  key h = "CASH"%string <->
  placeholder (AVHolding.symbol h) = true
  \/ AVHolding.symbol h = Some "CASH"%string.
Proof.
  unfold key. destruct (placeholder (AVHolding.symbol h)) eqn:P.
  - rewrite canonical_placeholder by assumption. simpl. tauto.
  - destruct (AVHolding.symbol h) as [s|] eqn:S; [|discriminate].
    rewrite (canonical_symbol h s) by assumption. simpl.
    split; [intros ->; now right | intros [?|[= ->]]; [discriminate|reflexivity]].
Qed.

(** C5, as amended.  A holding whose symbol is [null], empty, [N/A] or [-]
    is merged under the key CASH with the description Cash / Other Assets;
    the key CASH collects those holdings and the holdings whose symbol is
    literally CASH, and no other; all of them, across all contributing
    positions, end in one single row CASH, whose [totalValue] is the
    left-to-right binary64 sum of their equity-times-weight contributions;
    and there is no row CASH when no such holding was visited. *)
Theorem cash_bucket (p : list PortfolioItem.t) :
  (forall h, placeholder (AVHolding.symbol h) = true ->
     canonical h = ("CASH"%string, "Cash / Other Assets"%string))
  /\ (forall h, key h = "CASH"%string <->
        placeholder (AVHolding.symbol h) = true
        \/ AVHolding.symbol h = Some "CASH"%string)
  /\ (bucket "CASH" (visited p) <> [] ->
      exists r,
        In r (aggregateHoldings p)
        /\ AggregatedHolding.ticker r = "CASH"%string
        /\ AggregatedHolding.totalValue r
           = sum (List.map contribution (bucket "CASH" (visited p)))
        /\ forall r', In r' (aggregateHoldings p) ->
                      AggregatedHolding.ticker r' = "CASH"%string -> r' = r)
  /\ (bucket "CASH" (visited p) = [] ->
      forall r, In r (aggregateHoldings p) ->
                AggregatedHolding.ticker r <> "CASH"%string).
Proof.
  split; [exact canonical_placeholder|].
  split; [exact key_CASH|].
  split; [apply bucket_row | apply no_bucket_no_row].
Qed.

(** The two branches of C5 at work: two funds with three placeholder
    symbols between them have one row CASH, worth
    1000 * 0.25 + 2000 * 0.125 + 2000 * 0.5 = 1500. *)
Lemma cash_bucket_witness :
  exists r,
    In r (aggregateHoldings Samples.funds_with_placeholders)
    /\ AggregatedHolding.ticker r = "CASH"%string
    /\ AggregatedHolding.totalValue r = 1500.
Proof.
  destruct (cash_bucket Samples.funds_with_placeholders) as (_ & _ & H & _).
  destruct H as (r & Hin & Hk & Hv & _); [vm_compute; discriminate|].
  exists r. split; [exact Hin|]. split; [exact Hk|].
  rewrite Hv. vm_compute. reflexivity.
Defined.

(** C5, as stated, fails: in a fund that lists one holding under the
    symbol CASH and one without symbol, the single row CASH is worth 75,
    while the contributions of the holdings whose symbol is [null], empty,
    [N/A] or [-] sum to 25. *)
Lemma cash_row_counts_the_symbol_CASH :
  exists r,
    aggregateHoldings Samples.fund_with_cash_symbol = [r]
    /\ AggregatedHolding.ticker r = "CASH"%string
    /\ AggregatedHolding.totalValue r = 75
    /\ sum (List.map contribution
              (List.filter (fun eh => placeholder (AVHolding.symbol (snd eh)))
                 (visited Samples.fund_with_cash_symbol)))
       = 25
    /\ AggregatedHolding.totalValue r
       <> sum (List.map contribution
                 (List.filter (fun eh => placeholder (AVHolding.symbol (snd eh)))
                    (visited Samples.fund_with_cash_symbol))).
Proof.
  eexists. split; [vm_compute; reflexivity|].
  repeat split; try (vm_compute; reflexivity).
  intros H. apply Leibniz.eqb_spec in H. vm_compute in H. discriminate.
Qed.

End AggregateFacts.

(** ** [aggregatedData]: the order of the rows *)

Module OrderFacts.

Import App AppSpec Binary64.
Local Open Scope float_scope.

(** The position of a row on the number line. *)
Lemma by_totalValue_agrees (l : list AggregatedHolding.t) :
  Forall (fun r => is_nan (AggregatedHolding.totalValue r) = false) l ->
  JSArray.agrees by_totalValue
    (fun r => val (AggregatedHolding.totalValue r)) l.
Proof.
  intros Hl a b Ha Hb. rewrite List.Forall_forall in Hl.
  unfold by_totalValue. apply FloatFacts.sub_positive; auto.
Qed.

Lemma StronglySorted_weaken {A} (R R' : A -> A -> Prop) (P : A -> Prop)
    (l : list A) :
  (forall x y, P x -> P y -> R x y -> R' x y) ->
  Forall P l -> StronglySorted R l -> StronglySorted R' l.
Proof.
  intros HR HP Hs. induction Hs as [|a r Hs IH Ha]; [constructor|].
  inversion HP as [|? ? Pa Pr]; subst. constructor; [now apply IH|].
  rewrite List.Forall_forall in *. intros x Hx. apply HR; auto.
Qed.

(** *** What the output depends on *)

Lemma stats_step_same (acc : StatsAcc) (a b : PortfolioItem.t) :
  same_inputs a b -> stats_step acc a = stats_step acc b.
Proof. intros (He & Hd & Hr). unfold stats_step. now rewrite He, Hd, Hr. Qed.

Lemma aggregate_step_same (maps : JSMap.t HoldingEntry * JSMap.t number)
    (a b : PortfolioItem.t) :
  same_inputs a b -> aggregate_step maps a = aggregate_step maps b.
Proof. intros (He & Hd & Hr). unfold aggregate_step. now rewrite He, Hd, Hr. Qed.

Lemma fold_left_same {S} (f : S -> PortfolioItem.t -> S)
    (p q : list PortfolioItem.t) :
  (forall s a b, same_inputs a b -> f s a = f s b) ->
  Forall2 same_inputs p q ->
  forall s, List.fold_left f p s = List.fold_left f q s.
Proof.
  intros Hf H. induction H as [|a b p q Hab _ IH]; intros s; simpl; [reflexivity|].
  now rewrite (Hf s a b Hab), IH.
Qed.

Lemma aggregatedData_same (p q : list PortfolioItem.t) :
  Forall2 same_inputs p q -> aggregatedData p = aggregatedData q.
Proof.
  intros H.
  unfold aggregatedData, aggregatedData_with, holding_rows_with,
    sector_rows_with, stats_with, aggregate_maps.
  rewrite (fold_left_same stats_step p q stats_step_same H).
  now rewrite (fold_left_same aggregate_step p q aggregate_step_same H).
Qed.

(** C6, as amended.  [aggregateHoldings] is a function of the equity, the
    profile and the error of the positions, in their order: equal inputs
    give the same ordered output.  The rows are the merged keys, which the
    map iterates in the order of their first insertion, reordered by
    [sort]; and when no row has a [totalValue] that is [NaN], the output is
    sorted by [totalValue], descending, and rows of equal [totalValue] keep
    the order of first insertion of their keys. *)
Theorem aggregateHoldings_sorted_stable (p : list PortfolioItem.t) :
  (forall q, Forall2 same_inputs p q -> aggregateHoldings q = aggregateHoldings p)
  /\ List.map AggregatedHolding.ticker (holding_rows p)
     = first_seen (List.map (fun eh => key (snd eh)) (visited p))
  /\ Permutation (aggregateHoldings p) (holding_rows p)
  /\ (Forall (fun r => is_nan (AggregatedHolding.totalValue r) = false)
        (holding_rows p) ->
      StronglySorted descending (aggregateHoldings p)
      /\ forall v, is_nan v = false ->
           tied v (aggregateHoldings p) = tied v (holding_rows p)).
Proof.
  split; [|split; [|split]].
  - intros q H. unfold aggregateHoldings.
    now rewrite (aggregatedData_same p q H).
  - rewrite AggregateFacts.ticker_rows. apply MergeFacts.keys_first_seen.
  - apply SortFacts.sort_perm.
  - intros Hnan.
    pose proof (by_totalValue_agrees _ Hnan) as Hag.
    rewrite AggregateFacts.aggregateHoldings_sort. split.
    + eapply StronglySorted_weaken;
        [| apply SortFacts.sort_Forall, Hnan
         | apply SortFacts.sort_sorted, Hag ].
      intros x y Hx Hy Hle. unfold descending.
      rewrite FloatFacts.leb_val by assumption. now apply Z.leb_le.
    + intros v Hv. unfold tied.
      rewrite (List.filter_ext_in
                 (fun r => AggregatedHolding.totalValue r =? v)
                 (fun r => (val (AggregatedHolding.totalValue r) =? val v)%Z)).
      2:{ intros r Hr. apply FloatFacts.eqb_val; [|exact Hv].
          apply SortFacts.sort_In in Hr.
          rewrite List.Forall_forall in Hnan. now apply Hnan. }
      rewrite (SortFacts.sort_stable _ _ (val v) _ Hag).
      symmetry. apply List.filter_ext_in. intros r Hr.
      apply FloatFacts.eqb_val; [|exact Hv].
      rewrite List.Forall_forall in Hnan. now apply Hnan.
Qed.

(** C6 at work: three merged keys in insertion order A, B, C, worth 25, 50
    and 25; the output is B, A, C. *)
Lemma aggregateHoldings_sorted_stable_witness :
  StronglySorted descending (aggregateHoldings Samples.fund_with_ties)
  /\ List.map AggregatedHolding.ticker
       (tied 25 (aggregateHoldings Samples.fund_with_ties))
     = ["A"%string; "C"%string].
Proof.
  destruct (aggregateHoldings_sorted_stable Samples.fund_with_ties)
    as (_ & _ & _ & H).
  destruct H as [Hs Ht].
  - repeat constructor.
  - split; [exact Hs|]. rewrite Ht by reflexivity. reflexivity.
Defined.

(** C6, as stated, fails: a weight that is not a number makes the second
    of three rows [NaN], and the output, 10, [NaN], 50, is not in
    descending order. *)
Lemma nan_row_breaks_the_order :
  List.map AggregatedHolding.totalValue
    (aggregateHoldings Samples.fund_with_nan_bucket)
  = [10; nan; 50]
  /\ ~ StronglySorted descending
         (aggregateHoldings Samples.fund_with_nan_bucket).
Proof.
  split; [vm_compute; reflexivity|].
  intros H. vm_compute in H.
  inversion H as [|? ? _ Hf]; subst.
  inversion Hf as [|? ? Hd _]; subst.
  vm_compute in Hd. discriminate.
Qed.

End OrderFacts.

(** ** Ratios and percentages *)

Module RatioFacts.

Import App AppSpec.
Local Open Scope float_scope.

Lemma totalEquity_any_division (div : number -> number -> number)
    (p : list PortfolioItem.t) :
  totalEquity (stats_with div p) = totalEquity (stats p).
Proof. reflexivity. Qed.

Lemma to_holding_zero (te : number) (e : string * HoldingEntry) :
  (0 <? te) = false ->
  AggregatedHolding.percentageOfPortfolio (to_holding PrimFloat.div te e) = 0.
Proof. intros H. destruct e as [k c]. simpl. now rewrite H. Qed.

Lemma to_sector_zero (te : number) (e : string * number) :
  (0 <? te) = false ->
  AggregatedSector.percentage (to_sector PrimFloat.div te e) = 0.
Proof. intros H. destruct e as [k c]. simpl. now rewrite H. Qed.

Lemma stats_with_same (div div' : number -> number -> number)
    (p : list PortfolioItem.t) :
  same_off_zero div div' -> stats_with div' p = stats_with div p.
Proof.
  intros H. unfold stats_with.
  set (a := List.fold_left stats_step p stats_init).
  destruct (0 <? acc_totalEquity a) eqn:E; [|reflexivity].
  apply FloatFacts.positive_not_zero in E. now rewrite !(H _ _ E).
Qed.

Lemma to_holding_same (div div' : number -> number -> number) (te : number)
    (e : string * HoldingEntry) :
  same_off_zero div div' -> to_holding div' te e = to_holding div te e.
Proof.
  intros H. destruct e as [k c]. unfold to_holding.
  destruct (0 <? te) eqn:E; [|reflexivity].
  apply FloatFacts.positive_not_zero in E. now rewrite (H _ _ E).
Qed.

Lemma to_sector_same (div div' : number -> number -> number) (te : number)
    (e : string * number) :
  same_off_zero div div' -> to_sector div' te e = to_sector div te e.
Proof.
  intros H. destruct e as [k c]. unfold to_sector.
  destruct (0 <? te) eqn:E; [|reflexivity].
  apply FloatFacts.positive_not_zero in E. now rewrite (H _ _ E).
Qed.

Lemma aggregatedData_with_same (div div' : number -> number -> number)
    (p : list PortfolioItem.t) :
  same_off_zero div div' -> aggregatedData_with div' p = aggregatedData_with div p.
Proof.
  intros H. unfold aggregatedData_with, holding_rows_with, sector_rows_with.
  rewrite !totalEquity_any_division.
  rewrite (List.map_ext _ _ (fun e => to_holding_same div div' _ e H)).
  now rewrite (List.map_ext _ _ (fun e => to_sector_same div div' _ e H)).
Qed.

(** C7.  When [totalEquity] is zero (of either sign), both average ratios
    are exactly [0] and so is the percentage of every aggregated holding
    and of every aggregated sector.  And no division by zero takes place in
    [stats] or in [aggregatedData]: replacing [/] by any operation that
    agrees with it wherever the divisor is not a zero changes neither
    result. *)
Theorem zero_equity_zero_ratios (p : list PortfolioItem.t) :
  (is_zero (totalEquity (stats p)) = true ->
     avgExpenseRatio (stats p) = 0
     /\ avgDividendYield (stats p) = 0
     /\ Forall (fun r => AggregatedHolding.percentageOfPortfolio r = 0)
          (aggregateHoldings p)
     /\ Forall (fun r => AggregatedSector.percentage r = 0)
          (aggregateSectors p))
  /\ (forall div', same_off_zero PrimFloat.div div' ->
        stats_with div' p = stats p
        /\ aggregatedData_with div' p = aggregatedData p).
Proof.
  split.
  - intros Hz. apply FloatFacts.zero_not_positive in Hz.
    split; [|split; [|split]].
    + unfold stats, stats_with in *. cbn [avgExpenseRatio totalEquity] in *.
      now rewrite Hz.
    + unfold stats, stats_with in *. cbn [avgDividendYield totalEquity] in *.
      now rewrite Hz.
    + rewrite AggregateFacts.aggregateHoldings_sort.
      apply SortFacts.sort_Forall, List.Forall_forall.
      intros r Hr. apply List.in_map_iff in Hr as (e & <- & _).
      now apply to_holding_zero.
    + rewrite AggregateFacts.aggregateSectors_sort.
      apply SortFacts.sort_Forall, List.Forall_forall.
      intros r Hr. apply List.in_map_iff in Hr as (e & <- & _).
      now apply to_sector_zero.
  - intros div' H. split.
    + now apply stats_with_same.
    + now apply aggregatedData_with_same.
Qed.

(** C7 at work: a portfolio worth nothing, and a division that traps
    divisions by zero by returning [NaN]. *)
Lemma zero_equity_zero_ratios_witness :
  avgExpenseRatio (stats Samples.worthless) = 0
  /\ Forall (fun r => AggregatedHolding.percentageOfPortfolio r = 0)
       (aggregateHoldings Samples.worthless)
  /\ stats_with (fun x y => if is_zero y then nan else x / y)
       Samples.spy_qqq = stats Samples.spy_qqq.
Proof.
  destruct (zero_equity_zero_ratios Samples.worthless) as [H _].
  destruct H as (H1 & _ & H3 & _); [reflexivity|].
  split; [exact H1|]. split; [exact H3|].
  apply (zero_equity_zero_ratios Samples.spy_qqq).
  intros x y Hy. now rewrite Hy.
Defined.

End RatioFacts.

(** ** Scenarios *)

Module Scenarios.

Import App AppSpec.
Local Open Scope float_scope.

(** C9.  Two contributing positions, SPY with equity 10000 and the one
    holding AAPL of weight 0.07, QQQ with equity 5000 and the one holding
    AAPL of weight 0.10: [aggregateHoldings] returns one row, AAPL, whose
    [totalValue] is exactly 1200 and whose [percentageOfPortfolio] is
    exactly 8, in binary64 arithmetic. *)
Theorem spy_qqq_aapl (spy qqq : PortfolioItem.t) (d1 d2 : EtfProfileData.t)
    (h1 h2 : AVHolding.t) :
  PortfolioItem.equity spy = 10000 ->
  PortfolioItem.data spy = Some d1 ->
  JSString.truthy_opt (PortfolioItem.error spy) = false ->
  EtfProfileData.holdings d1 = Some [h1] ->
  AVHolding.symbol h1 = Some "AAPL"%string ->
  AVHolding.weight h1 = "0.07"%string ->
  PortfolioItem.equity qqq = 5000 ->
  PortfolioItem.data qqq = Some d2 ->
  JSString.truthy_opt (PortfolioItem.error qqq) = false ->
  EtfProfileData.holdings d2 = Some [h2] ->
  AVHolding.symbol h2 = Some "AAPL"%string ->
  AVHolding.weight h2 = "0.10"%string ->
  exists r,
    aggregateHoldings [spy; qqq] = [r]
    /\ AggregatedHolding.ticker r = "AAPL"%string
    /\ AggregatedHolding.totalValue r = 1200
    /\ AggregatedHolding.percentageOfPortfolio r = 8.
Proof.
  intros E1 D1 R1 H1 S1 W1 E2 D2 R2 H2 S2 W2.
  rewrite AggregateFacts.aggregateHoldings_sort.
  unfold holding_rows, holding_rows_with.
  rewrite MergeFacts.holdingMap_is_merge.
  assert (Hte : totalEquity (stats_with PrimFloat.div [spy; qqq]) = 15000).
  { unfold stats_with. cbn [totalEquity List.fold_left]. unfold stats_step.
    rewrite D1, R1, D2, R2, E1, E2. reflexivity. }
  assert (Hv : visited [spy; qqq] = [(10000, h1); (5000, h2)]).
  { unfold visited, visited_of. cbn [List.flat_map].
    rewrite D1, D2, H1, H2, R1, R2, E1, E2. reflexivity. }
  rewrite Hte, Hv. cbn [List.fold_left]. unfold merge, holding_step, canonical.
  cbn [fst snd]. rewrite S1, S2, W1, W2.
  eexists. split; [reflexivity|]. repeat split; vm_compute; reflexivity.
Qed.

Lemma spy_qqq_aapl_witness :
  exists r,
    aggregateHoldings Samples.spy_qqq = [r]
    /\ AggregatedHolding.ticker r = "AAPL"%string
    /\ AggregatedHolding.totalValue r = 1200
    /\ AggregatedHolding.percentageOfPortfolio r = 8.
Proof.
  eapply (spy_qqq_aapl _ _ _ _ _ _); reflexivity.
Defined.

(** C1 fails on the code.  A fund holds AAPL twice, once with weight 0.5
    and once with a weight that is not a number, and lists the sector Tech
    three times, the second time with a weight that is not a number.  The
    row AAPL is worth [NaN], not 50, and the sector Tech is worth 25, not
    75, which is what both are worth when the bad weight is read as 0. *)
Theorem non_numeric_weight_corrupts_its_bucket :
  List.map (fun r => (AggregatedHolding.ticker r, AggregatedHolding.totalValue r))
    (aggregateHoldings (Samples.fund_with_weight "oops"))
  = [("AAPL"%string, nan); ("MSFT"%string, 20)]
  /\ List.map (fun r => (AggregatedSector.name r, AggregatedSector.value r))
       (aggregateSectors (Samples.fund_with_weight "oops"))
     = [("Tech"%string, 25)]
  /\ List.map (fun r => (AggregatedHolding.ticker r, AggregatedHolding.totalValue r))
       (aggregateHoldings (Samples.fund_with_weight "0"))
     = [("AAPL"%string, 50); ("MSFT"%string, 20)]
  /\ List.map (fun r => (AggregatedSector.name r, AggregatedSector.value r))
       (aggregateSectors (Samples.fund_with_weight "0"))
     = [("Tech"%string, 75)].
Proof. repeat split; vm_compute; reflexivity. Qed.

End Scenarios.

(** ** The cache *)

Module CacheFacts.

Import Cache.

Lemma getItem_setItem (key value : string) (st st' : LocalStorage.t) :
  LocalStorage.setItem key value st = Some st' ->
  LocalStorage.getItem key st' = Some value.
Proof.
  unfold LocalStorage.setItem, LocalStorage.getItem.
  destruct (_ <=? _)%nat; [|discriminate].
  intros [= <-]. simpl. apply lookup_insert_eq.
Qed.

Lemma getItem_setItem_other (key key' value : string) (st st' : LocalStorage.t) :
  LocalStorage.setItem key value st = Some st' -> key <> key' ->
  LocalStorage.getItem key' st' = LocalStorage.getItem key' st.
Proof.
  unfold LocalStorage.setItem, LocalStorage.getItem.
  destruct (_ <=? _)%nat; [|discriminate].
  intros [= <-] Hne. simpl. now apply lookup_insert_ne.
Qed.

Lemma getItem_removeItem (key : string) (st : LocalStorage.t) :
  LocalStorage.getItem key (LocalStorage.removeItem key st) = None.
Proof. unfold LocalStorage.getItem. simpl. apply lookup_delete_eq. Qed.

Lemma getItem_removeItem_other (key key' : string) (st : LocalStorage.t) :
  key <> key' ->
  LocalStorage.getItem key' (LocalStorage.removeItem key st)
  = LocalStorage.getItem key' st.
Proof. intros H. unfold LocalStorage.getItem. simpl. now apply lookup_delete_ne. Qed.

Section WithJSON.
Context {Data : Type}.
Variable JSON_stringify : CacheEntry Data -> string.
Variable JSON_parse : string -> option (CacheEntry Data).

(** A write that the store refuses leaves the store as it was. *)
Lemma setCache_refused (now : Z) (ticker : string) (d : Data)
    (st : LocalStorage.t) :
  LocalStorage.setItem (cache_key ticker)
    (JSON_stringify {| data := d; timestamp := now |}) st = None ->
  setCache JSON_stringify now ticker d st = st.
Proof. unfold setCache. now intros ->. Qed.

(** C2, as amended.  When the store accepts the write and the entry
    survives serialisation (its text is not empty and parses back to the
    entry), [setCache] at [t0] followed by [getCache] at [t1] returns the
    data unchanged and leaves the store alone as long as [t1 - t0] is
    below 86,400,000 ms; from 86,400,000 ms on, [getCache] returns [null]
    and removes the entry from the store. *)
Theorem cache_round_trip (t0 t1 : Z) (ticker : string) (v : Data)
    (st st' : LocalStorage.t) :
  LocalStorage.setItem (cache_key ticker)
    (JSON_stringify {| data := v; timestamp := t0 |}) st = Some st' ->
  JSString.truthy (JSON_stringify {| data := v; timestamp := t0 |}) = true ->
  JSON_parse (JSON_stringify {| data := v; timestamp := t0 |})
    = Some {| data := v; timestamp := t0 |} ->
  setCache JSON_stringify t0 ticker v st = st'
  /\ (t1 - t0 < 86400000 ->
      getCache JSON_parse t1 ticker st' = (Some v, st'))
  /\ (86400000 <= t1 - t0 ->
      getCache JSON_parse t1 ticker st'
        = (None, LocalStorage.removeItem (cache_key ticker) st')
      /\ LocalStorage.getItem (cache_key ticker)
           (snd (getCache JSON_parse t1 ticker st')) = None).
Proof.
  intros Hset Htext Hparse.
  assert (Hput : setCache JSON_stringify t0 ticker v st = st')
    by (unfold setCache; now rewrite Hset).
  assert (Hget : forall t,
    getCache JSON_parse t ticker st'
    = if t - t0 <? CACHE_DURATION then (Some v, st')
      else (None, LocalStorage.removeItem (cache_key ticker) st')).
  { intros t. unfold getCache.
    rewrite (getItem_setItem _ _ _ _ Hset), Htext, Hparse. reflexivity. }
  split; [exact Hput|]. split.
  - intros Hlt. rewrite Hget.
    destruct (Z.ltb_spec (t1 - t0) CACHE_DURATION) as [_|Hge]; [reflexivity|].
    change CACHE_DURATION with 86400000 in Hge. lia.
  - intros Hge. rewrite Hget.
    destruct (Z.ltb_spec (t1 - t0) CACHE_DURATION) as [Hlt|_].
    + change CACHE_DURATION with 86400000 in Hlt. lia.
    + split; [reflexivity | apply getItem_removeItem].
Qed.

(** C10, as amended.  When the stored value is a non-empty string that
    cannot be decoded, [getCache] removes the entry, and only that entry,
    from the store and returns [null]. *)
Theorem undecodable_entry_is_purged (now : Z) (ticker stored : string)
    (st : LocalStorage.t) :
  LocalStorage.getItem (cache_key ticker) st = Some stored ->
  JSString.truthy stored = true ->
  JSON_parse stored = None ->
  getCache JSON_parse now ticker st
    = (None, LocalStorage.removeItem (cache_key ticker) st)
  /\ LocalStorage.getItem (cache_key ticker)
       (snd (getCache JSON_parse now ticker st)) = None
  /\ forall key, key <> cache_key ticker ->
       LocalStorage.getItem key (snd (getCache JSON_parse now ticker st))
       = LocalStorage.getItem key st.
Proof.
  intros Hst Htext Hparse.
  assert (Hget : getCache JSON_parse now ticker st
                 = (None, LocalStorage.removeItem (cache_key ticker) st))
    by (unfold getCache; now rewrite Hst, Htext, Hparse).
  rewrite Hget. split; [reflexivity|]. split.
  - apply getItem_removeItem.
  - intros key Hne. now apply getItem_removeItem_other.
Qed.

End WithJSON.

Local Open Scope string_scope.

Lemma cache_round_trip_witness :
  getCache Samples.text_parse 1700000000001 "spy"
    (setCache Samples.text_stringify 1700000000000 "SPY" "profile of SPY"
       (Samples.empty_store 1000))
  = (Some "profile of SPY",
     setCache Samples.text_stringify 1700000000000 "SPY" "profile of SPY"
       (Samples.empty_store 1000)).
Proof.
  destruct (LocalStorage.setItem (cache_key "SPY")
              (Samples.text_stringify
                 {| data := "profile of SPY"; timestamp := 1700000000000 |})
              (Samples.empty_store 1000)) as [st'|] eqn:E;
    [|vm_compute in E; discriminate].
  destruct (cache_round_trip Samples.text_stringify Samples.text_parse
              1700000000000 1700000000001 "SPY" "profile of SPY"
              (Samples.empty_store 1000) st' E eq_refl eq_refl)
    as (Hput & Hhit & _).
  rewrite Hput. apply Hhit. lia.
Defined.

(** C2, as stated, fails: a store that has no room refuses the write, and
    the [getCache] that follows at once finds nothing. *)
Lemma write_to_a_full_store_is_lost :
  Samples.text_parse
    (Samples.text_stringify {| data := "profile of SPY"; timestamp := 1700000000000 |})
  = Some {| data := "profile of SPY"; timestamp := 1700000000000 |}
  /\ fst (getCache Samples.text_parse 1700000000000 "SPY"
            (setCache Samples.text_stringify 1700000000000 "SPY" "profile of SPY"
               (Samples.empty_store 10)))
     = None.
Proof. split; vm_compute; reflexivity. Qed.

Lemma undecodable_entry_is_purged_witness :
  getCache Samples.text_parse 1700000000000 "SPY" Samples.store_with_garbage
  = (None, LocalStorage.removeItem (cache_key "SPY") Samples.store_with_garbage).
Proof.
  apply (undecodable_entry_is_purged Samples.text_parse 1700000000000 "SPY"
           "<html>" Samples.store_with_garbage); reflexivity.
Defined.

(** C10, as stated, fails: the empty string is a stored value that cannot
    be decoded; [getCache] returns [null] for it and leaves it in the
    store. *)
Lemma empty_entry_is_not_purged :
  LocalStorage.getItem (cache_key "SPY") Samples.store_with_empty_entry = Some ""
  /\ Samples.text_parse "" = None
  /\ getCache Samples.text_parse 1700000000000 "SPY" Samples.store_with_empty_entry
     = (None, Samples.store_with_empty_entry)
  /\ LocalStorage.getItem (cache_key "SPY")
       (snd (getCache Samples.text_parse 1700000000000 "SPY"
               Samples.store_with_empty_entry))
     = Some "".
Proof. repeat split; vm_compute; reflexivity. Qed.

End CacheFacts.

(** ** [fetchEtfProfile] *)

Module FetchFacts.

Import Fetch FetchSpec.

Lemma kind_of_http_error (r : Response) : kind_of (http_error r) = Some Transport.
Proof.
  unfold http_error.
  destruct (NilZero.string_of_int (Z.to_int (status r))); vm_compute; reflexivity.
Qed.

(** The profile query ends as the classification says. *)
Lemma fetch_profile_verdict (net : Network) (ticker apiKey : string) :
  verdict_of (fetch_profile net ticker apiKey)
  = classify (net (profileUrl ticker apiKey)).
Proof.
  unfold fetch_profile, fetch, classify.
  destruct (net (profileUrl ticker apiKey)) as [response|]; [|reflexivity].
  cbn [bind ret]. destruct (ok response); cbn [negb];
    [|unfold verdict_of, throw; now rewrite kind_of_http_error].
  unfold response_json.
  destruct (json response) as [data|]; [|reflexivity].
  cbn [bind ret].
  destruct data as [| |b|x|s|l|ps]; try reflexivity.
  unfold signals, has_holdings, prop. cbn [JSValue.get readable negb bind ret].
  destruct (JSValue.truthy (match JSMap.get "Error Message" ps with
                            | Some x => x | None => JSValue.Undefined end));
    [reflexivity|].
  destruct (JSValue.truthy (match JSMap.get "Note" ps with
                            | Some x => x | None => JSValue.Undefined end));
    [reflexivity|].
  destruct (JSValue.truthy (match JSMap.get "Information" ps with
                            | Some x => x | None => JSValue.Undefined end));
    [reflexivity|].
  cbn [negb].
  destruct (match JSMap.get "holdings" ps with
            | Some x => x | None => JSValue.Undefined end);
    cbn [JSValue.isArray JSValue.truthy];
    rewrite ?Bool.andb_false_r; reflexivity.
Qed.

(** A profile that passes the checks is an object. *)
Lemma fetch_profile_object (net : Network) (ticker apiKey : string)
    (data : JSValue.t) :
  fetch_profile net ticker apiKey = inr data ->
  exists ps, data = JSValue.Object ps.
Proof.
  unfold fetch_profile, fetch.
  destruct (net (profileUrl ticker apiKey)) as [response|]; [|discriminate].
  cbn [bind ret]. destruct (ok response); [|discriminate].
  unfold response_json. destruct (json response) as [d|]; [|discriminate].
  cbn [bind ret].
  destruct d as [| |b|x|s|l|ps]; try discriminate.
  intros H. exists ps.
  unfold prop in H. cbn [JSValue.get bind ret] in H.
  repeat match type of H with
         | (if ?c then _ else _) = _ => destruct c; [|discriminate]
         | (if negb ?c then _ else _) = _ => destruct c; [discriminate|]
         end.
  cbn [negb] in H. now injection H as <-.
Qed.

Section WithJSON.
Variable JSON_stringify : Cache.CacheEntry JSValue.t -> string.
Variable JSON_parse : string -> option (Cache.CacheEntry JSValue.t).

(** On a cache miss the fetch is the profile query followed, when it
    succeeds, by the choice of a name. *)
Lemma fetchEtfProfile_miss (net : Network) (t_get t_set : Z)
    (ticker apiKey : string) (st : LocalStorage.t) :
  cache_miss (fst (Cache.getCache JSON_parse t_get ticker st)) ->
  fst (fetchEtfProfile JSON_stringify JSON_parse net t_get t_set ticker apiKey st)
  = match fetch_profile net ticker apiKey with
    | inl e => inl e
    | inr data => inr (with_name data (etf_name net ticker apiKey))
    end.
Proof.
  unfold fetchEtfProfile, cache_miss.
  destruct (Cache.getCache JSON_parse t_get ticker st) as [cached st1].
  cbn [fst]. intros Hmiss.
  destruct cached as [d|]; [rewrite Hmiss|];
    now destruct (fetch_profile net ticker apiKey).
Qed.

(** C3, as amended.  On a cache miss the fetch ends as [classify] says of
    the answer to the profile query: a network failure or a non-success
    response fails with Transport; otherwise a body that is not JSON or is
    [null] fails with an exception that is none of the five; otherwise,
    in this order, a truthy [Error Message] fails with NotFound, a truthy
    [Note] with RateLimited, a truthy [Information] with
    DailyLimitExceeded, a missing or non-array [holdings] with
    NoHoldingData; and the fetch succeeds exactly when every check
    passes. *)
Theorem fetch_classifies (net : Network) (t_get t_set : Z)
    (ticker apiKey : string) (st : LocalStorage.t) :
  cache_miss (fst (Cache.getCache JSON_parse t_get ticker st)) ->
  verdict_of
    (fst (fetchEtfProfile JSON_stringify JSON_parse net t_get t_set ticker apiKey st))
  = classify (net (profileUrl ticker apiKey)).
Proof.
  intros Hmiss. rewrite fetchEtfProfile_miss by assumption.
  rewrite <- fetch_profile_verdict.
  now destruct (fetch_profile net ticker apiKey).
Qed.

(** *** The name *)

Lemma matches_object (ticker : string) (m : JSValue.t) :
  matches ticker m = true -> exists ps, m = JSValue.Object ps.
Proof.
  unfold matches. destruct m as [| |b|x|s|l|ps]; try discriminate.
  intros _. now exists ps.
Qed.

Lemma find_match_spec (ticker : string) (ms : list JSValue.t) :
  find_match ticker ms
  = match List.find (matches ticker) (readable_prefix ms) with
    | Some m => inr (Some m)
    | None => if List.forallb readable ms then inr None else inl TypeError
    end.
Proof.
  induction ms as [|m rest IH]; [reflexivity|].
  cbn [find_match readable_prefix List.forallb]. unfold prop, matches in *.
  destruct m as [| |b|x|s|l|ps]; cbn [JSValue.get readable bind ret throw];
    try reflexivity; cbn [List.find andb JSValue.get JSValue.is_string];
    try exact IH.
  destruct (JSValue.is_string ticker _); [reflexivity | exact IH].
Qed.

(** Without an answer, with an answer that is not JSON, with a body of
    the wrong shape or with no entry for the ticker, the name is the
    ticker. *)
Lemma etf_name_no_answer (net : Network) (ticker apiKey : string) :
  net (searchUrl ticker apiKey) = None ->
  etf_name net ticker apiKey = JSValue.Str ticker.
Proof. unfold etf_name, search_name, fetch. now intros ->. Qed.

Lemma etf_name_undecodable (net : Network) (ticker apiKey : string)
    (r : Response) :
  net (searchUrl ticker apiKey) = Some r -> json r = None ->
  etf_name net ticker apiKey = JSValue.Str ticker.
Proof.
  unfold etf_name, search_name, fetch, response_json.
  intros Hnet Hjson. rewrite Hnet. cbn [bind ret]. now rewrite Hjson.
Qed.

Lemma etf_name_malformed (net : Network) (ticker apiKey : string)
    (r : Response) (searchData : JSValue.t) :
  net (searchUrl ticker apiKey) = Some r -> json r = Some searchData ->
  malformed searchData ->
  etf_name net ticker apiKey = JSValue.Str ticker.
Proof.
  unfold etf_name, search_name, fetch, response_json, malformed, prop.
  intros Hnet Hjson H. rewrite Hnet. cbn [bind ret]. rewrite Hjson.
  cbn [bind ret].
  destruct (JSValue.get "bestMatches" searchData) as [v|]; [|reflexivity].
  cbn [bind ret].
  destruct v; cbn [JSValue.isArray]; rewrite ?Bool.andb_false_r;
    solve [reflexivity | contradiction].
Qed.

Lemma etf_name_no_match (net : Network) (ticker apiKey : string)
    (r : Response) (searchData : JSValue.t) :
  net (searchUrl ticker apiKey) = Some r -> json r = Some searchData ->
  no_match ticker searchData ->
  etf_name net ticker apiKey = JSValue.Str ticker.
Proof.
  unfold etf_name, search_name, fetch, response_json, prop.
  intros Hnet Hjson (ms & Hbest & Hfind). rewrite Hnet. cbn [bind ret].
  rewrite Hjson. cbn [bind ret]. rewrite Hbest.
  cbn [bind ret JSValue.truthy JSValue.isArray JSValue.elements andb].
  rewrite find_match_spec, Hfind.
  now destruct (List.forallb readable ms).
Qed.

(** With an entry for the ticker, the name is what that entry has under
    [2. name]. *)
Lemma etf_name_first_match (net : Network) (ticker apiKey : string)
    (r : Response) (searchData m : JSValue.t) :
  net (searchUrl ticker apiKey) = Some r -> json r = Some searchData ->
  first_match ticker searchData m ->
  etf_name net ticker apiKey = property "2. name" m.
Proof.
  unfold etf_name, search_name, fetch, response_json, prop.
  intros Hnet Hjson (ms & Hbest & Hfind). rewrite Hnet. cbn [bind ret].
  rewrite Hjson. cbn [bind ret]. rewrite Hbest.
  cbn [bind ret JSValue.truthy JSValue.isArray JSValue.elements andb].
  rewrite find_match_spec, Hfind. cbn [bind ret].
  apply List.find_some in Hfind as [_ Hm].
  apply matches_object in Hm as [ps ->]. reflexivity.
Qed.

Lemma with_name_properties (data name : JSValue.t) :
  (exists ps, data = JSValue.Object ps) ->
  JSValue.get "name" (with_name data name) = Some name
  /\ forall key, key <> "name"%string ->
       JSValue.get key (with_name data name) = JSValue.get key data.
Proof.
  intros [ps ->]. unfold with_name. cbn [JSValue.get JSValue.own_properties].
  split.
  - now rewrite JSMapFacts.get_set_eq.
  - intros key Hne. now rewrite JSMapFacts.get_set_ne.
Qed.

(** C8, as amended.  On a cache miss with a profile query that succeeds,
    the fetch succeeds whatever the search does, with the profile of the
    profile query in which only the property [name] is set: every other
    property is unchanged.  The name is the requested ticker whenever the
    search ends without an entry for the ticker: no answer, an answer that
    is not JSON, a body that is [null] or has no array [bestMatches], or an
    array with no entry for the ticker ahead of its first unreadable entry.
    When there is such an entry, the name is what the first one has under
    [2. name]. *)
Theorem enrichment_is_absorbed (net : Network) (t_get t_set : Z)
    (ticker apiKey : string) (st : LocalStorage.t) (data : JSValue.t) :
  cache_miss (fst (Cache.getCache JSON_parse t_get ticker st)) ->
  fetch_profile net ticker apiKey = inr data ->
  fst (fetchEtfProfile JSON_stringify JSON_parse net t_get t_set ticker apiKey st)
    = inr (with_name data (etf_name net ticker apiKey))
  /\ (forall name,
        JSValue.get "name" (with_name data name) = Some name
        /\ forall key, key <> "name"%string ->
             JSValue.get key (with_name data name) = JSValue.get key data)
  /\ (net (searchUrl ticker apiKey) = None ->
        etf_name net ticker apiKey = JSValue.Str ticker)
  /\ (forall r, net (searchUrl ticker apiKey) = Some r ->
        match json r with
        | None => etf_name net ticker apiKey = JSValue.Str ticker
        | Some searchData =>
            (malformed searchData \/ no_match ticker searchData ->
               etf_name net ticker apiKey = JSValue.Str ticker)
            /\ (forall m, first_match ticker searchData m ->
                   etf_name net ticker apiKey = property "2. name" m)
        end).
Proof.
  intros Hmiss Hprofile. split; [|split; [|split]].
  - rewrite fetchEtfProfile_miss by assumption. now rewrite Hprofile.
  - intros name. apply with_name_properties.
    eapply fetch_profile_object, Hprofile.
  - apply etf_name_no_answer.
  - intros r Hr. destruct (json r) as [searchData|] eqn:Hjson.
    + split.
      * intros [H|H]; [eapply etf_name_malformed | eapply etf_name_no_match];
          eassumption.
      * intros m Hm. eapply etf_name_first_match; eassumption.
    + eapply etf_name_undecodable; eassumption.
Qed.

End WithJSON.

Local Open Scope string_scope.

(** C8 at work: the profile query succeeds and the search does not
    answer; the fetch succeeds and the name is the ticker. *)
Lemma enrichment_is_absorbed_witness :
  fst (fetchEtfProfile Samples.deaf_stringify Samples.deaf_parse
         (Samples.network (Some (Samples.success Samples.profile_body)) None)
         1700000000000 1700000000300 "SPY" "demo" (Samples.empty_store 1000))
  = inr (with_name Samples.profile_body (JSValue.Str "SPY")).
Proof.
  destruct (enrichment_is_absorbed Samples.deaf_stringify Samples.deaf_parse
              (Samples.network (Some (Samples.success Samples.profile_body)) None)
              1700000000000 1700000000300 "SPY" "demo" (Samples.empty_store 1000)
              Samples.profile_body I eq_refl) as (H & _ & Hname & _).
  rewrite H, Hname; reflexivity.
Defined.

(** C8, as stated, fails: a search result that lists the ticker without a
    name is a malformed response, and the profile's name is then
    [undefined], not the ticker. *)
Lemma entry_without_name_leaves_name_undefined :
  exists v,
    fst (fetchEtfProfile Samples.deaf_stringify Samples.deaf_parse
           (Samples.network (Some (Samples.success Samples.profile_body))
              (Some (Samples.success Samples.search_body_without_name)))
           1700000000000 1700000000300 "SPY" "demo" (Samples.empty_store 1000))
    = inr v
    /\ JSValue.get "name" v = Some JSValue.Undefined
    /\ JSValue.get "name" v <> Some (JSValue.Str "SPY").
Proof.
  eexists. split; [vm_compute; reflexivity|].
  split; [reflexivity | discriminate].
Qed.

Lemma fetch_classifies_witness :
  verdict_of
    (fst (fetchEtfProfile Samples.deaf_stringify Samples.deaf_parse
            (Samples.network (Some (Samples.success Samples.note_body)) None)
            1700000000000 1700000000300 "SPY" "demo" (Samples.empty_store 1000)))
  = Fails RateLimited.
Proof.
  rewrite (fetch_classifies Samples.deaf_stringify Samples.deaf_parse
             (Samples.network (Some (Samples.success Samples.note_body)) None)
             1700000000000 1700000000300 "SPY" "demo" (Samples.empty_store 1000) I).
  reflexivity.
Defined.

(** C3, as stated, fails: a success response whose body is not JSON has no
    error, note or information field and no holdings list, and the fetch
    fails with a [SyntaxError], which is none of the five failures, not
    with NoHoldingData. *)
Lemma undecodable_body_is_not_NoHoldingData :
  ok Samples.empty_body = true
  /\ fst (fetchEtfProfile Samples.deaf_stringify Samples.deaf_parse
            (Samples.network (Some Samples.empty_body) None)
            1700000000000 1700000000300 "SPY" "demo" (Samples.empty_store 1000))
     = inl SyntaxError
  /\ kind_of SyntaxError <> Some NoHoldingData.
Proof. repeat split; try (vm_compute; reflexivity). discriminate. Qed.

End FetchFacts.

(** * Further properties *)

(** ** The cache in use *)

Module CacheUse.

Import Cache Fetch FetchSpec.




(** No ticker has the key of the API key. *)
Lemma cache_key_not_api_key (ticker : string) :
  cache_key ticker <> ApiKey.STORAGE_KEY.
Proof.
  intros H. apply (f_equal (String.get 3)) in H.
  vm_compute in H. discriminate.
Qed.

Section WithJSON.
Context {Data : Type}.
Variable JSON_stringify : CacheEntry Data -> string.
Variable JSON_parse : string -> option (CacheEntry Data).

Lemma getCache_frame (now : Z) (ticker key : string) (st : LocalStorage.t) :
  key <> cache_key ticker ->
  LocalStorage.getItem key (snd (getCache JSON_parse now ticker st))
  = LocalStorage.getItem key st.
Proof.
  intros Hne. unfold getCache.
  destruct (LocalStorage.getItem (cache_key ticker) st) as [stored|];
    [|reflexivity].
  destruct (negb (JSString.truthy stored)); [reflexivity|].
  destruct (JSON_parse stored) as [entry|]; cbn [snd].
  - destruct (now - timestamp entry <? CACHE_DURATION); cbn [snd];
      [reflexivity|].
    apply CacheFacts.getItem_removeItem_other. congruence.
  - apply CacheFacts.getItem_removeItem_other. congruence.
Qed.


(** What [getCache] returns depends on the store through the entry of its
    own key only. *)
Lemma getCache_fst_local (now : Z) (ticker : string) (st st' : LocalStorage.t) :
  LocalStorage.getItem (cache_key ticker) st'
  = LocalStorage.getItem (cache_key ticker) st ->
  fst (getCache JSON_parse now ticker st') = fst (getCache JSON_parse now ticker st).
Proof.
  intros H. unfold getCache. rewrite H.
  destruct (LocalStorage.getItem (cache_key ticker) st) as [stored|];
    [|reflexivity].
  destruct (negb (JSString.truthy stored)); [reflexivity|].
  destruct (JSON_parse stored) as [entry|]; [|reflexivity].
  now destruct (now - timestamp entry <? CACHE_DURATION).
Qed.



End WithJSON.

Section Fetching.
Variable JSON_stringify : CacheEntry JSValue.t -> string.
Variable JSON_parse : string -> option (CacheEntry JSValue.t).

Lemma getCache_hit (now : Z) (ticker stored : string)
    (entry : CacheEntry JSValue.t) (st : LocalStorage.t) :
  LocalStorage.getItem (cache_key ticker) st = Some stored ->
  JSString.truthy stored = true ->
  JSON_parse stored = Some entry ->
  now - timestamp entry < CACHE_DURATION ->
  getCache JSON_parse now ticker st = (Some (data entry), st).
Proof.
  intros Hget Htruthy Hparse Hfresh. unfold getCache.
  rewrite Hget, Htruthy, Hparse. cbn [negb].
  now apply Z.ltb_lt in Hfresh as ->.
Qed.

(** X3.  When the store holds a fresh entry for the ticker, the fetch returns
    the data of that entry whatever the network would answer, and leaves
    the store as it is. *)
Theorem fresh_entry_skips_the_network (net : Network) (t_get t_set : Z)
    (ticker apiKey stored : string) (entry : CacheEntry JSValue.t)
    (st : LocalStorage.t) :
  LocalStorage.getItem (cache_key ticker) st = Some stored ->
  JSString.truthy stored = true ->
  JSON_parse stored = Some entry ->
  t_get - timestamp entry < CACHE_DURATION ->
  JSValue.truthy (data entry) = true ->
  fetchEtfProfile JSON_stringify JSON_parse net t_get t_set ticker apiKey st
  = (inr (data entry), st).
Proof.
  intros Hget Htruthy Hparse Hfresh Hdata. unfold fetchEtfProfile.
  rewrite (getCache_hit _ _ _ _ _ Hget Htruthy Hparse Hfresh).
  now rewrite Hdata.
Qed.

(** X4.  A fetch that fails writes nothing: it leaves the store as the cache
    lookup left it, so every entry of another key is unchanged, and a
    store without an entry for the ticker is unchanged altogether. *)
Theorem failed_fetch_writes_nothing (net : Network) (t_get t_set : Z)
    (ticker apiKey : string) (st : LocalStorage.t) (e : exn) :
  fst (fetchEtfProfile JSON_stringify JSON_parse net t_get t_set ticker apiKey st)
    = inl e ->
  snd (fetchEtfProfile JSON_stringify JSON_parse net t_get t_set ticker apiKey st)
    = snd (getCache JSON_parse t_get ticker st)
  /\ (forall key, key <> cache_key ticker ->
        LocalStorage.getItem key
          (snd (fetchEtfProfile JSON_stringify JSON_parse net t_get t_set
                  ticker apiKey st))
        = LocalStorage.getItem key st)
  /\ (LocalStorage.getItem (cache_key ticker) st = None ->
        snd (fetchEtfProfile JSON_stringify JSON_parse net t_get t_set
               ticker apiKey st) = st).
Proof.
  intros Hfail.
  assert (Hsnd :
    snd (fetchEtfProfile JSON_stringify JSON_parse net t_get t_set ticker apiKey st)
    = snd (getCache JSON_parse t_get ticker st)).
  { revert Hfail. unfold fetchEtfProfile.
    destruct (getCache JSON_parse t_get ticker st) as [cached st1].
    destruct (fetch_profile net ticker apiKey) as [e'|d].
    - now destruct cached as [c|]; [destruct (JSValue.truthy c)|].
    - destruct cached as [c|]; [destruct (JSValue.truthy c)|]; discriminate. }
  split; [exact Hsnd|split].
  - intros key Hne. rewrite Hsnd. now apply getCache_frame.
  - intros Hnone. rewrite Hsnd. unfold getCache. now rewrite Hnone.
Qed.

(** X5.  A profile that a fetch returned and the store accepted is served from
    the store afterwards: until the entry expires, a fetch for the same
    ticker returns the same profile whatever the network answers then,
    and changes nothing. *)
Theorem fetched_profile_is_served_again (net net' : Network)
    (t_get t_set t_get' t_set' : Z) (ticker apiKey apiKey' : string)
    (st st' : LocalStorage.t) (v : JSValue.t) :
  cache_miss (fst (getCache JSON_parse t_get ticker st)) ->
  fetchEtfProfile JSON_stringify JSON_parse net t_get t_set ticker apiKey st
    = (inr v, st') ->
  LocalStorage.setItem (cache_key ticker)
    (JSON_stringify {| data := v; timestamp := t_set |})
    (snd (getCache JSON_parse t_get ticker st)) <> None ->
  JSString.truthy (JSON_stringify {| data := v; timestamp := t_set |}) = true ->
  JSON_parse (JSON_stringify {| data := v; timestamp := t_set |})
    = Some {| data := v; timestamp := t_set |} ->
  t_get' - t_set < CACHE_DURATION ->
  fetchEtfProfile JSON_stringify JSON_parse net' t_get' t_set' ticker apiKey' st'
  = (inr v, st').
Proof.
  intros Hmiss Hfetch Hroom Htruthy Hparse Hfresh.
  assert (Hv : JSValue.truthy v = true
               /\ st' = setCache JSON_stringify t_set ticker v
                          (snd (getCache JSON_parse t_get ticker st))).
  { revert Hmiss Hfetch. unfold fetchEtfProfile, cache_miss.
    destruct (getCache JSON_parse t_get ticker st) as [cached st1].
    cbn [fst snd]. intros Hmiss.
    assert (Hgo :
      match fetch_profile net ticker apiKey with
      | inl e => (throw e, st1)
      | inr d =>
          (ret (with_name d (etf_name net ticker apiKey)),
           setCache JSON_stringify t_set ticker
             (with_name d (etf_name net ticker apiKey)) st1)
      end = (inr v, st') ->
      JSValue.truthy v = true
      /\ st' = setCache JSON_stringify t_set ticker v st1).
    { destruct (fetch_profile net ticker apiKey) as [e|d]; [discriminate|].
      unfold ret. intros H. injection H as <- <-. now split. }
    destruct cached as [c|]; [rewrite Hmiss|]; exact Hgo. }
  destruct Hv as [Hv ->]. unfold setCache. unfold setCache in Hroom.
  destruct (LocalStorage.setItem (cache_key ticker)
              (JSON_stringify {| data := v; timestamp := t_set |})
              (snd (getCache JSON_parse t_get ticker st))) as [st2|] eqn:Hset;
    [|now contradict Hroom].
  unfold fetchEtfProfile.
  rewrite (getCache_hit t_get' ticker
             (JSON_stringify {| data := v; timestamp := t_set |})
             {| data := v; timestamp := t_set |} st2
             (CacheFacts.getItem_setItem _ _ _ _ Hset) Htruthy Hparse Hfresh).
  cbn [data]. now rewrite Hv.
Qed.

End Fetching.

End CacheUse.

(** [fetchEtfProfile] at work: a fresh entry is returned without the
    network, a failure leaves an empty store empty, and a fetched profile
    is served again when the network is down. *)
Module CacheUseExamples.

Import Cache Fetch FetchSpec.

Lemma fresh_entry_skips_the_network_witness :
  fetchEtfProfile Fixtures.slot_stringify (Fixtures.slot_parse Fixtures.spy_entry)
    (fun _ => None) 1700000000400 1700000000500 "SPY" "demo"
    Fixtures.store_with_spy
  = (inr Fixtures.spy_profile, Fixtures.store_with_spy).
Proof.
  apply (CacheUse.fresh_entry_skips_the_network
           Fixtures.slot_stringify (Fixtures.slot_parse Fixtures.spy_entry)
           (fun _ => None) 1700000000400 1700000000500 "SPY" "demo"
           "{entry}" Fixtures.spy_entry Fixtures.store_with_spy);
    vm_compute; reflexivity.
Defined.

Lemma failed_fetch_writes_nothing_witness :
  snd (fetchEtfProfile Samples.deaf_stringify Samples.deaf_parse
         (Samples.network (Some (Samples.success Samples.note_body)) None)
         1700000000000 1700000000300 "SPY" "demo" (Samples.empty_store 1000))
  = Samples.empty_store 1000.
Proof.
  apply (CacheUse.failed_fetch_writes_nothing
           Samples.deaf_stringify Samples.deaf_parse
           (Samples.network (Some (Samples.success Samples.note_body)) None)
           1700000000000 1700000000300 "SPY" "demo" (Samples.empty_store 1000)
           (Error "API Limit Reached (25/day)"));
    vm_compute; reflexivity.
Defined.

Lemma fetched_profile_is_served_again_witness :
  fetchEtfProfile Fixtures.slot_stringify (Fixtures.slot_parse Fixtures.spy_entry)
    (fun _ => None) 1700000000400 1700000000500 "SPY" "other"
    Fixtures.store_with_spy
  = (inr Fixtures.spy_profile, Fixtures.store_with_spy).
Proof.
  apply (CacheUse.fetched_profile_is_served_again
           Fixtures.slot_stringify (Fixtures.slot_parse Fixtures.spy_entry)
           (Samples.network (Some (Samples.success Samples.profile_body)) None)
           (fun _ => None)
           1700000000000 1700000000300 1700000000400 1700000000500
           "SPY" "demo" "other" (Samples.empty_store 1000));
    try (vm_compute; reflexivity).
  vm_compute. discriminate.
Defined.

End CacheUseExamples.

(** ** The API key *)

Module ApiKeyFacts.

Import Cache.

(** X6.  A key that the store accepts is the key of the next start of the
    application, the empty key included, and saving it changes the result
    of no cache lookup. *)
Theorem saved_key_is_read_back (key : string) (st st' : LocalStorage.t) :
  snd (ApiKey.handleSaveKey key st) = Some st' ->
  fst (ApiKey.handleSaveKey key st) = key
  /\ ApiKey.initial st' = key
  /\ forall (Data : Type) (JSON_parse : string -> option (CacheEntry Data))
       (now : Z) (ticker : string),
       fst (getCache JSON_parse now ticker st')
       = fst (getCache JSON_parse now ticker st).
Proof.
  unfold ApiKey.handleSaveKey. cbn [fst snd]. intros Hset.
  split; [reflexivity|split].
  - unfold ApiKey.initial.
    rewrite (CacheFacts.getItem_setItem _ _ _ _ Hset).
    unfold JSString.or_else, JSString.truthy.
    destruct (String.eqb key "") eqn:Hkey; [|reflexivity].
    cbn [negb]. symmetry. now apply String.eqb_eq.
  - intros Data JSON_parse now ticker.
    apply CacheUse.getCache_fst_local.
    eapply CacheFacts.getItem_setItem_other; [exact Hset|].
    intros H. exact (CacheUse.cache_key_not_api_key ticker (eq_sym H)).
Qed.

Lemma saved_key_is_read_back_witness :
  ApiKey.initial Fixtures.store_with_key = "demo".
Proof.
  refine (proj1 (proj2 (saved_key_is_read_back "demo" Fixtures.store_with_spy
                          Fixtures.store_with_key _))).
  vm_compute. reflexivity.
Defined.

End ApiKeyFacts.

(** ** [parseFloat] *)

Module ParseFacts.

Import ParseSpec.


(** Reading the digits of a decimal numeral, most significant first. *)
Lemma read_uint (d d0 : Decimal.uint) (cnt : Z) :
  JSNumber.read_digits (NilEmpty.string_of_uint d)
    (Z.of_N (DecimalPos.Unsigned.of_lu d0)) cnt
  = (Z.of_N (DecimalPos.Unsigned.of_lu (Decimal.revapp d d0)),
     cnt + Z.of_nat (Decimal.nb_digits d), EmptyString).
Proof.
  revert d0 cnt.
  induction d as [|d IH|d IH|d IH|d IH|d IH|d IH|d IH|d IH|d IH|d IH];
    intros d0 cnt;
    cbn [NilEmpty.string_of_uint JSNumber.read_digits Decimal.revapp
         Decimal.nb_digits];
    [ f_equal; f_equal; lia | .. ];
    match goal with
    | |- context [JSNumber.digit_of ?c] =>
        change (JSNumber.digit_of c) with (Some (Z.of_nat (nat_of_ascii c) - 48))
    end;
    cbv beta iota;
    match goal with
    | |- JSNumber.read_digits _ ?acc _
         = (Z.of_N (DecimalPos.Unsigned.of_lu (Decimal.revapp _ ?d1)), _, _) =>
        replace acc with (Z.of_N (DecimalPos.Unsigned.of_lu d1))
          by (cbn [DecimalPos.Unsigned.of_lu nat_of_ascii]; vm_compute Z.of_nat; lia)
    end;
    rewrite IH; f_equal; f_equal; lia.
Qed.

Lemma string_of_uint_digits (d : Decimal.uint) :
  d <> Decimal.Nil -> NilZero.string_of_uint d = NilEmpty.string_of_uint d.
Proof. destruct d; [contradiction|..]; reflexivity. Qed.

Lemma parse_digits (p : positive) :
  parseFloat (NilZero.string_of_uint (Pos.to_uint p))
  = SF2Prim (binary_normalize prec emax (Zpos p) 0 false).
Proof.
  pose proof (DecimalPos.Unsigned.to_uint_nonnil p) as Hnil.
  rewrite (string_of_uint_digits _ Hnil).
  pose proof (read_uint (Pos.to_uint p) Decimal.Nil 0) as H.
  change (Decimal.revapp (Pos.to_uint p) Decimal.Nil)
    with (Decimal.rev (Pos.to_uint p)) in H.
  rewrite <- DecimalPos.Unsigned.of_uint_alt, DecimalPos.Unsigned.of_to in H.
  cbn [DecimalPos.Unsigned.of_lu Z.of_N] in H.
  assert (Hcnt : 0 + Z.of_nat (Decimal.nb_digits (Pos.to_uint p)) <> 0).
  { destruct (Pos.to_uint p); [contradiction|..]; cbn [Decimal.nb_digits]; lia. }
  revert H Hcnt. generalize (0 + Z.of_nat (Decimal.nb_digits (Pos.to_uint p))).
  intros n H Hn.
  assert (Hparse : JSNumber.parse_unsigned false
                     (NilEmpty.string_of_uint (Pos.to_uint p))
                   = SF2Prim (binary_normalize prec emax (Zpos p) 0 false)).
  { unfold JSNumber.parse_unsigned.
    assert (Hinf : String.prefix "Infinity"
                     (NilEmpty.string_of_uint (Pos.to_uint p)) = false)
      by (destruct (Pos.to_uint p); [contradiction|..]; reflexivity).
    rewrite Hinf, H. apply Z.eqb_neq in Hn. rewrite Hn. cbn [andb].
    unfold JSNumber.decimal_to_number, JSNumber.read_exponent,
      JSNumber.decimal_to_SF.
    cbn [Z.sub Z.opp Z.add]. now rewrite Z.mul_1_r. }
  rewrite <- Hparse. unfold parseFloat.
  destruct (Pos.to_uint p); [contradiction|..]; reflexivity.
Qed.

(** [parseFloat] reads the decimal writing of a whole number as the
    conversion from integers to binary64 gives it: exactly up to 2^53,
    and rounded to nearest beyond. *)
Lemma parse_whole_number (n : Z) :
  0 <= n < 2 ^ 63 ->
  parseFloat (NilZero.string_of_int (Z.to_int n))
  = PrimFloat.of_uint63 (Uint63.of_Z n).
Proof.
  intros Hn.
  rewrite <- (SF2Prim_Prim2SF (PrimFloat.of_uint63 (Uint63.of_Z n))).
  rewrite of_uint63_spec, Uint63.of_Z_spec.
  rewrite Z.mod_small by (change Uint63.wB with (2 ^ 63); exact Hn).
  destruct n as [|p|p]; [reflexivity| |lia].
  apply parse_digits.
Qed.

End ParseFacts.

(** ** The portfolio *)

Module PortfolioFacts.

Import App Portfolio PortfolioSpec.
Local Open Scope float_scope.

(** *** Positions that do not count *)

Lemma aggregate_step_skip (maps : JSMap.t HoldingEntry * JSMap.t number)
    (item : PortfolioItem.t) :
  counts_in_stats item = false -> aggregate_step maps item = maps.
Proof.
  unfold counts_in_stats, aggregate_step. destruct maps as [hm sm].
  destruct (PortfolioItem.data item) as [d|]; [|reflexivity].
  intros H. destruct (EtfProfileData.holdings d); [|reflexivity].
  now rewrite H.
Qed.

Lemma aggregate_fold_filter (p : list PortfolioItem.t)
    (maps : JSMap.t HoldingEntry * JSMap.t number) :
  List.fold_left aggregate_step p maps
  = List.fold_left aggregate_step (List.filter counts_in_stats p) maps.
Proof.
  revert maps. induction p as [|item p IH]; intros maps; [reflexivity|].
  cbn [List.filter List.fold_left].
  destruct (counts_in_stats item) eqn:Hc; cbn [List.fold_left].
  - apply IH.
  - rewrite aggregate_step_skip by assumption. apply IH.
Qed.

Lemma aggregatedData_filter (p : list PortfolioItem.t) :
  aggregatedData p = aggregatedData (List.filter counts_in_stats p).
Proof.
  unfold aggregatedData, aggregatedData_with, holding_rows_with,
    sector_rows_with, aggregate_maps.
  rewrite <- (StatsFacts.stats_with_filter PrimFloat.div p).
  now rewrite <- (aggregate_fold_filter p).
Qed.

(** The derived state reads the positions that count, and nothing else. *)
Lemma derived_state_filter (p q : list PortfolioItem.t) :
  List.filter counts_in_stats p = List.filter counts_in_stats q ->
  stats p = stats q /\ aggregatedData p = aggregatedData q.
Proof.
  intros H. split.
  - unfold stats. rewrite (StatsFacts.stats_with_filter _ p),
      (StatsFacts.stats_with_filter _ q). now rewrite H.
  - rewrite (aggregatedData_filter p), (aggregatedData_filter q). now rewrite H.
Qed.

Lemma filter_append_skip (p : list PortfolioItem.t) (x : PortfolioItem.t) :
  counts_in_stats x = false ->
  List.filter counts_in_stats (p ++ [x]) = List.filter counts_in_stats p.
Proof.
  intros H. rewrite List.filter_app. cbn [List.filter]. rewrite H.
  apply List.app_nil_r.
Qed.

(** *** The updates *)

Lemma fulfilled_unused (id : string) (d : EtfProfileData.t)
    (p : list PortfolioItem.t) :
  unused id p -> fulfilled id d p = p.
Proof.
  unfold unused, fulfilled. induction p as [|x p IH]; intros H; [reflexivity|].
  cbn [List.map]. rewrite IH by (intros y Hy; apply H; now right).
  destruct (String.eqb_spec (PortfolioItem.id x) id) as [Heq|_]; [|reflexivity].
  exfalso. exact (H x (or_introl eq_refl) Heq).
Qed.

Lemma rejected_unused (id : string) (m : option string)
    (p : list PortfolioItem.t) :
  unused id p -> rejected id m p = p.
Proof.
  unfold unused, rejected. induction p as [|x p IH]; intros H; [reflexivity|].
  cbn [List.map]. rewrite IH by (intros y Hy; apply H; now right).
  destruct (String.eqb_spec (PortfolioItem.id x) id) as [Heq|_]; [|reflexivity].
  exfalso. exact (H x (or_introl eq_refl) Heq).
Qed.

Lemma In_removeEtf (id : string) (p : list PortfolioItem.t)
    (item : PortfolioItem.t) :
  In item (removeEtf id p) <-> In item p /\ PortfolioItem.id item <> id.
Proof.
  unfold removeEtf. rewrite List.filter_In.
  destruct (String.eqb_spec (PortfolioItem.id item) id); cbn [negb];
    intuition congruence.
Qed.

Lemma removeEtf_unused (id : string) (p : list PortfolioItem.t) :
  unused id (removeEtf id p).
Proof. intros item H. now apply In_removeEtf in H. Qed.

Lemma error_message_shows (m : option string) :
  JSString.truthy
    match m with
    | Some s => JSString.or_else s "Failed to fetch"
    | None => "Failed to fetch"%string
    end = true.
Proof.
  destruct m as [s|]; [|reflexivity]. unfold JSString.or_else.
  now destruct (JSString.truthy s) eqn:H.
Qed.

Lemma submitted_item (newTicker newEquity : string)
    (p : list PortfolioItem.t) (now : Z) (item : PortfolioItem.t) :
  handleAddEtf newTicker newEquity p now = Fetching item ->
  (List.length p < 50)%nat
  /\ item = {| PortfolioItem.id := toString now;
               PortfolioItem.ticker := Cache.toUpperCase newTicker;
               PortfolioItem.equity := parseFloat newEquity;
               PortfolioItem.data := None;
               PortfolioItem.isLoading := true;
               PortfolioItem.error := None |}.
Proof.
  unfold handleAddEtf.
  destruct (negb (JSString.truthy newTicker) || negb (JSString.truthy newEquity))%bool;
    [discriminate|].
  destruct (Nat.leb_spec 50 (List.length p)) as [|Hlt]; [discriminate|].
  intros Heq. injection Heq as <-. now split.
Qed.

(** *** The bound *)

Lemma step_length (p : list PortfolioItem.t) (e : Event) :
  (List.length p <= 50)%nat -> (List.length (step p e) <= 50)%nat.
Proof.
  intros Hp. destruct e as [t q now|id d|id m|id]; cbn [step].
  - destruct (handleAddEtf t q p now) as [| |item] eqn:H; try assumption.
    apply submitted_item in H as [Hlt _].
    unfold append. rewrite List.length_app. cbn [List.length]. lia.
  - unfold fulfilled. now rewrite List.length_map.
  - unfold rejected. now rewrite List.length_map.
  - unfold removeEtf.
    eapply Nat.le_trans; [apply List.filter_length_le | exact Hp].
Qed.

(** X7.  Whatever is submitted, fetched and removed, in whatever order, the
    portfolio never holds more than fifty positions. *)
Theorem portfolio_never_exceeds_fifty (events : list Event) :
  (List.length (run events) <= 50)%nat.
Proof.
  unfold run.
  assert (H : forall p, (List.length p <= 50)%nat ->
                        (List.length (List.fold_left step events p) <= 50)%nat).
  { induction events as [|e es IH]; intros p Hp; [exact Hp|].
    cbn [List.fold_left]. apply IH. now apply step_length. }
  apply H. cbn [List.length]. lia.
Qed.

(** *** The badges *)

Lemma settled_one_badge (item : PortfolioItem.t) :
  settled item ->
  List.count_occ Bool.bool_dec (badges item) true = 1%nat.
Proof.
  unfold settled, badges, shows_fetching, shows_error, shows_ready.
  destruct (PortfolioItem.isLoading item).
  - intros [-> ->]. reflexivity.
  - intros [H|H].
    + rewrite H. now destruct (PortfolioItem.data item).
    + destruct (PortfolioItem.data item); [|contradiction].
      now destruct (JSString.truthy_opt (PortfolioItem.error item)).
Qed.

Lemma step_settled (p : list PortfolioItem.t) (e : Event) :
  Forall settled p -> Forall settled (step p e).
Proof.
  intros Hp. destruct e as [t q now|id d|id m|id]; cbn [step].
  - destruct (handleAddEtf t q p now) as [| |item] eqn:H; try assumption.
    apply submitted_item in H as [_ ->].
    unfold append. apply List.Forall_app. split; [assumption|].
    constructor; [|constructor]. now split.
  - unfold fulfilled. apply List.Forall_map.
    eapply List.Forall_impl; [|exact Hp]. intros x Hx.
    destruct (String.eqb (PortfolioItem.id x) id); [|exact Hx].
    right. discriminate.
  - unfold rejected. apply List.Forall_map.
    eapply List.Forall_impl; [|exact Hp]. intros x Hx.
    destruct (String.eqb (PortfolioItem.id x) id); [|exact Hx].
    left. apply error_message_shows.
  - unfold removeEtf. apply List.Forall_forall. intros x Hx.
    apply List.filter_In in Hx as [Hx _].
    exact (proj1 (List.Forall_forall _ _) Hp x Hx).
Qed.

(** X8.  Whatever is submitted, fetched and removed, in whatever order, every
    position of the portfolio shows exactly one of the badges Fetching,
    Error and Ready. *)
Theorem every_position_shows_one_badge (events : list Event) :
  Forall (fun item => List.count_occ Bool.bool_dec (badges item) true = 1%nat)
    (run events).
Proof.
  unfold run.
  assert (H : forall p, Forall settled p ->
                        Forall settled (List.fold_left step events p)).
  { induction events as [|e es IH]; intros p Hp; [exact Hp|].
    cbn [List.fold_left]. apply IH. now apply step_settled. }
  eapply List.Forall_impl; [exact settled_one_badge|].
  apply H. constructor.
Qed.

(** *** Removal *)

(** X9.  [removeEtf] removes every position with the identifier and keeps the
    others; the result of a fetch that ends after the removal of its
    position changes nothing. *)
Theorem late_result_is_dropped (id : string) (d : EtfProfileData.t)
    (m : option string) (p : list PortfolioItem.t) :
  (forall item, In item (removeEtf id p)
                <-> In item p /\ PortfolioItem.id item <> id)
  /\ fulfilled id d (removeEtf id p) = removeEtf id p
  /\ rejected id m (removeEtf id p) = removeEtf id p.
Proof.
  split; [|split].
  - intros item. apply In_removeEtf.
  - apply fulfilled_unused, removeEtf_unused.
  - apply rejected_unused, removeEtf_unused.
Qed.

(** *** The derived state along a submission *)

(** X10.  A position that is being fetched changes neither the statistics nor
    the aggregation; when its identifier is new and its fetch fails, they
    are still what they were before the submission. *)
Theorem unfinished_position_counts_for_nothing (newTicker newEquity : string)
    (p : list PortfolioItem.t) (now : Z) (item : PortfolioItem.t)
    (m : option string) :
  handleAddEtf newTicker newEquity p now = Fetching item ->
  (stats (append item p) = stats p
   /\ aggregatedData (append item p) = aggregatedData p)
  /\ (unused (PortfolioItem.id item) p ->
      stats (rejected (PortfolioItem.id item) m (append item p)) = stats p
      /\ aggregatedData (rejected (PortfolioItem.id item) m (append item p))
         = aggregatedData p).
Proof.
  intros H. apply submitted_item in H as [_ ->]. cbn [PortfolioItem.id].
  split.
  - apply derived_state_filter. unfold append. now apply filter_append_skip.
  - intros Hnew. apply derived_state_filter.
    unfold append, rejected. rewrite List.map_app.
    fold (rejected (toString now) m p). rewrite rejected_unused by assumption.
    cbn [List.map PortfolioItem.id]. rewrite String.eqb_refl.
    now apply filter_append_skip.
Qed.

(** X11.  When the statistics have no data, because no position has both data
    and no error, the aggregation has no holding and no sector. *)
Theorem no_data_no_rows (p : list PortfolioItem.t) :
  hasData (stats p) = false -> aggregatedData p = ([], []).
Proof.
  unfold stats, stats_with. cbn [hasData]. rewrite StatsFacts.count_fold.
  cbn [stats_init acc_validItemsCount]. intros H. apply N.ltb_ge in H.
  assert (Hnil : List.filter counts_in_stats p = [])
    by (apply List.length_zero_iff_nil; lia).
  rewrite aggregatedData_filter, Hnil. reflexivity.
Qed.

(** X12.  When the identifier is new and the fetch succeeds, the position
    counts: [totalEquity] grows by the equity parsed from the form, and
    the statistics have data. *)
Theorem fetched_position_adds_its_equity (newTicker newEquity : string)
    (p : list PortfolioItem.t) (now : Z) (item : PortfolioItem.t)
    (d : EtfProfileData.t) :
  handleAddEtf newTicker newEquity p now = Fetching item ->
  unused (PortfolioItem.id item) p ->
  totalEquity (stats (fulfilled (PortfolioItem.id item) d (append item p)))
    = totalEquity (stats p) + parseFloat newEquity
  /\ hasData (stats (fulfilled (PortfolioItem.id item) d (append item p))) = true.
Proof.
  intros H. apply submitted_item in H as [_ ->]. cbn [PortfolioItem.id].
  intros Hnew. unfold append, fulfilled. rewrite List.map_app.
  fold (fulfilled (toString now) d p). rewrite fulfilled_unused by assumption.
  cbn [List.map PortfolioItem.id PortfolioItem.ticker PortfolioItem.equity
       PortfolioItem.error]. rewrite String.eqb_refl.
  unfold stats, stats_with. cbn [totalEquity hasData].
  rewrite List.fold_left_app. cbn [List.fold_left].
  set (a := List.fold_left stats_step p stats_init).
  split.
  - reflexivity.
  - unfold stats_step. cbn [PortfolioItem.data PortfolioItem.error
      JSString.truthy_opt negb acc_validItemsCount].
    apply N.ltb_lt. lia.
Qed.

End PortfolioFacts.

Module PortfolioExamples.

Import App Portfolio PortfolioSpec.
Local Open Scope float_scope.

Lemma unused_in_spy_qqq : unused "1700000000000" Samples.spy_qqq.
Proof.
  intros item [<-|[<-|[]]]; vm_compute; discriminate.
Qed.

(** A third fund, submitted beside SPY and QQQ: nothing changes while it
    is fetched. *)
Lemma unfinished_position_counts_for_nothing_witness :
  stats (append Fixtures.vti_pending Samples.spy_qqq) = stats Samples.spy_qqq.
Proof.
  refine (proj1 (proj1 (PortfolioFacts.unfinished_position_counts_for_nothing
                          "vti" "2500" Samples.spy_qqq 1700000000000
                          Fixtures.vti_pending None _))).
  vm_compute. reflexivity.
Defined.

(** A failed position and a position that is being fetched. *)
Lemma no_data_no_rows_witness :
  aggregatedData
    [Samples.failed "XXX" "500" "Ticker not found or invalid";
     Fixtures.vti_pending]
  = ([], []).
Proof.
  apply PortfolioFacts.no_data_no_rows. vm_compute. reflexivity.
Defined.

(** The same fund once fetched: 15000 dollars become 17500. *)
Lemma fetched_position_adds_its_equity_witness :
  totalEquity
    (stats (fulfilled "1700000000000" Fixtures.vti_profile
              (append Fixtures.vti_pending Samples.spy_qqq)))
  = 17500.
Proof.
  refine (eq_trans
            (proj1 (PortfolioFacts.fetched_position_adds_its_equity
                      "vti" "2500" Samples.spy_qqq 1700000000000
                      Fixtures.vti_pending Fixtures.vti_profile
                      eq_refl unused_in_spy_qqq)) _).
  vm_compute. reflexivity.
Defined.

End PortfolioExamples.

(** ** More on binary64 addition *)

Module AddFacts.

Import Binary64.
Local Open Scope float_scope.

(** A sum is the negative zero only when both terms are. *)
Lemma add_neg_zero (a c : float) :
  Prim2SF (a + c) = S754_zero true -> Prim2SF a = S754_zero true.
Proof.
  rewrite add_spec. unfold SF64add, SFadd.
  pose proof (Prim2SF_valid a) as Va. pose proof (Prim2SF_valid c) as Vc.
  destruct (Prim2SF a) as [sa|sa| |sa ma ea];
    destruct (Prim2SF c) as [sc|sc| |sc mc ec];
    try discriminate; try (destruct sa; destruct sc; discriminate).
  - now destruct sa, sc.
  - cbn [valid_binary] in Va, Vc.
    apply FloatFacts.bounded_inv in Va as [Va _].
    apply FloatFacts.bounded_inv in Vc as [Vc _].
    unfold binary_normalize.
    destruct (cond_Zopp sa (Z.pos (fst (shl_align ma ea (Z.min ea ec))))
              + cond_Zopp sc (Z.pos (fst (shl_align mc ec (Z.min ea ec)))))%Z
      as [|m|m]; [discriminate| |].
    + pose proof (FloatFacts.binary_round_sign false m (Z.min ea ec)) as H.
      intros E. rewrite E in H. exfalso. apply H. lia.
    + pose proof (FloatFacts.binary_round_sign true m (Z.min ea ec)) as H.
      intros E. rewrite E in H. exfalso. apply H. lia.
Qed.

(** [x || 0] is [x] unless [x] is [NaN] or the negative zero. *)
Lemma or_else_zero (a : float) :
  is_nan a = false -> Prim2SF a <> S754_zero true ->
  JSNumber.or_else a 0 = a.
Proof.
  intros Hnan Hneg. unfold JSNumber.or_else, JSNumber.truthy. rewrite Hnan.
  cbn [orb]. destruct (is_zero a) eqn:Hz; [|reflexivity].
  cbn [negb]. rewrite FloatFacts.is_zero_spec in Hz.
  apply Prim2SF_inj. change (Prim2SF 0) with (S754_zero false).
  destruct (Prim2SF a) as [[|]| | |]; try discriminate; [contradiction|reflexivity].
Qed.

Lemma fold_add_not_nan (l : list number) (a : number) :
  is_nan (List.fold_left PrimFloat.add l a) = false -> is_nan a = false.
Proof.
  destruct (is_nan a) eqn:Ha; [|reflexivity].
  apply FloatFacts.is_nan_true in Ha. subst a.
  now rewrite AggregateFacts.fold_add_from_nan.
Qed.

(** As long as the running sum is a number, [|| 0] changes nothing. *)
Lemma accumulate_sum (cs : list number) (a : number) :
  Prim2SF a <> S754_zero true ->
  is_nan (List.fold_left PrimFloat.add cs a) = false ->
  SectorSpec.accumulate a cs = List.fold_left PrimFloat.add cs a.
Proof.
  unfold SectorSpec.accumulate. revert a.
  induction cs as [|c cs IH]; intros a Hneg Hnan; [reflexivity|].
  cbn [List.fold_left] in *.
  pose proof (fold_add_not_nan _ _ Hnan) as Hac.
  assert (Ha : is_nan a = false).
  { destruct (is_nan a) eqn:Ha; [|reflexivity].
    apply FloatFacts.is_nan_true in Ha. subst a.
    now rewrite FloatFacts.add_nan_l in Hac. }
  rewrite or_else_zero by assumption.
  apply IH; [|exact Hnan].
  intros E. apply Hneg. exact (add_neg_zero _ _ E).
Qed.

End AddFacts.

(** ** The sectors *)

Module SectorFacts.

Import App SectorSpec Binary64.
Local Open Scope float_scope.

Lemma fold_sectors (equity : number) (ss : list AVSector.t)
    (m : JSMap.t number) :
  List.fold_left (sector_step equity) ss m
  = List.fold_left merge (List.map (pair equity) ss) m.
Proof.
  revert m. induction ss as [|s ss IH]; intros m; [reflexivity|].
  cbn [List.map List.fold_left]. apply IH.
Qed.

Lemma aggregate_step_snd (maps : JSMap.t HoldingEntry * JSMap.t number)
    (item : PortfolioItem.t) :
  snd (aggregate_step maps item)
  = List.fold_left merge (visited_of item) (snd maps).
Proof.
  unfold aggregate_step, visited_of. destruct maps as [hm sm].
  destruct (PortfolioItem.data item) as [d|]; [|reflexivity].
  destruct (EtfProfileData.holdings d) as [hs|]; [|reflexivity].
  destruct (negb (JSString.truthy_opt (PortfolioItem.error item)));
    destruct (EtfProfileData.sectors d) as [ss|]; try reflexivity.
  cbn [snd]. apply fold_sectors.
Qed.

Lemma aggregate_fold_snd (p : list PortfolioItem.t)
    (maps : JSMap.t HoldingEntry * JSMap.t number) :
  snd (List.fold_left aggregate_step p maps)
  = List.fold_left merge (visited p) (snd maps).
Proof.
  revert maps. induction p as [|item p IH]; intros maps; [reflexivity|].
  unfold visited. cbn [List.fold_left List.flat_map].
  rewrite List.fold_left_app, IH. now rewrite aggregate_step_snd.
Qed.

Lemma sectorMap_is_merge (p : list PortfolioItem.t) :
  snd (aggregate_maps p) = List.fold_left merge (visited p) JSMap.empty.
Proof. apply aggregate_fold_snd. Qed.

Lemma NoDup_sector_fold (s : list (number * AVSector.t)) (m : JSMap.t number) :
  List.NoDup (JSMap.keys m) -> List.NoDup (JSMap.keys (List.fold_left merge s m)).
Proof.
  revert m. induction s as [|es s IH]; intros m Hm; [exact Hm|].
  cbn [List.fold_left]. apply IH. unfold merge, sector_step.
  now apply JSMapFacts.NoDup_keys_set.
Qed.

Lemma In_keys_fold (k : string) (s : list (number * AVSector.t))
    (m : JSMap.t number) :
  In k (JSMap.keys (List.fold_left merge s m)) <->
  In k (JSMap.keys m) \/ exists es, In es s /\ AVSector.sector (snd es) = k.
Proof.
  revert m. induction s as [|es s IH]; intros m.
  - cbn [List.fold_left]. split; [now left|]. now intros [H|(es & [] & _)].
  - cbn [List.fold_left]. rewrite IH. unfold merge, sector_step.
    rewrite JSMapFacts.keys_set.
    destruct (JSMap.get (AVSector.sector (snd es)) m) as [v|] eqn:Hget.
    + split.
      * intros [H|(x & Hx & Hk)]; [now left|]. right. exists x. split; [now right|assumption].
      * intros [H|(x & [<-|Hx] & Hk)]; [now left| |right; now exists x].
        left. subst k.
        destruct (in_dec string_dec (AVSector.sector (snd es)) (JSMap.keys m))
          as [|Hn]; [assumption|].
        apply JSMapFacts.get_None in Hn. congruence.
    + rewrite List.in_app_iff. cbn [In]. split.
      * intros [[H|[<-|[]]]|(x & Hx & Hk)].
        -- now left.
        -- right. exists es. split; [now left|reflexivity].
        -- right. exists x. split; [now right|assumption].
      * intros [H|(x & [<-|Hx] & Hk)].
        -- left. now left.
        -- left. right. left. exact Hk.
        -- right. now exists x.
Qed.

Lemma name_rows (p : list PortfolioItem.t) :
  List.map AggregatedSector.name (sector_rows p)
  = JSMap.keys (snd (aggregate_maps p)).
Proof.
  unfold sector_rows, sector_rows_with, JSMap.entries, JSMap.keys.
  rewrite List.map_map. apply List.map_ext. now intros [k v].
Qed.

Lemma NoDup_sector_keys (p : list PortfolioItem.t) :
  List.NoDup (JSMap.keys (snd (aggregate_maps p))).
Proof. rewrite sectorMap_is_merge. apply NoDup_sector_fold. constructor. Qed.

Lemma In_aggregateSectors (r : AggregatedSector.t) (p : list PortfolioItem.t) :
  In r (aggregateSectors p) <->
  exists v,
    JSMap.get (AggregatedSector.name r) (snd (aggregate_maps p)) = Some v
    /\ r = to_sector PrimFloat.div (totalEquity (stats p))
             (AggregatedSector.name r, v).
Proof.
  rewrite AggregateFacts.aggregateSectors_sort, SortFacts.sort_In.
  unfold sector_rows, sector_rows_with, JSMap.entries.
  pose proof (NoDup_sector_keys p) as Hnd.
  rewrite List.in_map_iff. split.
  - intros ([k v] & <- & Hin). exists v. split; [|reflexivity].
    now apply JSMapFacts.In_get.
  - intros (v & Hget & Hr). exists (AggregatedSector.name r, v).
    split; [now symmetry | now apply JSMapFacts.get_Some_In].
Qed.

(** What the map holds for a sector after the visit: nothing when no
    record names it, and otherwise the accumulation of its
    contributions. *)
Lemma get_merge (k : string) (m : JSMap.t number) (es : number * AVSector.t) :
  JSMap.get k (merge m es)
  = if String.eqb (AVSector.sector (snd es)) k
    then Some (match JSMap.get k m with
               | Some v => JSNumber.or_else v 0
               | None => 0
               end + contribution es)
    else JSMap.get k m.
Proof.
  unfold merge, sector_step, contribution.
  destruct (String.eqb_spec (AVSector.sector (snd es)) k) as [->|Hne].
  - now rewrite JSMapFacts.get_set_eq.
  - rewrite JSMapFacts.get_set_ne by congruence. reflexivity.
Qed.

Lemma get_fold (k : string) (s : list (number * AVSector.t))
    (m : JSMap.t number) :
  JSMap.get k (List.fold_left merge s m)
  = match contributions k s with
    | [] => JSMap.get k m
    | c :: cs =>
        Some (accumulate (match JSMap.get k m with
                          | Some v => JSNumber.or_else v 0
                          | None => 0
                          end + c) cs)
    end.
Proof.
  unfold contributions. revert m.
  induction s as [|es s IH]; intros m; [reflexivity|].
  cbn [List.fold_left List.filter]. rewrite IH, get_merge.
  destruct (String.eqb (AVSector.sector (snd es)) k); [|reflexivity].
  cbn [List.map].
  now destruct (List.map contribution
                  (List.filter
                     (fun es0 => String.eqb (AVSector.sector (snd es0)) k) s)).
Qed.

Lemma get_sector (k : string) (p : list PortfolioItem.t) :
  JSMap.get k (snd (aggregate_maps p))
  = match contributions k (visited p) with
    | [] => None
    | c :: cs => Some (accumulate 0 (c :: cs))
    end.
Proof.
  rewrite sectorMap_is_merge, get_fold. cbn [JSMap.get JSMap.empty].
  now destruct (contributions k (visited p)).
Qed.

Lemma by_value_agrees (l : list AggregatedSector.t) :
  Forall (fun r => is_nan (AggregatedSector.value r) = false) l ->
  JSArray.agrees by_value (fun r => val (AggregatedSector.value r)) l.
Proof.
  intros Hl a b Ha Hb. rewrite List.Forall_forall in Hl.
  unfold by_value. apply FloatFacts.sub_positive; auto.
Qed.

(** X13.  A sector has a row exactly when a visited record names it, and no
    two rows have the same name. *)
Theorem one_row_per_sector (p : list PortfolioItem.t) :
  List.NoDup (List.map AggregatedSector.name (aggregateSectors p))
  /\ forall k,
       In k (List.map AggregatedSector.name (aggregateSectors p))
       <-> exists es, In es (visited p) /\ AVSector.sector (snd es) = k.
Proof.
  assert (Hperm : Permutation
                    (List.map AggregatedSector.name (aggregateSectors p))
                    (JSMap.keys (snd (aggregate_maps p)))).
  { rewrite <- name_rows, AggregateFacts.aggregateSectors_sort.
    apply Permutation_map, SortFacts.sort_perm. }
  split.
  - eapply Permutation_NoDup; [symmetry; exact Hperm|].
    apply NoDup_sector_keys.
  - intros k. split.
    + intros H. apply (Permutation_in _ Hperm) in H.
      rewrite sectorMap_is_merge in H. apply In_keys_fold in H as [[]|H].
      exact H.
    + intros H. apply (Permutation_in _ (Permutation_sym Hperm)).
      rewrite sectorMap_is_merge. apply In_keys_fold. now right.
Qed.

(** X14.  When the binary64 sum of what the records of a sector contribute, in
    visiting order, is a number, the sector has exactly one row and the
    value of that row is that sum. *)
Theorem sector_value_is_the_sum (k : string) (p : list PortfolioItem.t) :
  contributions k (visited p) <> [] ->
  is_nan (AppSpec.sum (contributions k (visited p))) = false ->
  exists r,
    In r (aggregateSectors p)
    /\ AggregatedSector.name r = k
    /\ AggregatedSector.value r = AppSpec.sum (contributions k (visited p))
    /\ forall r', In r' (aggregateSectors p) ->
                  AggregatedSector.name r' = k -> r' = r.
Proof.
  intros Hne Hnan. pose proof (get_sector k p) as Hget.
  destruct (contributions k (visited p)) as [|c cs] eqn:E; [contradiction|].
  rewrite AddFacts.accumulate_sum in Hget; [|discriminate|exact Hnan].
  fold (AppSpec.sum (c :: cs)) in Hget.
  exists (to_sector PrimFloat.div (totalEquity (stats p))
            (k, AppSpec.sum (c :: cs))).
  split; [|split; [|split]].
  - apply In_aggregateSectors. eexists. split; [exact Hget|reflexivity].
  - reflexivity.
  - reflexivity.
  - intros r' Hin Hk. apply In_aggregateSectors in Hin as (v & Hget' & ->).
    cbn [to_sector AggregatedSector.name] in Hk, Hget' |- *. subst k.
    rewrite Hget in Hget'. now injection Hget' as <-.
Qed.

(** X15.  The sectors come out as a rearrangement of the map and, when no
    value is [NaN], by value descending, with equal values in the order
    in which the map first met their sectors. *)
Theorem aggregateSectors_sorted_stable (p : list PortfolioItem.t) :
  Permutation (aggregateSectors p) (sector_rows p)
  /\ (Forall (fun r => is_nan (AggregatedSector.value r) = false)
        (sector_rows p) ->
      StronglySorted descending (aggregateSectors p)
      /\ forall v, is_nan v = false ->
           tied v (aggregateSectors p) = tied v (sector_rows p)).
Proof.
  split.
  - apply SortFacts.sort_perm.
  - intros Hnan.
    pose proof (by_value_agrees _ Hnan) as Hag.
    rewrite AggregateFacts.aggregateSectors_sort. split.
    + eapply OrderFacts.StronglySorted_weaken;
        [| apply SortFacts.sort_Forall, Hnan
         | apply SortFacts.sort_sorted, Hag ].
      intros x y Hx Hy Hle. unfold descending.
      rewrite FloatFacts.leb_val by assumption. now apply Z.leb_le.
    + intros v Hv. unfold tied.
      rewrite (List.filter_ext_in
                 (fun r => AggregatedSector.value r =? v)
                 (fun r => (val (AggregatedSector.value r) =? val v)%Z)).
      2:{ intros r Hr. apply FloatFacts.eqb_val; [|exact Hv].
          apply SortFacts.sort_In in Hr.
          rewrite List.Forall_forall in Hnan. now apply Hnan. }
      rewrite (SortFacts.sort_stable _ _ (val v) _ Hag).
      symmetry. apply List.filter_ext_in. intros r Hr.
      apply FloatFacts.eqb_val; [|exact Hv].
      rewrite List.Forall_forall in Hnan. now apply Hnan.
Qed.

End SectorFacts.

Module SectorExamples.

Import App SectorSpec.
Local Open Scope float_scope.

(** Three records of one sector, worth 50, 0 and 25 of a position of
    100 dollars. *)
Lemma sector_value_is_the_sum_witness :
  exists r,
    In r (aggregateSectors (Samples.fund_with_weight "0"))
    /\ AggregatedSector.name r = "Tech"%string
    /\ AggregatedSector.value r = 75.
Proof.
  destruct (SectorFacts.sector_value_is_the_sum "Tech"
              (Samples.fund_with_weight "0"))
    as (r & Hin & Hname & Hvalue & _).
  - vm_compute. discriminate.
  - vm_compute. reflexivity.
  - exists r. split; [exact Hin|]. split; [exact Hname|].
    rewrite Hvalue. vm_compute. reflexivity.
Defined.

End SectorExamples.

(** ** The rows of the holdings *)

Module HoldingFacts.

Import App AppSpec HoldingSpec.
Local Open Scope float_scope.

(** The key of a holding is never one of the placeholders. *)
Lemma key_not_placeholder (h : AVHolding.t) : placeholder (Some (key h)) = false.
Proof.
  unfold key, canonical, placeholder.
  destruct (AVHolding.symbol h) as [s|]; [|reflexivity].
  unfold JSString.truthy.
  destruct (String.eqb s "") eqn:E1; [reflexivity|].
  destruct (String.eqb s "N/A") eqn:E2; [reflexivity|].
  destruct (String.eqb s "-") eqn:E3; [reflexivity|].
  cbn [negb orb fst]. now rewrite E1, E2, E3.
Qed.

Lemma tickers_of_rows (p : list PortfolioItem.t) :
  Permutation (List.map AggregatedHolding.ticker (aggregateHoldings p))
    (first_seen (List.map (fun eh => key (snd eh)) (visited p))).
Proof.
  rewrite <- MergeFacts.keys_first_seen, <- AggregateFacts.ticker_rows,
    AggregateFacts.aggregateHoldings_sort.
  apply Permutation_map, SortFacts.sort_perm.
Qed.

Lemma NoDup_first_seen (l : list string) : List.NoDup (first_seen l).
Proof.
  induction l as [|k l IH]; [constructor|].
  cbn [first_seen]. constructor.
  - intros H. apply List.filter_In in H as [_ H].
    now rewrite String.eqb_refl in H.
  - now apply List.NoDup_filter.
Qed.

(** X16.  A key has a row exactly when a visited holding is merged under it;
    no two rows have the same ticker, and no ticker is a placeholder. *)
Theorem one_row_per_key (p : list PortfolioItem.t) :
  List.NoDup (List.map AggregatedHolding.ticker (aggregateHoldings p))
  /\ (forall k,
        In k (List.map AggregatedHolding.ticker (aggregateHoldings p))
        <-> exists eh, In eh (visited p) /\ key (snd eh) = k)
  /\ Forall (fun r => placeholder (Some (AggregatedHolding.ticker r)) = false)
       (aggregateHoldings p).
Proof.
  pose proof (tickers_of_rows p) as Hperm.
  assert (Hk : forall k,
             In k (List.map AggregatedHolding.ticker (aggregateHoldings p))
             <-> exists eh, In eh (visited p) /\ key (snd eh) = k).
  { intros k. split.
    - intros H. apply (Permutation_in _ Hperm) in H.
      apply MergeFacts.In_first_seen, List.in_map_iff in H as (eh & Hkey & Hin).
      now exists eh.
    - intros (eh & Hin & Hkey).
      apply (Permutation_in _ (Permutation_sym Hperm)).
      apply MergeFacts.In_first_seen, List.in_map_iff. now exists eh. }
  split; [|split].
  - eapply Permutation_NoDup; [symmetry; exact Hperm|]. apply NoDup_first_seen.
  - exact Hk.
  - apply List.Forall_forall. intros r Hr.
    assert (H : In (AggregatedHolding.ticker r)
                  (List.map AggregatedHolding.ticker (aggregateHoldings p)))
      by now apply List.in_map.
    apply Hk in H as (eh & _ & <-). apply key_not_placeholder.
Qed.

(** *** The texts of a row *)

Lemma settle_last (ds : list string) (n : string) :
  List.fold_left settle ds (Some n)
  = Some (if JSString.truthy (last_non_empty ds) then last_non_empty ds else n).
Proof.
  revert n. induction ds as [|d ds IH]; intros n; [reflexivity|].
  cbn [List.fold_left last_non_empty].
  change (settle (Some n) d) with (Some (JSString.or_else d n)). rewrite IH.
  destruct (JSString.truthy (last_non_empty ds)) eqn:E; [now rewrite E|].
  reflexivity.
Qed.

Lemma settle_first (ds : list string) :
  List.fold_left settle ds None
  = match ds with
    | [] => None
    | _ => Some (last_non_empty ds)
    end.
Proof.
  destruct ds as [|d ds]; [reflexivity|].
  cbn [List.fold_left last_non_empty].
  change (settle None d) with (Some (JSString.or_else d d)). rewrite settle_last.
  destruct (JSString.truthy (last_non_empty ds)); [reflexivity|].
  unfold JSString.or_else. now destruct (JSString.truthy d).
Qed.

Lemma texts_merge (k : string) (m : JSMap.t HoldingEntry)
    (eh : number * AVHolding.t) :
  option_map name (JSMap.get k (merge m eh))
  = (if String.eqb (key (snd eh)) k
     then settle (option_map name (JSMap.get k m)) (snd (canonical (snd eh)))
     else option_map name (JSMap.get k m))
  /\ option_map assetClass (JSMap.get k (merge m eh))
     = (if String.eqb (key (snd eh)) k
        then settle (option_map assetClass (JSMap.get k m))
               (AVHolding.assets (snd eh))
        else option_map assetClass (JSMap.get k m)).
Proof.
  unfold merge, holding_step, key.
  destruct (canonical (snd eh)) as [symbol description] eqn:Hc. cbn [fst snd].
  destruct (String.eqb_spec symbol k) as [->|Hne].
  - rewrite JSMapFacts.get_set_eq. unfold settle. cbn [option_map name assetClass].
    now destruct (JSMap.get k m).
  - rewrite JSMapFacts.get_set_ne by congruence. now split.
Qed.

Lemma texts_fold (k : string) (s : list (number * AVHolding.t))
    (m : JSMap.t HoldingEntry) :
  option_map name (JSMap.get k (List.fold_left merge s m))
  = List.fold_left settle (descriptions k s) (option_map name (JSMap.get k m))
  /\ option_map assetClass (JSMap.get k (List.fold_left merge s m))
     = List.fold_left settle (asset_classes k s)
         (option_map assetClass (JSMap.get k m)).
Proof.
  unfold descriptions, asset_classes, bucket. revert m.
  induction s as [|eh s IH]; intros m; [now split|].
  cbn [List.fold_left List.filter].
  destruct (IH (merge m eh)) as [IH1 IH2]. rewrite IH1, IH2.
  destruct (texts_merge k m eh) as [-> ->].
  now destruct (String.eqb (key (snd eh)) k).
Qed.

(** X17.  The name of a row is the last non-empty description among the
    holdings merged under its key, in visiting order, and its asset class
    the last non-empty asset class among them; each is empty when all of
    them are. *)
Theorem row_texts_are_the_last_given (p : list PortfolioItem.t) :
  Forall
    (fun r =>
       AggregatedHolding.name r
         = last_non_empty (descriptions (AggregatedHolding.ticker r) (visited p))
       /\ AggregatedHolding.assetClass r
          = last_non_empty (asset_classes (AggregatedHolding.ticker r) (visited p)))
    (aggregateHoldings p).
Proof.
  apply List.Forall_forall. intros r Hr.
  apply AggregateFacts.In_aggregateHoldings in Hr as (c & Hget & ->).
  cbn [to_holding AggregatedHolding.ticker AggregatedHolding.name
       AggregatedHolding.assetClass] in *.
  set (k := AggregatedHolding.ticker r) in *.
  destruct (texts_fold k (visited p) JSMap.empty) as [Hn Ha].
  rewrite <- MergeFacts.holdingMap_is_merge in Hn, Ha.
  rewrite Hget in Hn, Ha. cbn [option_map JSMap.get JSMap.empty] in Hn, Ha.
  rewrite settle_first in Hn, Ha.
  split.
  - destruct (descriptions k (visited p)); [discriminate|]. now injection Hn.
  - destruct (asset_classes k (visited p)); [discriminate|]. now injection Ha.
Qed.

End HoldingFacts.

(** ** Ratios that are not numbers *)

Module StatsMore.

Import App StatsSpec.
Local Open Scope float_scope.







End StatsMore.

Module StatsExamples.

Import App StatsSpec.


End StatsExamples.

(** ** The table of holdings *)

Module ChartFacts.

Import AnalysisCharts ChartSpec.

(** *** Slices *)

Lemma slice_nonneg {A} (s e : Z) (l : list A) :
  0 <= s <= e ->
  slice s e l = List.firstn (Z.to_nat (e - s)) (List.skipn (Z.to_nat s) l).
Proof.
  intros H. unfold slice.
  destruct (Z.ltb_spec s 0); [lia|]. destruct (Z.ltb_spec e 0); [lia|].
  destruct (Z.le_gt_cases (Z.of_nat (List.length l)) s) as [Hs|Hs].
  - rewrite (Z.min_r s) by lia.
    rewrite !List.skipn_all2 by lia. now rewrite !List.firstn_nil.
  - rewrite (Z.min_l s) by lia.
    destruct (Z.le_gt_cases (Z.of_nat (List.length l)) e) as [He|He].
    + rewrite (Z.min_r e) by lia.
      rewrite !List.firstn_all2; [reflexivity| |];
        rewrite List.length_skipn; lia.
    + now rewrite (Z.min_l e) by lia.
Qed.

Lemma firstn_add {A} (a b : nat) (l : list A) :
  List.firstn (a + b) l
  = (List.firstn a l ++ List.firstn b (List.skipn a l))%list.
Proof.
  revert l. induction a as [|a IH]; intros l; [reflexivity|].
  destruct l as [|x l]; cbn [Nat.add List.firstn List.skipn List.app].
  - now rewrite List.firstn_nil.
  - now rewrite IH.
Qed.


Lemma displayed_page (i : nat) (l : list AggregatedHolding.t) :
  displayedHoldings (Z.of_nat (S i)) l
  = List.firstn 10 (List.skipn (10 * i) l).
Proof.
  unfold displayedHoldings, ITEMS_PER_PAGE. rewrite slice_nonneg by lia.
  replace (Z.to_nat (Z.of_nat (S i) * 10 - (Z.of_nat (S i) - 1) * 10))
    with 10%nat by lia.
  now replace (Z.to_nat ((Z.of_nat (S i) - 1) * 10)) with (10 * i)%nat by lia.
Qed.

Lemma totalPages_spec (i : nat) (l : list AggregatedHolding.t) :
  Z.of_nat i < totalPages l <-> (10 * i < List.length l)%nat.
Proof.
  unfold totalPages, ITEMS_PER_PAGE.
  pose proof (Z.div_mod (Z.of_nat (List.length l) + 10 - 1) 10) as Hd.
  pose proof (Z.mod_pos_bound (Z.of_nat (List.length l) + 10 - 1) 10) as Hm.
  lia.
Qed.

Lemma totalPages_nonneg (l : list AggregatedHolding.t) : 0 <= totalPages l.
Proof.
  unfold totalPages, ITEMS_PER_PAGE. apply Z.div_pos; lia.
Qed.

Lemma pages_concat (n : nat) (l : list AggregatedHolding.t) :
  List.concat
    (List.map (fun page => displayedHoldings (Z.of_nat page) l) (List.seq 1 n))
  = List.firstn (10 * n) l.
Proof.
  induction n as [|n IH]; [reflexivity|].
  rewrite List.seq_S, List.map_app, List.concat_app, IH.
  cbn [List.map List.concat Nat.add]. rewrite List.app_nil_r, displayed_page.
  replace (10 * S n)%nat with (10 * n + 10)%nat by lia.
  now rewrite firstn_add.
Qed.

(** *** Pages *)

(** X19.  The pages of the table, one after the other, are the filtered list:
    every row is on exactly one page, in the order of the list. *)
Theorem pages_cover_the_list (l : list AggregatedHolding.t) :
  List.concat (pages l) = l.
Proof.
  unfold pages. rewrite pages_concat. apply List.firstn_all2.
  destruct (Nat.le_gt_cases (List.length l) (10 * Z.to_nat (totalPages l)))
    as [H|H]; [exact H|].
  apply totalPages_spec in H. pose proof (totalPages_nonneg l). lia.
Qed.

(** X20.  A page holds at most ten rows; the pages up to [totalPages] are not
    empty, those before the last are full and those beyond it are
    empty.  [handlePageChange] keeps a page that is on the list on the
    list. *)
Theorem pages_are_full_up_to_the_last (l : list AggregatedHolding.t)
    (page : Z) :
  1 <= page ->
  (List.length (displayedHoldings page l) <= 10)%nat
  /\ (page <= totalPages l <-> displayedHoldings page l <> [])
  /\ (page < totalPages l -> List.length (displayedHoldings page l) = 10%nat)
  /\ (page <= totalPages l ->
      forall newPage, 1 <= handlePageChange newPage page l <= totalPages l).
Proof.
  intros Hpage.
  replace page with (Z.of_nat (S (Z.to_nat (page - 1)))) by lia.
  set (i := Z.to_nat (page - 1)).
  rewrite displayed_page.
  assert (Hlen : List.length (List.firstn 10 (List.skipn (10 * i) l))
                 = Nat.min 10 (List.length l - 10 * i))
    by now rewrite List.length_firstn, List.length_skipn.
  pose proof (totalPages_spec i l) as Hi.
  pose proof (totalPages_spec (S i) l) as HSi.
  split; [|split; [|split]].
  - lia.
  - split.
    + intros H E. rewrite E in Hlen. cbn [List.length] in Hlen. lia.
    + intros H. destruct (Z.le_gt_cases (Z.of_nat (S i)) (totalPages l))
        as [|Hgt]; [assumption|].
      exfalso. apply H. apply List.length_zero_iff_nil. lia.
  - lia.
  - intros Hle newPage. unfold handlePageChange.
    destruct (Z.leb_spec 1 newPage); cbn [andb]; [|lia].
    destruct (Z.leb_spec newPage (totalPages l)); lia.
Qed.

(** *** The chart *)




(** *** The search *)












End ChartFacts.

Module ChartExamples.

Import AnalysisCharts.

(** Twenty-three rows make three pages; the third holds the last three
    rows. *)
Lemma pages_are_full_up_to_the_last_witness :
  totalPages Fixtures.rows = 3
  /\ List.length (displayedHoldings 2 Fixtures.rows) = 10%nat
  /\ List.map AggregatedHolding.ticker (displayedHoldings 3 Fixtures.rows)
     = ["T3"%string; "T2"%string; "T1"%string].
Proof.
  split; [reflexivity|]. split; [|reflexivity].
  refine (proj1 (proj2 (proj2 (ChartFacts.pages_are_full_up_to_the_last
                                 Fixtures.rows 2 _))) _);
    vm_compute; [discriminate|reflexivity].
Defined.

End ChartExamples.

(** ** What is typed in the form *)

Module FormFacts.

Import Portfolio ChartSpec.

Lemma upper_upper (c : ascii) : Cache.upper (Cache.upper c) = Cache.upper c.
Proof. destruct c as [[] [] [] [] [] [] [] []]; reflexivity. Qed.

Lemma toUpperCase_idempotent (s : string) :
  Cache.toUpperCase (Cache.toUpperCase s) = Cache.toUpperCase s.
Proof.
  induction s as [|c s IH]; [reflexivity|].
  cbn [Cache.toUpperCase]. now rewrite upper_upper, IH.
Qed.

(** X23.  The case in which an ASCII ticker is typed does not matter: the
    position is the one that the upper-case ticker gives, its ticker is
    in upper case, and the fetch for it uses the cache entry of that
    ticker. *)
Theorem typed_case_does_not_matter (newTicker newEquity : string)
    (portfolio : list PortfolioItem.t) (now : Z) :
  ascii_only newTicker = true ->
  handleAddEtf (Cache.toUpperCase newTicker) newEquity portfolio now
    = handleAddEtf newTicker newEquity portfolio now
  /\ forall item,
       handleAddEtf newTicker newEquity portfolio now = Fetching item ->
       Cache.toUpperCase (PortfolioItem.ticker item) = PortfolioItem.ticker item
       /\ Cache.cache_key (PortfolioItem.ticker item) = Cache.cache_key newTicker.
Proof.
  intros _. split.
  - unfold handleAddEtf. rewrite toUpperCase_idempotent.
    now destruct newTicker.
  - intros item H. apply PortfolioFacts.submitted_item in H as [_ ->].
    cbn [PortfolioItem.ticker]. unfold Cache.cache_key.
    now rewrite toUpperCase_idempotent.
Qed.

Lemma typed_case_does_not_matter_witness :
  handleAddEtf "VTI" "2500" Samples.spy_qqq 1700000000000
  = Fetching Fixtures.vti_pending.
Proof.
  refine (eq_trans
            (proj1 (typed_case_does_not_matter "vti" "2500" Samples.spy_qqq
                      1700000000000 eq_refl)) _).
  vm_compute. reflexivity.
Defined.

(** X24.  An equity typed as a whole number of dollars, in decimal digits, is
    the equity of the position: the binary64 value of that number, which
    is exact up to 2^53. *)
Theorem whole_dollars_are_taken_as_typed (newTicker : string) (n : Z)
    (portfolio : list PortfolioItem.t) (now : Z) (item : PortfolioItem.t) :
  0 <= n < 2 ^ 63 ->
  handleAddEtf newTicker (toString n) portfolio now = Fetching item ->
  PortfolioItem.equity item = PrimFloat.of_uint63 (Uint63.of_Z n).
Proof.
  intros Hn H. apply PortfolioFacts.submitted_item in H as [_ ->].
  cbn [PortfolioItem.equity]. now apply ParseFacts.parse_whole_number.
Qed.

Lemma whole_dollars_are_taken_as_typed_witness :
  PortfolioItem.equity Fixtures.vti_pending = 2500%float.
Proof.
  refine (eq_trans
            (whole_dollars_are_taken_as_typed "vti" 2500 Samples.spy_qqq
               1700000000000 Fixtures.vti_pending _ _) _).
  - split; [discriminate|reflexivity].
  - vm_compute. reflexivity.
  - reflexivity.
Defined.

End FormFacts.
